(** * Picture of the Day: the new-tab page

    A shallow embedding of the client-side engine of the repository:
    - [src/extension/newtab.js], the packaged extension: modules
      [Extension_display] and [Extension];
    - [src/pictures/static/pictures/newtab.js], the page served by the
      website: modules [Website_display] and [Website];
    - the earlier, commented text of the extension page, which still has the
      fitting heuristic of the website and the direct-provider fallback:
      module [Legacy];
    - what the three texts have word for word in common: module [Common].

    JavaScript values are modelled by [JS.jsval], objects by finite maps from
    property names to values, [localStorage] by a finite map from keys to
    cells, and the effectful functions by a state-and-exception monad over the
    page state [World], run against a browser environment [Env] (clock,
    location, network, entity decoder). The page is single-threaded, so an
    [await] is a plain sequencing point.

    Numbers: a JavaScript number is an IEEE 754 binary64 value. Pixel sizes
    are whole numbers; the quotients, products and differences the fitting
    function forms from them are rounded to the nearest binary64 value
    ([JS.double]), as the browser rounds them. A viewport of height 0 (a
    quotient that is infinite in the browser) is outside the model. *)

From Stdlib Require Import Ascii String QArith Qround Qminmax Qabs Qpower Lqa.
From stdpp Require Import gmap strings list fin_maps pretty.

Local Open Scope Z_scope.
Local Open Scope string_scope.

(** ** JavaScript values *)

Module JS.

Inductive jsval :=
| JUndefined
| JNull
| JBool (b : bool)
| JNum (z : Z)
| JStr (s : string).

#[global] Instance jsval_eq_dec : EqDecision jsval.
Proof. solve_decision. Defined.

(** [ToBoolean]: what [if (v)], [!v] and [v || w] test. *)
Definition truthy (v : jsval) : bool :=
  match v with
  | JUndefined | JNull => false
  | JBool b => b
  | JNum z => negb (z =? 0)%Z
  | JStr s => negb (String.eqb s "")
  end.

(** [a || b] *)
Definition or (a b : jsval) : jsval := if truthy a then a else b.

(** [a === b] *)
Definition strict_eq (a b : jsval) : bool := bool_decide (a = b).

(** [String(v)], as [localStorage.setItem], template literals and the DOM
    setters apply it. *)
Definition ToString (v : jsval) : string :=
  match v with
  | JUndefined => "undefined"
  | JNull => "null"
  | JBool true => "true"
  | JBool false => "false"
  | JNum z => pretty z
  | JStr s => s
  end.

(** Objects whose properties hold primitive values; reading a property that
    is not there gives [undefined]. *)
Abbreviation obj := (gmap string jsval).

Definition get (o : obj) (k : string) : jsval := default JUndefined (o !! k).

(** An object literal [{k1: v1, ..., kn: vn}]. *)
Definition literal (kvs : list (string * jsval)) : obj := list_to_map kvs.

(** [hay.includes(needle)] *)
Fixpoint includes (needle hay : string) : bool :=
  String.prefix needle hay ||
  match hay with
  | EmptyString => false
  | String _ rest => includes needle rest
  end.

(** [s.replace(/-/g, '')] *)
Fixpoint remove_dashes (s : string) : string :=
  match s with
  | EmptyString => EmptyString
  | String c rest =>
      if Ascii.eqb c "-"%char then remove_dashes rest
      else String c (remove_dashes rest)
  end.

(** [s.substring(2)] *)
Definition substring_from_2 (s : string) : string :=
  match s with
  | String _ (String _ rest) => rest
  | _ => EmptyString
  end.

(** Strings are kept in UTF-8: U+00A0 is the byte pair C2 A0. *)
Definition nbsp : string :=
  String (Ascii.ascii_of_nat 194) (String (Ascii.ascii_of_nat 160) EmptyString).

(** [s.replace(/ /g, ' ')] *)
Fixpoint replace_nbsp (s : string) : string :=
  match s with
  | EmptyString => EmptyString
  | String c rest =>
      match rest with
      | String d rest' =>
          if Ascii.eqb c (Ascii.ascii_of_nat 194) && Ascii.eqb d (Ascii.ascii_of_nat 160)
          then String " "%char (replace_nbsp rest')
          else String c (replace_nbsp rest)
      | EmptyString => String c EmptyString
      end
  end.

(** *** Numbers

    A finite binary64 value is a rational and is kept as one. Division,
    multiplication and subtraction give the exact result rounded to the
    nearest value with a significand of 53 bits, the one with the even
    significand when two are nearest ([double]); comparisons, [Math.abs],
    [Math.min], [Math.max], [Math.round], [Math.floor] and [toFixed] read the
    exact value of their argument. The range of the exponent is not
    modelled: what the fitting function forms from positive whole numbers
    below 2^53 is zero or lies between 2^-1022 and 2^1024 in size. *)

(** The integer nearest to [x], the even one of the two on a tie. *)
Definition nearest_even (x : Q) : Z :=
  let n := Qfloor x in
  match (x - inject_Z n ?= 1 # 2)%Q with
  | Lt => n
  | Gt => (n + 1)%Z
  | Eq => if Z.even n then n else (n + 1)%Z
  end.

(** The exponent [e] of a positive [x]: 2^52 <= x / 2^e < 2^53. *)
Definition exponent (x : Q) : Z :=
  let e := (Z.log2 (Qnum x) - Z.log2 (Zpos (Qden x)) - 53)%Z in
  if Qle_bool (inject_Z (2 ^ 53)) (x / 2 ^ e)%Q then (e + 1)%Z else e.

(** The binary64 value nearest to [x]. *)
Definition double (x : Q) : Q :=
  match Qnum x with
  | Z0 => 0%Q
  | Zpos _ =>
      let e := exponent x in
      (inject_Z (nearest_even (x / 2 ^ e)) * 2 ^ e)%Q
  | Zneg _ =>
      let e := exponent (- x) in
      (- (inject_Z (nearest_even (- x / 2 ^ e)) * 2 ^ e))%Q
  end.

(** [x / y], [x * y] and [x - y] *)
Definition num_div (x y : Q) : Q := double (x / y).
Definition num_mul (x y : Q) : Q := double (x * y).
Definition num_sub (x y : Q) : Q := double (x - y).

Definition Qltb (x y : Q) : bool := negb (Qle_bool y x).

(** [Math.round(x)]: the integer nearest to [x], ties towards +infinity. *)
Definition Math_round (x : Q) : Z := Qfloor (x + (1 # 2)).

(** [Math.floor(x)] *)
Definition Math_floor (x : Q) : Z := Qfloor x.

Fixpoint zeros (n : nat) : string :=
  match n with
  | O => EmptyString
  | S n' => String "0"%char (zeros n')
  end.

(** [x.toFixed(f)] for [|x|] below 10^21: sign, then the integer [n] nearest
    to [|x| * 10^f] (the larger one on a tie) written with [f] digits after
    the point. The argument is the exact value of the number, so that 0.175
    as a binary64 value, which is below 0.175, gives "0.17". *)
Definition toFixed (f : nat) (x : Q) : string :=
  let neg := Qltb x 0 in
  let ax := if neg then Qopp x else x in
  let n := Qfloor (ax * inject_Z (10 ^ Z.of_nat f) + (1 # 2)) in
  let m := pretty n in
  let body :=
    match f with
    | O => m
    | _ =>
        let m' := zeros (S f - String.length m) +:+ m in
        let k := (String.length m' - f)%nat in
        String.substring 0 k m' +:+ "." +:+ String.substring k f m'
    end in
  if neg then "-" +:+ body else body.

(** [!w], for a pixel size that may be missing. *)
Definition missing (w : option Z) : bool :=
  match w with
  | None => true
  | Some z => (z =? 0)%Z
  end.

End JS.

Import JS.

(** ** The browser: environment and page state *)

(** The body of an HTTP response, as [response.json()] reads it. The bodies
    this program looks into are objects of primitive fields and arrays of
    such objects. *)
Inductive body :=
| BodyInvalid                 (* not JSON: [json()] rejects *)
| BodyNull                    (* the JSON text [null] *)
| BodyObj (o : obj)
| BodyArr (l : list obj).

(** What [fetch(url)] settles to. *)
Inductive response :=
| NetworkFailure (message : string)      (* the promise rejects *)
| Response (status : Z) (b : body).

(** [response.ok] *)
Definition ok (status : Z) : bool := (200 <=? status)%Z && (status <=? 299)%Z.

Record Env := {
  today : string;                    (* new Date().toDateString() *)
  now : Z;                           (* Date.now() *)
  hostname : string;                 (* window.location.hostname *)
  origin : string;                   (* window.location.origin *)
  CONFIG_BACKEND_API_URL : string;   (* CONFIG.BACKEND_API_URL, from config.js *)
  network : string → response;
  decodeEntities : string → string   (* textarea.innerHTML = text; textarea.value *)
}.

(** A [localStorage] cell. A cell written with [JSON.stringify] is kept as
    the value it encodes, and [JSON.parse] gives that value back; the
    program writes such cells under [picture_cache] and
    [available_sources_cache] only, and plain text under every other key. *)
Inductive cell :=
| Text (s : string)
| JsonObj (o : obj)
| JsonArr (l : list obj).

#[global] Instance cell_eq_dec : EqDecision cell.
Proof. solve_decision. Defined.

(** A [<select>] element: the values of its options and the selected one. *)
Record select := {
  options : list string;
  selected : option string
}.

(** [select.value] *)
Definition value_of (s : select) : string := default "" (selected s).

(** [select.value = v] *)
Definition set_value (v : string) (s : select) : select :=
  {| options := options s;
     selected := if bool_decide (v ∈ options s) then Some v else None |}.

(** [select.innerHTML = ''] *)
Definition no_options : select := {| options := []; selected := None |}.

(** [select.innerHTML = '<option value="">...</option>'] *)
Definition placeholder_option : select := {| options := [""]; selected := Some "" |}.

(** [select.appendChild(option)]: a drop-down with nothing selected selects
    its first option. *)
Definition appendChild (v : string) (s : select) : select :=
  let opts := (options s ++ [v])%list in
  {| options := opts;
     selected := match selected s with
                 | Some x => Some x
                 | None => head opts
                 end |}.

Record World := {
  localStorage : gmap string cell;
  AVAILABLE_SOURCES : list jsval;
  sourceSelect : select;
  bingPictureSelect : option select;   (* the element may be missing from the page *)
  requests : list string;              (* URLs passed to [fetch], oldest first *)
  random : list Q;                     (* the values [Math.random()] will return *)
  errors : list string                 (* messages shown by [showError], oldest first *)
}.

(** Writes to styles, classes and text nodes that the code never reads back
    are not part of [World]. *)

Definition with_localStorage (f : gmap string cell → gmap string cell) (w : World) : World :=
  {| localStorage := f (localStorage w); AVAILABLE_SOURCES := AVAILABLE_SOURCES w;
     sourceSelect := sourceSelect w; bingPictureSelect := bingPictureSelect w;
     requests := requests w; random := random w; errors := errors w |}.

Definition with_AVAILABLE_SOURCES (l : list jsval) (w : World) : World :=
  {| localStorage := localStorage w; AVAILABLE_SOURCES := l;
     sourceSelect := sourceSelect w; bingPictureSelect := bingPictureSelect w;
     requests := requests w; random := random w; errors := errors w |}.

Definition with_sourceSelect (f : select → select) (w : World) : World :=
  {| localStorage := localStorage w; AVAILABLE_SOURCES := AVAILABLE_SOURCES w;
     sourceSelect := f (sourceSelect w); bingPictureSelect := bingPictureSelect w;
     requests := requests w; random := random w; errors := errors w |}.

Definition with_bingPictureSelect (f : select → select) (w : World) : World :=
  {| localStorage := localStorage w; AVAILABLE_SOURCES := AVAILABLE_SOURCES w;
     sourceSelect := sourceSelect w; bingPictureSelect := f <$> bingPictureSelect w;
     requests := requests w; random := random w; errors := errors w |}.

Definition with_requests (f : list string → list string) (w : World) : World :=
  {| localStorage := localStorage w; AVAILABLE_SOURCES := AVAILABLE_SOURCES w;
     sourceSelect := sourceSelect w; bingPictureSelect := bingPictureSelect w;
     requests := f (requests w); random := random w; errors := errors w |}.

Definition with_random (l : list Q) (w : World) : World :=
  {| localStorage := localStorage w; AVAILABLE_SOURCES := AVAILABLE_SOURCES w;
     sourceSelect := sourceSelect w; bingPictureSelect := bingPictureSelect w;
     requests := requests w; random := l; errors := errors w |}.

Definition with_errors (f : list string → list string) (w : World) : World :=
  {| localStorage := localStorage w; AVAILABLE_SOURCES := AVAILABLE_SOURCES w;
     sourceSelect := sourceSelect w; bingPictureSelect := bingPictureSelect w;
     requests := requests w; random := random w; errors := f (errors w) |}.

(** ** Statements and exceptions *)

Inductive outcome (A : Type) :=
| Ok (a : A)
| Throw (message : string).
Arguments Ok {A} a.
Arguments Throw {A} message.

(** A piece of code: from the page state to a value or an exception, and the
    page state it leaves. An exception keeps the writes made before it. *)
Definition M (A : Type) : Type := World → outcome A * World.

Definition ret {A} (a : A) : M A := λ w, (Ok a, w).

Definition throw {A} (message : string) : M A := λ w, (Throw message, w).

Definition bind {A B} (m : M A) (k : A → M B) : M B :=
  λ w, match m w with
       | (Ok a, w') => k a w'
       | (Throw e, w') => (Throw e, w')
       end.

(** [try { m } catch (error) { h error.message }] *)
Definition try_catch {A} (m : M A) (h : string → M A) : M A :=
  λ w, match m w with
       | (Ok a, w') => (Ok a, w')
       | (Throw e, w') => h e w'
       end.

Definition read {A} (f : World → A) : M A := λ w, (Ok (f w), w).

Definition update (f : World → World) : M unit := λ w, (Ok tt, f w).

Declare Scope js_scope.
Delimit Scope js_scope with js.
Notation "x <- m ;; k" := (bind m (λ x, k))
  (at level 100, m at next level, right associativity) : js_scope.
Notation "m ;; k" := (bind m (λ _, k))
  (at level 100, right associativity) : js_scope.
Local Open Scope js_scope.

(** The message of the TypeError or SyntaxError the engine raises; its
    wording is the engine's own. *)
Definition TypeError : string := "TypeError".
Definition SyntaxError : string := "SyntaxError".

(** *** localStorage *)

Definition getItem (key : string) : M (option cell) :=
  read (λ w, localStorage w !! key).

Definition setItem (key : string) (c : cell) : M unit :=
  update (with_localStorage (insert key c)).

Definition removeItem (key : string) : M unit :=
  update (with_localStorage (delete key)).

(** [if (getItem(key))]: a stored string is truthy unless it is empty. *)
Definition cell_truthy (c : option cell) : bool :=
  match c with
  | None => false
  | Some (Text s) => negb (String.eqb s "")
  | Some _ => true
  end.

(** [JSON.parse(cell)] *)
Definition JSON_parse (c : cell) : M body :=
  match c with
  | Text _ => throw SyntaxError
  | JsonObj o => ret (BodyObj o)
  | JsonArr l => ret (BodyArr l)
  end.

(** *** Network *)

(** [await fetch(url)]: the request is made, and the call throws when the
    network fails. *)
Definition fetch (env : Env) (url : string) : M (Z * body) :=
  update (with_requests (λ l, (l ++ [url])%list)) ;;
  match network env url with
  | NetworkFailure message => throw message
  | Response status b => ret (status, b)
  end.

(** [await response.json()] *)
Definition json (b : body) : M body :=
  match b with
  | BodyInvalid => throw SyntaxError
  | _ => ret b
  end.

(** Reading named properties of a parsed value: of [null] it throws, and an
    array has none of the names this program reads. *)
Definition as_object (b : body) : M obj :=
  match b with
  | BodyObj o => ret o
  | BodyArr _ => ret ∅
  | BodyNull | BodyInvalid => throw TypeError
  end.

(** Calling an array method on a parsed value. *)
Definition as_array (b : body) : M (list obj) :=
  match b with
  | BodyArr l => ret l
  | _ => throw TypeError
  end.

(** [Math.random()] *)
Definition Math_random : M Q :=
  λ w, match random w with
       | [] => (Ok 0%Q, w)
       | r :: rest => (Ok r, with_random rest w)
       end.

(** *** parseInt *)

(** The white space and line terminators that parseInt skips. Strings are
    in UTF-8, so those beyond ASCII take two or three bytes: U+00A0; U+1680;
    U+2000 to U+200A, U+2028, U+2029 and U+202F; U+205F; U+3000; U+FEFF. *)
Definition is_space (c : ascii) : bool :=
  let n := nat_of_ascii c in
  bool_decide (n = 32 ∨ (9 ≤ n ∧ n ≤ 13))%nat.

Definition is_space2 (c d : ascii) : bool :=
  bool_decide (nat_of_ascii c = 194 ∧ nat_of_ascii d = 160)%nat.

Definition is_space3 (c d e : ascii) : bool :=
  let '(c, d, e) := (nat_of_ascii c, nat_of_ascii d, nat_of_ascii e) in
  bool_decide
    ((c = 225 ∧ d = 154 ∧ e = 128) ∨
     (c = 226 ∧ d = 128 ∧ ((128 ≤ e ∧ e ≤ 138) ∨ e = 168 ∨ e = 169 ∨ e = 175)) ∨
     (c = 226 ∧ d = 129 ∧ e = 159) ∨
     (c = 227 ∧ d = 128 ∧ e = 128) ∨
     (c = 239 ∧ d = 187 ∧ e = 191))%nat.

Fixpoint skip_spaces (s : string) : string :=
  match s with
  | String c rest =>
      if is_space c then skip_spaces rest
      else
        match rest with
        | String d rest2 =>
            if is_space2 c d then skip_spaces rest2
            else
              match rest2 with
              | String e rest3 => if is_space3 c d e then skip_spaces rest3 else s
              | EmptyString => s
              end
        | EmptyString => s
        end
  | EmptyString => s
  end.

Definition digit_of (radix : Z) (c : ascii) : option Z :=
  let n := Z.of_nat (nat_of_ascii c) in
  let d := if (48 <=? n)%Z && (n <=? 57)%Z then n - 48
           else if (97 <=? n)%Z && (n <=? 122)%Z then n - 87
           else if (65 <=? n)%Z && (n <=? 90)%Z then n - 55
           else radix in
  if (d <? radix)%Z then Some d else None.

Fixpoint digits (radix : Z) (acc : option Z) (s : string) : option Z :=
  match s with
  | String c rest =>
      match digit_of radix c with
      | Some d => digits radix (Some (radix * default 0 acc + d)) rest
      | None => acc
      end
  | EmptyString => acc
  end.

Definition unsigned (s : string) : option Z :=
  match s with
  | String "0" (String "x" rest) | String "0" (String "X" rest) => digits 16 None rest
  | _ => digits 10 None s
  end.

(** [parseInt(s)]; [None] is NaN. The value is kept as the whole number
    the digits denote: the program only subtracts it from [Date.now()], a
    whole number below 2^53, and compares the difference with a duration,
    which comes out the same for the binary64 value nearest to it. *)
Definition parseInt (s : string) : option Z :=
  match skip_spaces s with
  | String "-" rest => Z.opp <$> unsigned rest
  | String "+" rest => unsigned rest
  | rest => unsigned rest
  end.

(** *** A stored cell read as a string *)

Definition quote (s : string) : string :=
  String (ascii_of_nat 34) s +:+ String (ascii_of_nat 34) EmptyString.

Fixpoint join (sep : string) (l : list string) : string :=
  match l with
  | [] => EmptyString
  | [x] => x
  | x :: rest => x +:+ sep +:+ join sep rest
  end.

Definition JSON_value (v : jsval) : string :=
  match v with
  | JStr s => quote s
  | JUndefined => "null"
  | _ => ToString v
  end.

(** The text of a JSON cell. The program parses such cells and tests them
    for presence; it never compares or prints their text. *)
Definition JSON_object (o : obj) : string :=
  "{" +:+ join "," ((λ kv, quote kv.1 +:+ ":" +:+ JSON_value kv.2) <$> map_to_list o) +:+ "}".

Definition JSON_array (l : list obj) : string :=
  "[" +:+ join "," (JSON_object <$> l) +:+ "]".

Definition cell_text (c : cell) : string :=
  match c with
  | Text s => s
  | JsonObj o => JSON_object o
  | JsonArr l => JSON_array l
  end.

(** The value [localStorage.getItem] returns: a string, or [null]. *)
Definition cell_value (c : option cell) : jsval :=
  match c with
  | None => JNull
  | Some c => JStr (cell_text c)
  end.

(** ** The fitting function *)

(** The object the fitting function returns. [scale] is the number 1 when
    the size of the image is unknown and the string made by [toFixed(2)]
    otherwise. *)
Record display := {
  objectFit : string;
  objectPosition : string;
  scale : jsval;
  mode : string;
  displayWidth : Z;
  displayHeight : Z
}.

Module Extension_display.

(** [src/extension/newtab.js], calculateOptimalDisplay:
    "Simple cover strategy with basic scaling calculation". *)
Definition calculateOptimalDisplay
    (viewportWidth viewportHeight : Z) (imageWidth imageHeight : option Z) : M display :=
  match imageWidth, imageHeight with
  | Some iw, Some ih =>
      if missing imageWidth || missing imageHeight then
        ret {| objectFit := "cover"; objectPosition := "center"; scale := JNum 1;
               mode := "Cover";
               displayWidth := viewportWidth; displayHeight := viewportHeight |}
      else
        let scaleToFitWidth := num_div (inject_Z viewportWidth) (inject_Z iw) in
        let scaleToFitHeight := num_div (inject_Z viewportHeight) (inject_Z ih) in
        let scale := Qmax scaleToFitWidth scaleToFitHeight in
        ret {| objectFit := "cover"; objectPosition := "center";
               scale := JStr (toFixed 2 scale);
               mode := "Cover";
               displayWidth := viewportWidth; displayHeight := viewportHeight |}
  | _, _ =>
      ret {| objectFit := "cover"; objectPosition := "center"; scale := JNum 1;
             mode := "Cover";
             displayWidth := viewportWidth; displayHeight := viewportHeight |}
  end.

End Extension_display.

Module Website_display.

(** The [let] variables of the function, before the final rounding. *)
Record choice := {
  c_objectFit : string;
  c_objectPosition : string;
  c_mode : string;
  c_scale : Q;
  c_displayWidth : Q;
  c_displayHeight : Q
}.

(** The decision chain of calculateOptimalDisplay, for an image whose two
    sizes are known. The literals 0.9, 1.1, 1.5, 0.67 and 0.1 are the
    binary64 values nearest to them. *)
Definition decide_display (viewportWidth viewportHeight imageWidth imageHeight : Z) : choice :=
  let vw := inject_Z viewportWidth in
  let vh := inject_Z viewportHeight in
  let iw := inject_Z imageWidth in
  let ih := inject_Z imageHeight in
  let viewportAspect := num_div vw vh in
  let imageAspect := num_div iw ih in
  let aspectRatioDiff := Qabs (num_sub imageAspect viewportAspect) in
  let viewportIsWide := Qltb 1 viewportAspect in
  let imageIsWide := Qltb 1 imageAspect in
  let squareSize := inject_Z (Z.min viewportWidth viewportHeight) in
  let scaleToFitWidth := num_div vw iw in
  let scaleToFitHeight := num_div vh ih in
  let scaleToFill := Qmax scaleToFitWidth scaleToFitHeight in
  let scaleToContain := Qmin scaleToFitWidth scaleToFitHeight in
  if Qle_bool (double (9 # 10)) viewportAspect && Qle_bool viewportAspect (double (11 # 10)) then
    if Qltb (double (15 # 10)) imageAspect || Qltb imageAspect (double (67 # 100)) then
      {| c_objectFit := "cover"; c_objectPosition := "center";
         c_mode := "Square Crop"; c_scale := scaleToFill;
         c_displayWidth := squareSize; c_displayHeight := squareSize |}
    else
      {| c_objectFit := "cover"; c_objectPosition := "center";
         c_mode := "Cover (Square Viewport)"; c_scale := scaleToFill;
         c_displayWidth := vw; c_displayHeight := vh |}
  else if (viewportIsWide && negb imageIsWide) || (negb viewportIsWide && imageIsWide) then
    {| c_objectFit := "contain"; c_objectPosition := "center";
       c_mode := if viewportIsWide && negb imageIsWide
                 then "Contain (Portrait in Landscape)"
                 else "Contain (Landscape in Portrait)";
       c_scale := scaleToContain;
       c_displayWidth := num_mul iw scaleToContain;
       c_displayHeight := num_mul ih scaleToContain |}
  else if Qltb (double (15 # 10)) scaleToContain then
    {| c_objectFit := "contain"; c_objectPosition := "center";
       c_mode := "Contain (Upscale)"; c_scale := scaleToContain;
       c_displayWidth := num_mul iw scaleToContain;
       c_displayHeight := num_mul ih scaleToContain |}
  else if Qltb aspectRatioDiff (double (1 # 10)) then
    {| c_objectFit := "cover"; c_objectPosition := "center";
       c_mode := "Cover (Perfect Match)"; c_scale := scaleToFill;
       c_displayWidth := vw; c_displayHeight := vh |}
  else
    let cropPercent :=
      if Qltb viewportAspect imageAspect then
        let scaledHeight := num_div vw imageAspect in
        num_mul (num_div (num_sub vh scaledHeight) vh) 100
      else
        let scaledWidth := num_mul vh imageAspect in
        num_mul (num_div (num_sub vw scaledWidth) vw) 100 in
    if Qltb 25 cropPercent then
      {| c_objectFit := "contain"; c_objectPosition := "center";
         c_mode := "Contain (" +:+ toFixed 0 cropPercent +:+ "% crop avoided)";
         c_scale := scaleToContain;
         c_displayWidth := vw; c_displayHeight := vh |}
    else
      {| c_objectFit := "cover"; c_objectPosition := "center";
         c_mode := "Cover (" +:+ toFixed 0 cropPercent +:+ "% cropped)";
         c_scale := scaleToFill;
         c_displayWidth := vw; c_displayHeight := vh |}.

(** [src/pictures/static/pictures/newtab.js], calculateOptimalDisplay (the
    same text is in the earlier extension page). *)
Definition calculateOptimalDisplay
    (viewportWidth viewportHeight : Z) (imageWidth imageHeight : option Z) : M display :=
  match imageWidth, imageHeight with
  | Some iw, Some ih =>
      if missing imageWidth || missing imageHeight then
        ret {| objectFit := "cover"; objectPosition := "center"; scale := JNum 1;
               mode := "Default (no dimensions)";
               displayWidth := viewportWidth; displayHeight := viewportHeight |}
      else
        let c := decide_display viewportWidth viewportHeight iw ih in
        ret {| objectFit := c_objectFit c;
               objectPosition := c_objectPosition c;
               scale := JStr (toFixed 2 (c_scale c));
               mode := c_mode c;
               displayWidth := Math_round (c_displayWidth c);
               displayHeight := Math_round (c_displayHeight c) |}
  | _, _ =>
      ret {| objectFit := "cover"; objectPosition := "center"; scale := JNum 1;
             mode := "Default (no dimensions)";
             displayWidth := viewportWidth; displayHeight := viewportHeight |}
  end.

End Website_display.

(** ** Code that the variants share word for word *)

Module Common.

Definition CACHE_KEY : string := "picture_cache".
Definition CACHE_DATE_KEY : string := "picture_cache_date".
Definition SOURCE_KEY : string := "picture_source".
Definition DIMENSIONS_VISIBLE_KEY : string := "dimensions_overlay_visible".
Definition INFO_PANEL_VISIBLE_KEY : string := "info_panel_visible".
Definition RANDOM_ON_NEW_TAB_KEY : string := "random_on_new_tab".
Definition SOURCES_CACHE_KEY : string := "available_sources_cache".
Definition SOURCES_CACHE_DATE_KEY : string := "available_sources_cache_date".
Definition BING_PICTURE_KEY : string := "bing_picture_date".

(** [let AVAILABLE_SOURCES = \['apod', 'wikipedia', 'bing'\]] *)
Definition initial_AVAILABLE_SOURCES : list jsval :=
  [JStr "apod"; JStr "wikipedia"; JStr "bing"].

(** [window.location.hostname === 'localhost' || ... === '127.0.0.1'] *)
Definition isLocalhost (env : Env) : bool :=
  String.eqb (hostname env) "localhost" || String.eqb (hostname env) "127.0.0.1".

(** [sources.filter(s => s.enabled !== false)] *)
Definition enabled_only (sources : list obj) : list obj :=
  List.filter (λ s, negb (strict_eq (get s "enabled") (JBool false))) sources.

(** [enabledSources.map(s => s.value)] *)
Definition values (sources : list obj) : list jsval :=
  (λ s, get s "value") <$> sources.

(** [AVAILABLE_SOURCES.includes(v)] *)
Definition available (v : jsval) : M bool :=
  read (λ w, bool_decide (v ∈ AVAILABLE_SOURCES w)).

(** The [try] block around the cached catalog, in both places it occurs:
    parse, keep the enabled entries, publish their names. *)
Definition use_cached_sources (cachedSources : cell) : M (list obj) :=
  parsed <- JSON_parse cachedSources ;;
  sources <- as_array parsed ;;
  let enabledSources := enabled_only sources in
  update (with_AVAILABLE_SOURCES (values enabledSources)) ;;
  ret enabledSources.

(** The [catch (error)] block of loadAvailableSources: the cached catalog if
    there is a usable one, else nothing. *)
Definition cached_or_nothing : M (list obj) :=
  cachedSources <- getItem SOURCES_CACHE_KEY ;;
  let last_resort : M (list obj) :=
    update (with_AVAILABLE_SOURCES []) ;;
    ret [] in
  match cachedSources with
  | Some c =>
      if cell_truthy cachedSources
      then try_catch (use_cached_sources c) (λ e, last_resort)
      else last_resort
  | None => last_resort
  end.

(** loadAvailableSources from its second [try] on: what a call with
    [forceRefresh = true] runs. *)
Definition loadAvailableSources_refresh (env : Env) (PICTURES_API_URL : string) : M (list obj) :=
  let now := now env in
  try_catch
    (r <- fetch env (PICTURES_API_URL +:+ "/sources/") ;;
     (if ok r.1 then ret tt
      else throw ("HTTP error! status: " +:+ pretty r.1)) ;;
     parsed <- json r.2 ;;
     sources <- as_array parsed ;;
     let enabledSources := enabled_only sources in
     update (with_AVAILABLE_SOURCES (values enabledSources)) ;;
     setItem SOURCES_CACHE_KEY (JsonArr sources) ;;
     setItem SOURCES_CACHE_DATE_KEY (Text (pretty now)) ;;
     ret enabledSources)
    (λ error, cached_or_nothing).

(** loadAvailableSources. The one recursive call passes [true], and a call
    with [true] skips the first block, so it is the refresh above. *)
Definition loadAvailableSources (env : Env) (PICTURES_API_URL : string)
    (forceRefresh : bool) : M (list obj) :=
  let now := now env in
  let cacheTime := if isLocalhost env then 10 * 1000 else 30 * 1000 in
  let refresh := loadAvailableSources_refresh env PICTURES_API_URL in
  if negb forceRefresh then
    cachedDate <- getItem SOURCES_CACHE_DATE_KEY ;;
    cachedSources <- getItem SOURCES_CACHE_KEY ;;
    let fresh :=
      match parseInt (ToString (cell_value cachedDate)) with
      | Some t => (now - t <? cacheTime)%Z
      | None => false
      end in
    match cachedSources with
    | Some c =>
        if cell_truthy cachedDate && cell_truthy cachedSources && fresh then
          try_catch
            (enabledSources <- use_cached_sources c ;;
             storedSource <- getItem SOURCE_KEY ;;
             listed <- available (cell_value storedSource) ;;
             if cell_truthy storedSource && negb listed
             then refresh
             else ret enabledSources)
            (λ e, refresh)
        else refresh
    | None => refresh
    end
  else refresh.

Definition setSelectedSource (source : jsval) : M unit :=
  setItem SOURCE_KEY (Text (ToString source)).

Definition clearSelectedSource : M unit :=
  removeItem SOURCE_KEY.

(** sanitizeHtmlEntities *)
Definition sanitizeHtmlEntities (env : Env) (text : jsval) : jsval :=
  match text with
  | JStr s =>
      if truthy text then JStr (replace_nbsp (decodeEntities env s)) else text
  | _ => text
  end.

Definition isCacheValid (env : Env) (source : jsval) : M bool :=
  cachedDate <- getItem CACHE_DATE_KEY ;;
  cachedSource <- getItem SOURCE_KEY ;;
  let today := today env in
  ret (strict_eq (cell_value cachedDate) (JStr today)
       && strict_eq (cell_value cachedSource) source).

Definition cachePicture (env : Env) (data : obj) : M unit :=
  setItem CACHE_KEY (JsonObj data) ;;
  setItem CACHE_DATE_KEY (Text (today env)) ;;
  if truthy (get data "source") then setSelectedSource (get data "source")
  else ret tt.

(** getCachedPicture, as the extension and the website have it; [None] is
    [null]. *)
Definition getCachedPicture (env : Env) (source : jsval) : M (option obj) :=
  valid <- isCacheValid env source ;;
  if negb valid then ret None
  else
    cached <- getItem CACHE_KEY ;;
    match cached with
    | Some c =>
        if negb (cell_truthy cached) then ret None
        else
          parsed <- JSON_parse c ;;
          data <- as_object parsed ;;
          let de := get data "display_explanation" in
          display_explanation <-
            (if truthy de then
               match de with
               | JStr s => ret (if includes "<a " s then de else sanitizeHtmlEntities env de)
               | _ => throw TypeError
               end
             else ret JNull) ;;
          ret (Some
            (<["copyright" := sanitizeHtmlEntities env (get data "copyright")]>
             (<["simplified_explanation" := sanitizeHtmlEntities env (get data "simplified_explanation")]>
              (<["original_explanation" := sanitizeHtmlEntities env (get data "original_explanation")]>
               (<["processed_explanation" := get data "processed_explanation"]>
                (<["display_explanation" := display_explanation]>
                 (<["title" := sanitizeHtmlEntities env (get data "title")]> data)))))))
    | None => ret None
    end.

(** [stored === null ? true : stored === 'true'], for the stored
    random-on-new-tab flag *)
Definition random_enabled (stored : option cell) : bool :=
  if strict_eq (cell_value stored) JNull then true
  else strict_eq (cell_value stored) (JStr "true").

(** setInfoPanelVisible, as far as the store goes *)
Definition setInfoPanelVisible (visible : bool) : M unit :=
  setItem INFO_PANEL_VISIBLE_KEY (Text (ToString (JBool visible))).

(** showError *)
Definition showError (message : string) : M unit :=
  update (with_errors (λ l, (l ++ [message])%list)) ;;
  setInfoPanelVisible true.

(** The statements every fetchPicture runs against the backend, from
    [const response = await fetch(url)] to the [return] or [throw] of the
    title test; [normalizePictureData] is the variant's own. *)
Definition request_backend (env : Env) (normalizePictureData : obj → jsval → obj)
    (url : string) (selectedSource : jsval) : M obj :=
  r <- fetch env url ;;
  (if ok r.1 then ret tt
   else throw ("HTTP error! status: " +:+ pretty r.1)) ;;
  parsed <- json r.2 ;;
  data <- as_object parsed ;;
  if truthy (get data "error") then throw (ToString (get data "error"))
  else if truthy (get data "title") then ret (normalizePictureData data selectedSource)
  else throw "Invalid data from backend".

(** The URL every fetchPicture builds for [selectedSource]. *)
Definition picture_url (PICTURES_API_URL : string) (selectedSource : jsval) : M string :=
  if strict_eq selectedSource (JStr "bing") then
    stored <- getItem BING_PICTURE_KEY ;;
    picker <- read bingPictureSelect ;;
    let selectedDate :=
      if negb (cell_truthy stored) then
        match picker with
        | Some sel =>
            if negb (String.eqb (value_of sel) "") then JStr (value_of sel)
            else cell_value stored
        | None => cell_value stored
        end
      else cell_value stored in
    if truthy selectedDate
    then ret (PICTURES_API_URL +:+ "/date/" +:+ ToString selectedDate +:+ "/bing/")
    else ret (PICTURES_API_URL +:+ "/today/" +:+ ToString selectedSource +:+ "/")
  else ret (PICTURES_API_URL +:+ "/today/" +:+ ToString selectedSource +:+ "/").

Definition NASA_API_KEY : string := "HDin5BLUkoDRqGGDaJVQpOuF6NR26GXGlWV3jKkE".
Definition APOD_API_URL : string := "https://api.nasa.gov/planetary/apod".

(** The object fetchPicture builds from the provider's answer. Its last
    property calls [data.date.replace], which throws unless [date] is a
    string. *)
Definition from_provider (data : obj) : M obj :=
  match get data "date" with
  | JStr date =>
      ret (literal
        [("title", get data "title");
         ("date", get data "date");
         ("display_explanation", get data "explanation");
         ("original_explanation", get data "explanation");
         ("media_type", get data "media_type");
         ("image_url", get data "url");
         ("hd_image_url", get data "hdurl");
         ("display_image_url", or (get data "hdurl") (get data "url"));
         ("copyright", get data "copyright");
         ("source_url", JStr ("https://apod.nasa.gov/apod/ap"
                              +:+ substring_from_2 (remove_dashes date) +:+ ".html"))])
  | _ => throw TypeError
  end.

(** The [catch (error)] block of the fetchPicture that has a fallback. *)
Definition provider_fallback (env : Env) (normalizePictureData : obj → jsval → obj)
    (selectedSource : jsval) (error : string) : M obj :=
  if strict_eq selectedSource (JStr "apod") then
    try_catch
      (r <- fetch env (APOD_API_URL +:+ "?api_key=" +:+ NASA_API_KEY) ;;
       (if ok r.1 then ret tt
        else throw ("HTTP error! status: " +:+ pretty r.1)) ;;
       parsed <- json r.2 ;;
       data <- as_object parsed ;;
       built <- from_provider data ;;
       ret (normalizePictureData built (JStr "apod")))
      (λ nasaError, throw nasaError)
  else throw error.

(** [AVAILABLE_SOURCES\[0\]] *)
Definition first_available : M jsval :=
  read (λ w, default JUndefined (head (AVAILABLE_SOURCES w))).

(** getSelectedSource of the extension (both texts) *)
Definition getSelectedSource_validated : M jsval :=
  stored <- getItem SOURCE_KEY ;;
  if negb (cell_truthy stored) then ret JNull
  else
    sources <- read AVAILABLE_SOURCES ;;
    if bool_decide (sources ≠ []) && negb (bool_decide (cell_value stored ∈ sources)) then
      removeItem SOURCE_KEY ;;
      (if strict_eq (cell_value stored) (JStr "bing") then removeItem BING_PICTURE_KEY
       else ret tt) ;;
      ret JNull
    else ret (cell_value stored).

(** The head of the extension's fetchPicture (both texts): resolve the
    source and make sure it is enabled. *)
Definition resolve_source (source : jsval) : M jsval :=
  selectedSource <- (if truthy source then ret source else getSelectedSource_validated) ;;
  listed <- available selectedSource ;;
  selectedSource <-
    (if truthy selectedSource && negb listed then
       sources <- read AVAILABLE_SOURCES ;;
       if bool_decide (sources ≠ []) then
         first <- first_available ;;
         setSelectedSource first ;;
         update (with_sourceSelect (set_value (ToString first))) ;;
         ret first
       else throw "No picture sources are currently enabled. Please enable sources in the admin panel."
     else ret selectedSource) ;;
  if negb (truthy selectedSource) then
    sources <- read AVAILABLE_SOURCES ;;
    if bool_decide (sources = []) then
      throw "No picture sources are currently enabled. Please enable sources in the admin panel."
    else first_available
  else ret selectedSource.

(** One draw of [AVAILABLE_SOURCES\[Math.floor(Math.random() * length)\]].
    The index is the floor of the exact product; what is proved of a draw
    uses only that the index is below the length. *)
Definition random_available : M jsval :=
  sources <- read AVAILABLE_SOURCES ;;
  r <- Math_random ;;
  let randomIndex := Math_floor (r * inject_Z (Z.of_nat (length sources))) in
  ret (if (0 <=? randomIndex)%Z
       then default JUndefined (sources !! Z.to_nat randomIndex)
       else JUndefined).

(** getDimensionsOverlayVisible: "Default to hidden" *)
Definition getDimensionsOverlayVisible : M bool :=
  stored <- getItem DIMENSIONS_VISIBLE_KEY ;;
  ret (if strict_eq (cell_value stored) JNull then false
       else strict_eq (cell_value stored) (JStr "true")).

(** setDimensionsOverlayVisible, as far as the store goes *)
Definition setDimensionsOverlayVisible (visible : bool) : M unit :=
  setItem DIMENSIONS_VISIBLE_KEY (Text (ToString (JBool visible))).

(** getInfoPanelVisible: "Default to visible" *)
Definition getInfoPanelVisible : M bool :=
  stored <- getItem INFO_PANEL_VISIBLE_KEY ;;
  ret (if strict_eq (cell_value stored) JNull then true
       else strict_eq (cell_value stored) (JStr "true")).

(** What the script does to the store when it is loaded, before init: the
    end of initSettings and the [if (infoPanel)] block write each visibility
    back as it was read. *)
Definition initSettings : M unit :=
  isVisible <- getDimensionsOverlayVisible ;;
  setDimensionsOverlayVisible isVisible.

Definition initInfoPanel : M unit :=
  isVisible <- getInfoPanelVisible ;;
  setInfoPanelVisible isVisible.

End Common.


(** ** The extension page, [src/extension/newtab.js] *)

Module Extension.
Import Common.

Definition PICTURES_API_URL (env : Env) : string :=
  CONFIG_BACKEND_API_URL env +:+ "/pictures".

Definition loadAvailableSources (env : Env) (forceRefresh : bool) : M (list obj) :=
  Common.loadAvailableSources env (PICTURES_API_URL env) forceRefresh.

Definition updateSourceSelector (env : Env) (forceRefresh : bool) : M unit :=
  sources <- loadAvailableSources env forceRefresh ;;
  currentValue <- read (λ w, value_of (sourceSelect w)) ;;
  update (with_sourceSelect (λ _, no_options)) ;;
  match sources with
  | [] => update (with_sourceSelect (λ _, placeholder_option))
  | _ =>
      update (with_sourceSelect (λ sel,
        foldl (λ sel source,
                 if negb (strict_eq (get source "enabled") (JBool false))
                 then appendChild (ToString (get source "value")) sel
                 else sel)
              sel sources)) ;;
      listed <- available (JStr currentValue) ;;
      enabled <- read AVAILABLE_SOURCES ;;
      if negb (String.eqb currentValue "") && listed then
        update (with_sourceSelect (set_value currentValue))
      else if bool_decide (enabled ≠ []) then
        first <- first_available ;;
        update (with_sourceSelect (set_value (ToString first))) ;;
        if negb (String.eqb currentValue "") && negb listed then
          removeItem SOURCE_KEY ;;
          if String.eqb currentValue "bing" then removeItem BING_PICTURE_KEY
          else ret tt
        else ret tt
      else ret tt
  end.

Definition getSelectedSource : M jsval := getSelectedSource_validated.

Definition getRandomSource : M jsval :=
  sources <- read AVAILABLE_SOURCES ;;
  match sources with
  | [] => ret JNull
  | _ => random_available
  end.

Definition loadBingPictures (env : Env) (pickRandom : bool) : M unit :=
  picker <- read bingPictureSelect ;;
  match picker with
  | None => ret tt
  | Some _ =>
      try_catch
        (r <- fetch env (PICTURES_API_URL env +:+ "/list/bing/") ;;
         (if ok r.1 then ret tt
          else throw ("HTTP error! status: " +:+ pretty r.1)) ;;
         parsed <- json r.2 ;;
         update (with_bingPictureSelect (λ _, placeholder_option)) ;;
         pictures <- as_array parsed ;;
         update (with_bingPictureSelect (λ sel,
           foldl (λ sel picture, appendChild (ToString (get picture "date")) sel)
                 sel pictures)) ;;
         storedDate <- getItem BING_PICTURE_KEY ;;
         if pickRandom && bool_decide (pictures ≠ []) then
           r <- Math_random ;;
           let randomIndex := Math_floor (r * inject_Z (Z.of_nat (length pictures))) in
           match (if (0 <=? randomIndex)%Z then pictures !! Z.to_nat randomIndex else None) with
           | Some picture =>
               update (with_bingPictureSelect (set_value (ToString (get picture "date"))))
           | None => throw TypeError
           end
         else if cell_truthy storedDate then
           update (with_bingPictureSelect (set_value (ToString (cell_value storedDate))))
         else
           match pictures with
           | first :: _ =>
               update (with_bingPictureSelect (set_value (ToString (get first "date")))) ;;
               setItem BING_PICTURE_KEY (Text (ToString (get first "date")))
           | [] => ret tt
           end)
        (λ error, update (with_bingPictureSelect (λ _, placeholder_option)))
  end.

(** "Backend provides standardized fields - trust them" *)
Definition normalizePictureData (data : obj) (source : jsval) : obj :=
  literal
    [("source", source);
     ("title", get data "title");
     ("date", get data "date");
     ("processed_explanation", get data "processed_explanation");
     ("display_explanation", get data "display_explanation");
     ("original_explanation", get data "original_explanation");
     ("simplified_explanation", get data "simplified_explanation");
     ("is_processed", or (get data "is_processed") (JBool false));
     ("media_type", or (get data "media_type") (JStr "image"));
     ("image_url", get data "image_url");
     ("hd_image_url", get data "hd_image_url");
     ("display_image_url", get data "display_image_url");
     ("thumbnail_url", get data "thumbnail_url");
     ("copyright", get data "copyright");
     ("source_url", get data "source_url");
     ("image_width", get data "image_width");
     ("image_height", get data "image_height");
     ("image_size_mb", get data "image_size_mb");
     ("image_resolution", get data "image_resolution")].

Definition fetchPicture (env : Env) (source : jsval) : M obj :=
  selectedSource <- resolve_source source ;;
  url <- picture_url (PICTURES_API_URL env) selectedSource ;;
  request_backend env normalizePictureData url selectedSource.

(** displayPicture: its reads of [data] and the exceptions they can raise.
    The image itself loads later, in [img.onload]. *)
Definition displayPicture (data : obj) : M unit :=
  let de := get data "display_explanation" in
  (if truthy (get data "processed_explanation") then ret tt
   else if truthy de then
     match de with
     | JStr _ => ret tt
     | _ => throw TypeError
     end
   else ret tt) ;;
  (if strict_eq (get data "source") (JStr "apod")
      && negb (truthy (get data "source_url"))
      && truthy (get data "date") then
     match get data "date" with
     | JStr _ => ret tt
     | _ => throw TypeError
     end
   else ret tt) ;;
  let mediaType := or (get data "media_type") (JStr "image") in
  if strict_eq mediaType (JStr "image") then
    if negb (truthy (get data "display_image_url"))
    then throw "No image URL available"
    else ret tt
  else ret tt.

(** The [if (randomEnabled) ... else ...] of init. [None]: init has shown an
    error and returns. *)
Definition select_source (randomEnabled : bool) : M (option jsval) :=
  if randomEnabled then
    source <- getRandomSource ;;
    if negb (truthy source) then
      showError "No picture sources are currently enabled." ;;
      ret None
    else
      update (with_sourceSelect (set_value (ToString source))) ;;
      ret (Some source)
  else
    source <- getSelectedSource ;;
    if negb (truthy source) then
      source <- getRandomSource ;;
      if negb (truthy source) then
        showError "No picture sources are currently enabled." ;;
        ret None
      else
        update (with_sourceSelect (set_value (ToString source))) ;;
        setSelectedSource source ;;
        ret (Some source)
    else
      listed <- available source ;;
      source <- (if negb listed then
                   first <- first_available ;;
                   setSelectedSource first ;;
                   ret first
                 else ret source) ;;
      update (with_sourceSelect (set_value (ToString source))) ;;
      ret (Some source).

(** The rest of init once the source is chosen: the Bing picker, the cache,
    the fetch and the display. *)
Definition load_picture (env : Env) (randomEnabled : bool) (source : jsval) : M unit :=
  picker <- read bingPictureSelect ;;
  (match picker with
   | Some _ =>
       if strict_eq source (JStr "bing")
       then loadBingPictures env randomEnabled
       else ret tt
   | None => ret tt
   end) ;;
  cached <- getCachedPicture env source ;;
  pictureData <-
    (match cached with
     | Some data => ret data
     | None =>
         data <- fetchPicture env source ;;
         cachePicture env data ;;
         ret data
     end) ;;
  displayPicture pictureData.

(** The statements inside the [try] of init. *)
Definition init_try (env : Env) : M unit :=
  updateSourceSelector env (isLocalhost env) ;;
  enabled <- read AVAILABLE_SOURCES ;;
  match enabled with
  | [] =>
      showError "No picture sources are currently enabled. Please enable sources in the admin panel."
  | _ =>
      stored <- getItem RANDOM_ON_NEW_TAB_KEY ;;
      let randomEnabled := random_enabled stored in
      chosen <- select_source randomEnabled ;;
      match chosen with
      | None => ret tt
      | Some source => load_picture env randomEnabled source
      end
  end.

Definition init (env : Env) : M unit :=
  try_catch
    (init_try env)
    (λ error,
     let errorMessage :=
       if String.eqb error "" then
         "Failed to load Picture of the Day. Please check your internet connection and try again."
       else error in
     showError errorMessage).

(** The [change] handler of the random-on-new-tab checkbox. *)
Definition toggleRandom_change (env : Env) (checked : bool) : M unit :=
  let randomEnabled := checked in
  setItem RANDOM_ON_NEW_TAB_KEY (Text (ToString (JBool randomEnabled))) ;;
  (if randomEnabled then
     clearSelectedSource ;;
     removeItem BING_PICTURE_KEY
   else ret tt) ;;
  init env.

(** The [change] handler of the source drop-down; [e.target] is the
    drop-down itself. *)
Definition sourceSelect_change (env : Env) : M unit :=
  stored <- getItem RANDOM_ON_NEW_TAB_KEY ;;
  let randomEnabled := strict_eq (cell_value stored) (JStr "true") in
  if randomEnabled then
    randomSource <- getRandomSource ;;
    if truthy randomSource
    then update (with_sourceSelect (set_value (ToString randomSource)))
    else ret tt
  else
    newSource <- read (λ w, value_of (sourceSelect w)) ;;
    listed <- available (JStr newSource) ;;
    if negb listed then
      updateSourceSelector env true ;;
      enabled <- read AVAILABLE_SOURCES ;;
      if bool_decide (enabled ≠ []) then
        first <- first_available ;;
        update (with_sourceSelect (set_value (ToString first))) ;;
        setSelectedSource first
      else showError "No picture sources are currently enabled."
    else
      setSelectedSource (JStr newSource) ;;
      picker <- read bingPictureSelect ;;
      (match picker with
       | Some _ =>
           if String.eqb newSource "bing" then loadBingPictures env false
           else update (with_bingPictureSelect (set_value ""))
       | None => ret tt
       end) ;;
      removeItem CACHE_KEY ;;
      removeItem CACHE_DATE_KEY ;;
      init env.

(** The [change] handler of the Bing date picker, which is installed only
    when the picker is on the page. *)
Definition bingPictureSelect_change (env : Env) : M unit :=
  picker <- read bingPictureSelect ;;
  match picker with
  | Some sel =>
      let selectedDate := value_of sel in
      if negb (String.eqb selectedDate "") then
        setItem BING_PICTURE_KEY (Text selectedDate) ;;
        removeItem CACHE_KEY ;;
        removeItem CACHE_DATE_KEY ;;
        init env
      else ret tt
  | None => ret tt
  end.

End Extension.

(** ** The website page, [src/pictures/static/pictures/newtab.js] *)

Module Website.
Import Common.

Definition BACKEND_API_URL (env : Env) : string := origin env +:+ "/api".

Definition PICTURES_API_URL (env : Env) : string :=
  BACKEND_API_URL env +:+ "/pictures".

Definition DEFAULT_SOURCE : string := "apod".

Definition loadAvailableSources (env : Env) (forceRefresh : bool) : M (list obj) :=
  Common.loadAvailableSources env (PICTURES_API_URL env) forceRefresh.

Definition getSelectedSource : M jsval :=
  stored <- getItem SOURCE_KEY ;;
  ret (cell_value stored).

Definition getRandomSource : M jsval :=
  sources <- read AVAILABLE_SOURCES ;;
  match sources with
  | [] => ret (JStr DEFAULT_SOURCE)
  | _ => random_available
  end.

(** "Don't sanitize processed_explanation - it contains HTML links that must
    be preserved. Only sanitize plain text fields" *)
Definition normalizePictureData (env : Env) (data : obj) (source : jsval) : obj :=
  literal
    [("source", source);
     ("title", sanitizeHtmlEntities env (get data "title"));
     ("date", get data "date");
     ("processed_explanation", get data "processed_explanation");
     ("display_explanation",
        or (get data "display_explanation")
           (or (get data "processed_explanation")
               (sanitizeHtmlEntities env
                  (or (get data "original_explanation") (get data "explanation")))));
     ("original_explanation",
        sanitizeHtmlEntities env
          (or (get data "original_explanation") (get data "explanation")));
     ("simplified_explanation", sanitizeHtmlEntities env (get data "simplified_explanation"));
     ("is_processed", or (get data "is_processed") (JBool false));
     ("media_type", or (get data "media_type") (JStr "image"));
     ("image_url", or (get data "image_url") (get data "url"));
     ("hd_image_url", or (get data "hd_image_url") (get data "hdurl"));
     ("display_image_url",
        or (get data "display_image_url")
           (or (get data "hd_image_url")
               (or (get data "hdurl")
                   (or (get data "image_url") (get data "url")))));
     ("thumbnail_url", get data "thumbnail_url");
     ("copyright", sanitizeHtmlEntities env (get data "copyright"));
     ("source_url", or (get data "source_url") (get data "nasa_url"));
     ("image_width", get data "image_width");
     ("image_height", get data "image_height");
     ("image_size_mb", get data "image_size_mb");
     ("image_resolution", get data "image_resolution")].

Definition fetchPicture (env : Env) (source : jsval) : M obj :=
  selectedSource <- (if truthy source then ret source else getSelectedSource) ;;
  url <- picture_url (PICTURES_API_URL env) selectedSource ;;
  try_catch
    (request_backend env (normalizePictureData env) url selectedSource)
    (provider_fallback env (normalizePictureData env) selectedSource).

End Website.

(** ** The earlier extension page (the commented text with the fallback) *)

Module Legacy.
Import Common.

Definition PICTURES_API_URL (env : Env) : string :=
  CONFIG_BACKEND_API_URL env +:+ "/pictures".

Definition normalizePictureData (data : obj) (source : jsval) : obj :=
  literal
    [("source", source);
     ("title", get data "title");
     ("date", get data "date");
     ("processed_explanation", get data "processed_explanation");
     ("display_explanation",
        or (get data "display_explanation")
           (or (get data "processed_explanation")
               (or (get data "original_explanation") (get data "explanation"))));
     ("original_explanation",
        or (get data "original_explanation") (get data "explanation"));
     ("simplified_explanation", get data "simplified_explanation");
     ("is_processed", or (get data "is_processed") (JBool false));
     ("media_type", or (get data "media_type") (JStr "image"));
     ("image_url", or (get data "image_url") (get data "url"));
     ("hd_image_url", or (get data "hd_image_url") (get data "hdurl"));
     ("display_image_url",
        or (get data "display_image_url")
           (or (get data "hd_image_url")
               (or (get data "hdurl")
                   (or (get data "image_url") (get data "url")))));
     ("thumbnail_url", get data "thumbnail_url");
     ("copyright", get data "copyright");
     ("source_url", or (get data "source_url") (get data "nasa_url"));
     ("image_width", get data "image_width");
     ("image_height", get data "image_height");
     ("image_size_mb", get data "image_size_mb");
     ("image_resolution", get data "image_resolution")].

Definition fetchPicture (env : Env) (source : jsval) : M obj :=
  selectedSource <- resolve_source source ;;
  url <- picture_url (PICTURES_API_URL env) selectedSource ;;
  try_catch
    (request_backend env normalizePictureData url selectedSource)
    (provider_fallback env normalizePictureData selectedSource).

End Legacy.

(** ** What a piece of code leaves alone *)

(** [m] never changes the part [f] of the page state, whether it returns or
    throws. *)
Definition same {A B} (f : World → B) (m : M A) : Prop :=
  ∀ w, f (m w).2 = f w.

(** [m] may show errors but never takes one back. *)
Definition grows {A} (m : M A) : Prop :=
  ∀ w, (length (errors w) ≤ length (errors (m w).2))%nat.

(** The stored selected source. *)
Definition selected_source (w : World) : option cell :=
  localStorage w !! Common.SOURCE_KEY.

(** The stored random-on-new-tab flag. *)
Definition random_flag (w : World) : option cell :=
  localStorage w !! Common.RANDOM_ON_NEW_TAB_KEY.

(** [m] relates the page state it starts in to the one it leaves. *)
Definition stable {A} (R : World → World → Prop) (m : M A) : Prop :=
  ∀ w, R w (m w).2.

(** [m] keeps the property [P] of the page state, whether it returns or
    throws. *)
Definition preserves {A} (P : World → Prop) (m : M A) : Prop :=
  ∀ w, P w → P (m w).2.

(** The pinned Bing date. *)
Definition bing_date (w : World) : option cell :=
  localStorage w !! Common.BING_PICTURE_KEY.

(** The stored visibility of the info panel. *)
Definition info_panel (w : World) : option cell :=
  localStorage w !! Common.INFO_PANEL_VISIBLE_KEY.

(** The message fetchPicture throws when nothing is enabled. *)
Definition no_sources_message : string :=
  "No picture sources are currently enabled. Please enable sources in the admin panel.".

(** The page has settled on the source [s]: it is the stored selection, the
    drop-down is [sel], and the working set is [enabled]. *)
Definition settled_on (s : string) (sel : select) (enabled : list jsval) (w : World) : Prop :=
  selected_source w = Some (Text s) ∧ sourceSelect w = sel ∧ AVAILABLE_SOURCES w = enabled.

(** ** Vocabulary of the statements *)

Import Common.

(** A size in pixels: a whole number from 1 to 2^48. That is far beyond any
    screen or image, and small enough for the rounding of a quotient of two
    sizes never to carry it across a threshold of the fitting function. *)
Definition pixels (n : Z) : Prop := (0 < n ≤ 2 ^ 48)%Z.

(** C2, as the specification states it: the result is [contain] and the
    displayed size is the image size times min(vw/iw, vh/ih). *)
Definition letterboxed_exactly (r : display) (vw vh iw ih : Z) : Prop :=
  let s := Qmin (inject_Z vw / inject_Z iw) (inject_Z vh / inject_Z ih) in
  objectFit r = "contain" ∧
  (inject_Z (displayWidth r) == inject_Z iw * s)%Q ∧
  (inject_Z (displayHeight r) == inject_Z ih * s)%Q.

(** The catalog request does not deliver a catalog: the network fails, the
    status is not a success, or the body is not an array. *)
Definition fetch_fails (r : response) : Prop :=
  match r with
  | NetworkFailure _ => True
  | Response status b => ok status = false ∨ ∀ l, b ≠ BodyArr l
  end.

(** The page state after a successful refresh. *)
Definition refreshed (env : Env) (url : string) (catalog : list obj) (w : World) : World :=
  with_localStorage
    (λ ls, <[SOURCES_CACHE_DATE_KEY := Text (pretty (now env))]>
             (<[SOURCES_CACHE_KEY := JsonArr catalog]> ls))
    (with_AVAILABLE_SOURCES (values (enabled_only catalog))
       (with_requests (λ l, (l ++ [url])%list) w)).


(** The exception the backend statements end in, if any. *)
Definition backend_error (r : response) : option string :=
  match r with
  | NetworkFailure message => Some message
  | Response status b =>
      if ok status then
        match b with
        | BodyInvalid => Some SyntaxError
        | BodyNull => Some TypeError
        | BodyObj o =>
            if truthy (get o "error") then Some (ToString (get o "error"))
            else if truthy (get o "title") then None
            else Some "Invalid data from backend"
        | BodyArr _ => Some "Invalid data from backend"
        end
      else Some ("HTTP error! status: " +:+ pretty status)
  end.

(** The exception the direct request to the provider ends in, if any. *)
Definition provider_error (r : response) : option string :=
  match r with
  | NetworkFailure message => Some message
  | Response status b =>
      if ok status then
        match b with
        | BodyInvalid => Some SyntaxError
        | BodyNull => Some TypeError
        | BodyObj o =>
            match get o "date" with
            | JStr _ => None
            | _ => Some TypeError
            end
        | BodyArr _ => Some TypeError
        end
      else Some ("HTTP error! status: " +:+ pretty status)
  end.

Definition requested (url : string) (w : World) : World :=
  with_requests (λ l, (l ++ [url])%list) w.

Definition provider_url : string := APOD_API_URL +:+ "?api_key=" +:+ NASA_API_KEY.


(** ** Worlds and environments used in the examples *)

Module Examples.
Import Common.

(** A text that holds no character reference comes back from the textarea
    as it went in; the examples hold no other text. *)
Definition plain_text (s : string) : string := s.

Definition sources_url : string := "https://picture.example/api/pictures/sources/".
Definition today_apod_url : string := "https://picture.example/api/pictures/today/apod/".
Definition today_wikipedia_url : string := "https://picture.example/api/pictures/today/wikipedia/".
Definition apod_entry : obj :=
  literal [("value", JStr "apod"); ("label", JStr "NASA APOD"); ("enabled", JBool true)].
Definition wikipedia_entry : obj :=
  literal [("value", JStr "wikipedia"); ("label", JStr "Wikipedia POD"); ("enabled", JBool true)].
Definition bing_disabled : obj :=
  literal [("value", JStr "bing"); ("label", JStr "Bing POD"); ("enabled", JBool false)].

Definition apod_picture : obj :=
  literal [("title", JStr "T"); ("date", JStr "2024-01-15");
           ("display_explanation", JStr "E");
           ("display_image_url", JStr "https://x/img.jpg")].

Definition env_with (net : string → response) : Env :=
  {| today := "Mon Jan 15 2024"; now := 1705312800000;
     hostname := "picture.example"; origin := "https://picture.example";
     CONFIG_BACKEND_API_URL := "https://picture.example/api";
     network := net; decodeEntities := plain_text |}.

(** The page as it is when the script starts, with an empty store. *)
Definition fresh (draws : list Q) : World :=
  {| localStorage := ∅; AVAILABLE_SOURCES := initial_AVAILABLE_SOURCES;
     sourceSelect := placeholder_option; bingPictureSelect := Some no_options;
     requests := []; random := draws; errors := [] |}.

Definition with_store (ls : gmap string cell) (w : World) : World :=
  with_localStorage (λ _, ls) w.

End Examples.

(** * Properties *)

(** ** Tactics for running the monad *)

(** Running a sequence that returns. *)
Lemma bind_Ok {A C} (m : M A) (k : A → M C) (w w' : World) (c : C) :
  bind m k w = (Ok c, w') → ∃ a w1, m w = (Ok a, w1) ∧ k a w1 = (Ok c, w').
Proof.
  unfold bind. destruct (m w) as [[a|e] w1]; [|done]. intros H. by exists a, w1.
Qed.

Lemma strict_eq_true a b : strict_eq a b = true ↔ a = b.
Proof. unfold strict_eq. apply bool_decide_eq_true. Qed.

Lemma strict_eq_false a b : strict_eq a b = false ↔ a ≠ b.
Proof. unfold strict_eq. apply bool_decide_eq_false. Qed.

(** ** The daily cache *)

(** C1. isCacheValid(source) returns true exactly when the stored cache
    date is today's date string and the stored source is [source]; it never
    throws and writes nothing. *)
Theorem isCacheValid_iff (env : Env) (w : World) (source : jsval) :
  ∃ b, isCacheValid env source w = (Ok b, w) ∧
       (b = true ↔
        cell_text <$> localStorage w !! CACHE_DATE_KEY = Some (today env) ∧
        cell_value (localStorage w !! SOURCE_KEY) = source).
Proof.
  eexists. split; [reflexivity|].
  rewrite andb_true_iff, !strict_eq_true.
  destruct (localStorage w !! CACHE_DATE_KEY) as [c|]; simpl.
  - split; intros [H1 H2]; split; try done; congruence.
  - split; intros [H1 H2]; discriminate.
Qed.

(** The two cases the specification singles out: a cache stamped with
    another day is invalid although the source matches, and a cache of the
    day is invalid for a source other than the stored one. *)
Lemma isCacheValid_other_day (env : Env) (w : World) (yesterday X : string) :
  yesterday ≠ today env →
  localStorage w !! CACHE_DATE_KEY = Some (Text yesterday) →
  localStorage w !! SOURCE_KEY = Some (Text X) →
  isCacheValid env (JStr X) w = (Ok false, w).
Proof.
  intros Hne Hd Hs. unfold isCacheValid, getItem, read, bind, ret. simpl.
  rewrite Hd, Hs. simpl.
  replace (strict_eq (JStr yesterday) (JStr (today env))) with false; [done|].
  symmetry. apply strict_eq_false. congruence.
Qed.

Lemma isCacheValid_other_source (env : Env) (w : World) (A : string) (B : jsval) :
  B ≠ JStr A →
  localStorage w !! CACHE_DATE_KEY = Some (Text (today env)) →
  localStorage w !! SOURCE_KEY = Some (Text A) →
  isCacheValid env B w = (Ok false, w).
Proof.
  intros Hne Hd Hs. unfold isCacheValid, getItem, read, bind, ret. simpl.
  rewrite Hd, Hs. simpl.
  replace (strict_eq (JStr A) B) with false; [by rewrite andb_false_r|].
  symmetry. apply strict_eq_false. congruence.
Qed.

(** C9. The source the cache is checked against is the selected-source
    cell: cachePicture writes [picture_source], isCacheValid reads it, and
    setSelectedSource overwrites it. After caching A's record, selecting B
    on the same day makes the cache valid for B and invalid for A, with A's
    record still stored. *)
Theorem cache_source_is_selected_source (env : Env) (w : World) (data : obj) (A B : string) :
  get data "source" = JStr A →
  A ≠ "" →
  A ≠ B →
  let w1 := (cachePicture env data w).2 in
  let w2 := (setSelectedSource (JStr B) w1).2 in
  localStorage w1 !! SOURCE_KEY = Some (Text A) ∧
  isCacheValid env (JStr A) w1 = (Ok true, w1) ∧
  localStorage w2 !! SOURCE_KEY = Some (Text B) ∧
  isCacheValid env (JStr B) w2 = (Ok true, w2) ∧
  isCacheValid env (JStr A) w2 = (Ok false, w2) ∧
  localStorage w2 !! CACHE_KEY = Some (JsonObj data).
Proof.
  intros Hsrc HA HAB w1 w2.
  assert (Ht : truthy (JStr A) = true).
  { simpl. destruct (String.eqb_spec A ""); done. }
  assert (Hw1 : localStorage w1 =
                <[SOURCE_KEY := Text A]>
                  (<[CACHE_DATE_KEY := Text (today env)]>
                     (<[CACHE_KEY := JsonObj data]> (localStorage w)))).
  { subst w1. unfold cachePicture. rewrite Hsrc, Ht. reflexivity. }
  assert (Hw2 : localStorage w2 = <[SOURCE_KEY := Text B]> (localStorage w1)).
  { reflexivity. }
  assert (Hv : ∀ (X Y : string) (v : World),
             localStorage v !! CACHE_DATE_KEY = Some (Text (today env)) →
             localStorage v !! SOURCE_KEY = Some (Text X) →
             isCacheValid env (JStr Y) v = (Ok (bool_decide (X = Y)), v)).
  { intros X Y v Hd Hs. unfold isCacheValid, getItem, read, bind, ret. simpl.
    rewrite Hd, Hs. simpl. f_equal. f_equal.
    unfold strict_eq. rewrite bool_decide_true by done. simpl.
    apply bool_decide_ext. split; congruence. }
  assert (Hd1 : localStorage w1 !! CACHE_DATE_KEY = Some (Text (today env))).
  { rewrite Hw1. by simplify_map_eq. }
  assert (Hd2 : localStorage w2 !! CACHE_DATE_KEY = Some (Text (today env))).
  { rewrite Hw2. by simplify_map_eq. }
  assert (Hs1 : localStorage w1 !! SOURCE_KEY = Some (Text A)).
  { rewrite Hw1. by simplify_map_eq. }
  assert (Hs2 : localStorage w2 !! SOURCE_KEY = Some (Text B)).
  { rewrite Hw2. by simplify_map_eq. }
  repeat split.
  - done.
  - rewrite (Hv A A w1 Hd1 Hs1). by rewrite bool_decide_true.
  - done.
  - rewrite (Hv B B w2 Hd2 Hs2). by rewrite bool_decide_true.
  - rewrite (Hv B A w2 Hd2 Hs2). by rewrite bool_decide_false.
  - rewrite Hw2, Hw1. by simplify_map_eq.
Qed.

Lemma cache_source_is_selected_source_witness :
  let env := Examples.env_with (λ _, NetworkFailure "offline") in
  let data := Extension.normalizePictureData Examples.apod_picture (JStr "apod") in
  let w2 := (setSelectedSource (JStr "wikipedia")
               (cachePicture env data (Examples.fresh [])).2).2 in
  isCacheValid env (JStr "wikipedia") w2 = (Ok true, w2) ∧
  isCacheValid env (JStr "apod") w2 = (Ok false, w2) ∧
  localStorage w2 !! CACHE_KEY = Some (JsonObj data).
Proof.
  intros env data w2.
  destruct (cache_source_is_selected_source env (Examples.fresh []) data "apod" "wikipedia")
    as (_ & _ & _ & H1 & H2 & H3); [reflexivity | discriminate | discriminate |].
  exact (conj H1 (conj H2 H3)).
Defined.

(** ** Random choice of a source *)

(** C10. With no enabled source, getRandomSource of the website page
    returns the default source 'apod', which is not in the (empty) enabled
    set; getRandomSource of the extension returns null. Neither draws a
    random number or writes anything. *)
Theorem getRandomSource_without_sources (w : World) :
  AVAILABLE_SOURCES w = [] →
  Website.getRandomSource w = (Ok (JStr "apod"), w) ∧
  (JStr "apod" ∉ AVAILABLE_SOURCES w) ∧
  Extension.getRandomSource w = (Ok JNull, w).
Proof.
  intros H.
  unfold Website.getRandomSource, Extension.getRandomSource, bind, read, ret.
  rewrite H. repeat split. apply not_elem_of_nil.
Qed.

Lemma getRandomSource_without_sources_witness :
  let w := with_AVAILABLE_SOURCES [] (Examples.fresh [(1 # 2)%Q]) in
  Website.getRandomSource w = (Ok (JStr "apod"), w) ∧
  (JStr "apod" ∉ AVAILABLE_SOURCES w) ∧
  Extension.getRandomSource w = (Ok JNull, w).
Proof.
  intros w. apply (getRandomSource_without_sources w). reflexivity.
Defined.

(** ** The fitting function *)

Lemma Qltb_true (x y : Q) : Qltb x y = true ↔ (x < y)%Q.
Proof.
  unfold Qltb. rewrite negb_true_iff, <- not_true_iff_false, Qle_bool_iff.
  split; [apply Qnot_le_lt | apply Qlt_not_le].
Qed.

Lemma Qltb_false (x y : Q) : Qltb x y = false ↔ ¬ (x < y)%Q.
Proof. rewrite <- Qltb_true. destruct (Qltb x y); split; congruence. Qed.

Lemma missing_positive (z : Z) : (0 < z)%Z → missing (Some z) = false.
Proof. intros H. simpl. apply Z.eqb_neq. lia. Qed.

(** *** Rounding to binary64 *)

Section Rounding.
Local Open Scope Q_scope.

Lemma pow2_pos (e : Z) : 0 < 2 ^ e.
Proof. apply Qpower_0_lt. reflexivity. Qed.

Lemma pow2_succ (e : Z) : 2 ^ (e + 1) == 2 * 2 ^ e.
Proof. rewrite Qpower_plus by discriminate. change (2 ^ 1) with 2. ring. Qed.

Lemma pow2_le (a b : Z) : (a <= b)%Z → 2 ^ a <= 2 ^ b.
Proof. intros H. apply Qpower_le_compat_l; [done|discriminate]. Qed.

Lemma pow2_Z (n : Z) : (0 <= n)%Z → 2 ^ n == inject_Z (2 ^ n).
Proof. intros H. by rewrite Zpower_Qpower. Qed.

Lemma Qfloor_bounds (x : Q) : inject_Z (Qfloor x) <= x ∧ x < inject_Z (Qfloor x) + 1.
Proof.
  split; [apply Qfloor_le|].
  pose proof (Qlt_floor x) as H. rewrite inject_Z_plus in H. exact H.
Qed.

Lemma Qfloor_unique (x : Q) (n : Z) : inject_Z n <= x → x < inject_Z n + 1 → Qfloor x = n.
Proof.
  intros H1 H2. destruct (Qfloor_bounds x) as [H3 H4].
  assert (Ha : inject_Z n < inject_Z (Qfloor x) + 1) by lra.
  assert (Hb : inject_Z (Qfloor x) < inject_Z n + 1) by lra.
  change 1 with (inject_Z 1) in Ha, Hb.
  rewrite <- inject_Z_plus, <- Zlt_Qlt in Ha, Hb. lia.
Qed.

Lemma nearest_even_cases (x : Q) :
  nearest_even x = Qfloor x ∧ x - inject_Z (Qfloor x) <= 1 # 2 ∨
  nearest_even x = (Qfloor x + 1)%Z ∧ 1 # 2 <= x - inject_Z (Qfloor x).
Proof.
  unfold nearest_even.
  destruct (Qcompare_spec (x - inject_Z (Qfloor x)) (1 # 2)) as [H|H|H].
  - destruct (Z.even (Qfloor x)); [left|right]; split; try reflexivity; rewrite H; apply Qle_refl.
  - left. split; [reflexivity|]. by apply Qlt_le_weak.
  - right. split; [reflexivity|]. by apply Qlt_le_weak.
Qed.

Lemma nearest_even_error (x : Q) : Qabs (inject_Z (nearest_even x) - x) <= 1 # 2.
Proof.
  destruct (Qfloor_bounds x) as [H1 H2].
  apply Qabs_Qle_condition.
  destruct (nearest_even_cases x) as [[-> H]|[-> H]]; rewrite ?inject_Z_plus;
    change (inject_Z 1) with 1; split; lra.
Qed.

Lemma nearest_even_Z (n : Z) : nearest_even (inject_Z n) = n.
Proof.
  unfold nearest_even. rewrite Qfloor_Z.
  destruct (Qcompare_spec (inject_Z n - inject_Z n) (1 # 2)) as [H|H|H]; [lra|done|lra].
Qed.

Lemma nearest_even_le (x y : Q) : x <= y → (nearest_even x <= nearest_even y)%Z.
Proof.
  intros Hxy.
  pose proof (Qfloor_resp_le _ _ Hxy) as Hfl.
  destruct (Qfloor_bounds x) as [Hx1 Hx2], (Qfloor_bounds y) as [Hy1 Hy2].
  destruct (Z.eq_dec (Qfloor x) (Qfloor y)) as [Heq|Hne].
  - unfold nearest_even. rewrite <- Heq.
    destruct (Qcompare_spec (x - inject_Z (Qfloor x)) (1 # 2)) as [H|H|H];
      destruct (Qcompare_spec (y - inject_Z (Qfloor x)) (1 # 2)) as [H'|H'|H'];
      try destruct (Z.even (Qfloor x)); try lia; lra.
  - destruct (nearest_even_cases x) as [[-> _]|[-> _]],
             (nearest_even_cases y) as [[-> _]|[-> _]]; lia.
Qed.

Lemma log2_bounds (x : Q) :
  0 < x →
  let k := (Z.log2 (Qnum x) - Z.log2 (Zpos (Qden x)))%Z in
  2 ^ (k - 1) <= x ∧ x < 2 ^ (k + 1).
Proof.
  destruct x as [n d]. intros Hx k. subst k. cbn [Qnum Qden].
  assert (Hn : (0 < n)%Z).
  { unfold Qlt in Hx. simpl in Hx. lia. }
  set (ln := Z.log2 n). set (ld := Z.log2 (Z.pos d)).
  assert (Hln : (0 <= ln)%Z) by apply Z.log2_nonneg.
  assert (Hld : (0 <= ld)%Z) by apply Z.log2_nonneg.
  destruct (Z.log2_spec n Hn) as [Hn1 Hn2]. fold ln in Hn1, Hn2.
  destruct (Z.log2_spec (Z.pos d) eq_refl) as [Hd1 Hd2]. fold ld in Hd1, Hd2.
  rewrite Zle_Qle in Hn1, Hd1. rewrite Zlt_Qlt in Hn2, Hd2.
  rewrite <- pow2_Z in Hn1, Hn2, Hd1, Hd2 by lia.
  set (x := n # d) in *.
  assert (Hxd : x * inject_Z (Z.pos d) == inject_Z n).
  { subst x. rewrite (Qmake_Qdiv n d). field. discriminate. }
  assert (Hlo : 2 ^ (ln - ld - 1) * 2 ^ Z.succ ld == 2 ^ ln).
  { rewrite <- Qpower_plus by discriminate. by replace (ln - ld - 1 + Z.succ ld)%Z with ln by lia. }
  assert (Hhi : 2 ^ (ln - ld + 1) * 2 ^ ld == 2 ^ Z.succ ln).
  { rewrite <- Qpower_plus by discriminate. by replace (ln - ld + 1 + ld)%Z with (Z.succ ln) by lia. }
  pose proof (pow2_pos (Z.succ ld)) as Hp1. pose proof (pow2_pos ld) as Hp2.
  pose proof (pow2_pos (ln - ld - 1)) as Hp3. pose proof (pow2_pos (ln - ld + 1)) as Hp4.
  set (D := inject_Z (Z.pos d)) in *. set (N := inject_Z n) in *.
  set (B := 2 ^ Z.succ ld) in *. set (C := 2 ^ ld) in *.
  set (P := 2 ^ (ln - ld - 1)) in *. set (U := 2 ^ (ln - ld + 1)) in *.
  set (A := 2 ^ ln) in *. set (A2 := 2 ^ Z.succ ln) in *.
  split.
  - destruct (Qlt_le_dec x P) as [Hlt|]; [exfalso|done].
    assert (x * B < P * B) by (apply Qmult_lt_r; done).
    assert (x * D <= x * B) by (apply Qmult_le_l; [done|by apply Qlt_le_weak]).
    lra.
  - destruct (Qlt_le_dec x U) as [|Hge]; [done|exfalso].
    assert (U * C <= x * C) by (apply Qmult_le_r; done).
    assert (x * C <= x * D) by (apply Qmult_le_l; done).
    lra.
Qed.

Lemma Qdiv_mult (x p : Q) : 0 < p → x / p * p == x.
Proof. intros H. field. intros H0. rewrite H0 in H. by apply Qlt_irrefl in H. Qed.

Lemma Qle_div_r (a x p : Q) : 0 < p → a <= x / p → a * p <= x.
Proof.
  intros Hp H. rewrite <- (Qdiv_mult x p Hp). by apply Qmult_le_r.
Qed.

Lemma Qlt_div_l (a x p : Q) : 0 < p → x / p < a → x < a * p.
Proof.
  intros Hp H. rewrite <- (Qdiv_mult x p Hp). by apply Qmult_lt_r.
Qed.

Lemma exponent_spec (x : Q) :
  0 < x → inject_Z (2 ^ 52) * 2 ^ exponent x <= x ∧ x < inject_Z (2 ^ 53) * 2 ^ exponent x.
Proof.
  intros Hx. destruct (log2_bounds x Hx) as [Hlo Hhi]. cbv zeta in Hlo, Hhi.
  unfold exponent.
  set (k := (Z.log2 (Qnum x) - Z.log2 (Z.pos (Qden x)))%Z) in *.
  assert (H52 : 2 ^ (k - 1) == inject_Z (2 ^ 52) * 2 ^ (k - 53)).
  { rewrite <- pow2_Z, <- Qpower_plus by (lia || discriminate).
    by replace (52 + (k - 53))%Z with (k - 1)%Z by lia. }
  assert (H54 : 2 ^ (k + 1) == 2 * inject_Z (2 ^ 53) * 2 ^ (k - 53)).
  { change (2 * inject_Z (2 ^ 53)) with (inject_Z (2 ^ 54)).
    rewrite <- pow2_Z, <- Qpower_plus by (lia || discriminate).
    by replace (54 + (k - 53))%Z with (k + 1)%Z by lia. }
  pose proof (pow2_pos (k - 53)) as Hp.
  destruct (Qle_bool (inject_Z (2 ^ 53)) (x / 2 ^ (k - 53))) eqn:Hc.
  - apply Qle_bool_iff in Hc.
    apply Qle_div_r in Hc; [|done].
    rewrite pow2_succ.
    change (inject_Z (2 ^ 52) * (2 * 2 ^ (k - 53))) with (inject_Z (2 ^ 52) * (2 * 2 ^ (k - 53))).
    set (p := 2 ^ (k - 53)) in *.
    change (inject_Z (2 ^ 52)) with (4503599627370496 # 1) in *.
    change (inject_Z (2 ^ 53)) with (9007199254740992 # 1) in *.
    split; lra.
  - assert (Hlt : x / 2 ^ (k - 53) < inject_Z (2 ^ 53)).
    { apply Qnot_le_lt. intros H. apply Qle_bool_iff in H. congruence. }
    apply Qlt_div_l in Hlt; [|done].
    set (p := 2 ^ (k - 53)) in *.
    change (inject_Z (2 ^ 52)) with (4503599627370496 # 1) in *.
    change (inject_Z (2 ^ 53)) with (9007199254740992 # 1) in *.
    split; lra.
Qed.

Lemma double_pos (x : Q) :
  0 < x → double x = inject_Z (nearest_even (x / 2 ^ exponent x)) * 2 ^ exponent x.
Proof.
  destruct x as [[|p|p] d]; intros H; try reflexivity; by vm_compute in H.
Qed.

Lemma double_neg (x : Q) : x < 0 → double x = - double (- x).
Proof.
  destruct x as [[|p|p] d]; intros H; try reflexivity; by vm_compute in H.
Qed.

Lemma double_zero (x : Q) : x == 0 → double x = 0.
Proof.
  destruct x as [[|p|p] d]; intros H; try reflexivity; by vm_compute in H.
Qed.

Lemma double_pos_bounds (x : Q) :
  0 < x →
  inject_Z (2 ^ 52) * 2 ^ exponent x <= double x ∧
  double x <= inject_Z (2 ^ 53) * 2 ^ exponent x.
Proof.
  intros Hx. rewrite (double_pos x Hx).
  destruct (exponent_spec x Hx) as [Hlo Hhi].
  pose proof (pow2_pos (exponent x)) as Hp.
  set (p := 2 ^ exponent x) in *.
  assert (H1 : inject_Z (2 ^ 52) <= x / p).
  { apply Qle_shift_div_l; done. }
  assert (H2 : x / p <= inject_Z (2 ^ 53)).
  { apply Qle_shift_div_r; [done|]. by apply Qlt_le_weak. }
  apply nearest_even_le in H1, H2. rewrite nearest_even_Z in H1, H2.
  rewrite Zle_Qle in H1, H2.
  split; by apply Qmult_le_r.
Qed.

Lemma double_positive (x : Q) : 0 < x → 0 < double x.
Proof.
  intros Hx. destruct (double_pos_bounds x Hx) as [H _].
  pose proof (pow2_pos (exponent x)) as Hp.
  eapply Qlt_le_trans; [|exact H].
  apply Qmult_lt_0_compat; [reflexivity|done].
Qed.

Lemma exponent_le (x y : Q) : 0 < x → x <= y → (exponent x <= exponent y)%Z.
Proof.
  intros Hx Hxy.
  assert (Hy : 0 < y) by lra.
  destruct (exponent_spec x Hx) as [Hx1 _], (exponent_spec y Hy) as [_ Hy2].
  destruct (Z_le_gt_dec (exponent x) (exponent y)) as [|Hgt]; [done|exfalso].
  assert (Hp : 2 ^ (exponent y + 1) <= 2 ^ exponent x) by (apply pow2_le; lia).
  rewrite pow2_succ in Hp.
  set (p := 2 ^ exponent x) in *. set (q := 2 ^ exponent y) in *.
  change (inject_Z (2 ^ 52)) with (4503599627370496 # 1) in *.
  change (inject_Z (2 ^ 53)) with (9007199254740992 # 1) in *.
  lra.
Qed.

Lemma double_le_pos (x y : Q) : 0 < x → x <= y → double x <= double y.
Proof.
  intros Hx Hxy.
  assert (Hy : 0 < y) by lra.
  pose proof (exponent_le x y Hx Hxy) as He.
  destruct (Z.eq_dec (exponent x) (exponent y)) as [Heq|Hne].
  - rewrite (double_pos x Hx), (double_pos y Hy), Heq.
    pose proof (pow2_pos (exponent y)) as Hp.
    apply Qmult_le_r; [done|]. rewrite <- Zle_Qle. apply nearest_even_le.
    apply Qmult_le_r; [by apply Qinv_lt_0_compat|done].
  - destruct (double_pos_bounds x Hx) as [_ Hx2], (double_pos_bounds y Hy) as [Hy1 _].
    assert (Hp : 2 ^ (exponent x + 1) <= 2 ^ exponent y) by (apply pow2_le; lia).
    rewrite pow2_succ in Hp.
    set (p := 2 ^ exponent x) in *. set (q := 2 ^ exponent y) in *.
    change (inject_Z (2 ^ 52)) with (4503599627370496 # 1) in *.
    change (inject_Z (2 ^ 53)) with (9007199254740992 # 1) in *.
    lra.
Qed.

(** Rounding is monotone. *)
Lemma double_le (x y : Q) : x <= y → double x <= double y.
Proof.
  intros Hxy.
  destruct (Q_dec 0 x) as [[Hx|Hx]|Hx].
  - by apply double_le_pos.
  - rewrite (double_neg x Hx).
    destruct (Q_dec 0 y) as [[Hy|Hy]|Hy].
    + assert (0 < double y) by by apply double_positive.
      assert (0 < double (- x)) by (apply double_positive; lra). lra.
    + rewrite (double_neg y Hy).
      assert (double (- y) <= double (- x)) by (apply double_le_pos; lra). lra.
    + rewrite (double_zero y) by done.
      assert (0 < double (- x)) by (apply double_positive; lra). lra.
  - rewrite (double_zero x) by done.
    destruct (Q_dec 0 y) as [[Hy|Hy]|Hy].
    + apply Qlt_le_weak. by apply double_positive.
    + lra.
    + rewrite (double_zero y) by done. apply Qle_refl.
Qed.

#[global] Instance double_proper : Proper (Qeq ==> Qeq) double.
Proof.
  intros x y H. apply Qle_antisym; apply double_le; rewrite H; apply Qle_refl.
Qed.

(** Rounding moves a positive number by at most one part in 2^53. *)
Lemma double_error (x : Q) :
  0 < x → Qabs (double x - x) <= x * (1 # 9007199254740992).
Proof.
  intros Hx. rewrite (double_pos x Hx).
  destruct (exponent_spec x Hx) as [Hlo _].
  pose proof (pow2_pos (exponent x)) as Hp.
  set (p := 2 ^ exponent x) in *.
  pose proof (nearest_even_error (x / p)) as Herr.
  set (m := inject_Z (nearest_even (x / p))) in *.
  pose proof (Qdiv_mult x p Hp) as Hq.
  set (q := x / p) in *.
  apply Qabs_Qle_condition in Herr as [H1 H2].
  assert (H3 : (m - q) * p <= (1 # 2) * p) by (by apply Qmult_le_r).
  assert (H4 : - (1 # 2) * p <= (m - q) * p) by (by apply Qmult_le_r).
  change (inject_Z (2 ^ 52)) with (4503599627370496 # 1) in *.
  apply Qabs_Qle_condition. split; lra.
Qed.

Lemma Math_round_unique (x : Q) (n : Z) :
  inject_Z n - (1 # 2) <= x → x < inject_Z n + (1 # 2) → Math_round x = n.
Proof. intros H1 H2. apply Qfloor_unique; lra. Qed.

Lemma Math_round_le (x y : Q) : x <= y → (Math_round x <= Math_round y)%Z.
Proof. intros H. apply Qfloor_resp_le. lra. Qed.

(** Dividing a size by another and multiplying back gives, after
    [Math.round], the size again. *)
Lemma double_round_trip (n d : Z) :
  (0 < n <= 2 ^ 50)%Z → (0 < d)%Z →
  Math_round (double (inject_Z d * double (inject_Z n / inject_Z d))) = n.
Proof.
  intros [Hn0 Hn1] Hd.
  rewrite Zlt_Qlt in Hn0, Hd. rewrite Zle_Qle in Hn1.
  change (inject_Z 0) with 0 in *.
  change (inject_Z (2 ^ 50)) with (1125899906842624 # 1) in Hn1.
  set (N := inject_Z n) in *. set (D := inject_Z d) in *.
  assert (Hq : 0 < N / D) by (apply Qlt_shift_div_l; lra).
  pose proof (double_error _ Hq) as Ha. pose proof (double_positive _ Hq) as Ha0.
  set (a := double (N / D)) in *.
  pose proof (Qdiv_mult N D Hd) as HND. set (q := N / D) in *.
  apply Qabs_Qle_condition in Ha as [Ha1 Ha2].
  assert (Hy1 : (a - q) * D <= q * (1 # 9007199254740992) * D) by (by apply Qmult_le_r).
  assert (Hy2 : - (q * (1 # 9007199254740992)) * D <= (a - q) * D) by (by apply Qmult_le_r).
  assert (Hy0 : 0 < D * a) by (by apply Qmult_lt_0_compat).
  pose proof (double_error _ Hy0) as Hp.
  set (y := D * a) in *.
  assert (Hy : y == a * D) by (subst y; ring).
  set (p := double y) in *.
  apply Qabs_Qle_condition in Hp as [Hp1 Hp2].
  apply Math_round_unique; fold N; lra.
Qed.

End Rounding.

(** *** The tests of the decision chain, for sizes in pixels *)

Lemma positive_Q (z : Z) : (0 < z)%Z → (0 < inject_Z z)%Q.
Proof. intros H. change 0%Q with (inject_Z 0). by rewrite <- Zlt_Qlt. Qed.

Lemma ratio_le_iff (n : Z) (d : positive) (a b : Z) :
  (0 < b)%Z → (n # d <= inject_Z a / inject_Z b)%Q ↔ (n * b ≤ a * Z.pos d)%Z.
Proof.
  intros Hb. destruct b as [|p|p]; try lia.
  rewrite <- Qmake_Qdiv. unfold Qle. simpl. reflexivity.
Qed.

Lemma ratio_ge_iff (n : Z) (d : positive) (a b : Z) :
  (0 < b)%Z → (inject_Z a / inject_Z b <= n # d)%Q ↔ (a * Z.pos d ≤ n * b)%Z.
Proof.
  intros Hb. destruct b as [|p|p]; try lia.
  rewrite <- Qmake_Qdiv. unfold Qle. simpl. reflexivity.
Qed.

Ltac pixels_bounds :=
  unfold pixels in *; change (2 ^ 48)%Z with 281474976710656%Z in *.

(** [a / b > 1] in the code exactly when [a > b]. *)
Lemma aspect_wide (a b : Z) :
  pixels a → pixels b →
  Qltb 1 (num_div (inject_Z a) (inject_Z b)) = true ↔ (b < a)%Z.
Proof.
  intros Ha Hb. pixels_bounds. rewrite Qltb_true. unfold num_div. split.
  - intros H. destruct (Z_lt_le_dec b a) as [|Hle]; [done|exfalso].
    assert (Hr : (inject_Z a / inject_Z b <= 1 # 1)%Q) by (apply ratio_ge_iff; lia).
    apply double_le in Hr.
    assert (Hone : (double (1 # 1) <= 1)%Q) by (vm_compute; discriminate).
    lra.
  - intros H.
    assert (Hr : (281474976710657 # 281474976710656 <= inject_Z a / inject_Z b)%Q)
      by (apply ratio_le_iff; lia).
    apply double_le in Hr.
    assert (Hone : (1 < double (281474976710657 # 281474976710656))%Q)
      by (vm_compute; reflexivity).
    lra.
Qed.

(** [a / b >= 0.9 && a / b <= 1.1] in the code exactly when the ratio of the
    two sizes is between 9/10 and 11/10. *)
Lemma near_square (a b : Z) :
  pixels a → pixels b →
  Qle_bool (double (9 # 10)) (num_div (inject_Z a) (inject_Z b))
    && Qle_bool (num_div (inject_Z a) (inject_Z b)) (double (11 # 10)) = true
  ↔ (9 # 10 <= inject_Z a / inject_Z b ∧ inject_Z a / inject_Z b <= 11 # 10)%Q.
Proof.
  intros Ha Hb. pixels_bounds. rewrite andb_true_iff, !Qle_bool_iff. unfold num_div.
  split; intros [H1 H2]; split.
  - apply ratio_le_iff; [lia|].
    destruct (Z_le_gt_dec (9 * b) (a * 10)) as [|Hlt]; [done|exfalso].
    assert (Hr : (inject_Z a / inject_Z b <= 2533274790395903 # 2814749767106560)%Q)
      by (apply ratio_ge_iff; lia).
    apply double_le in Hr.
    assert (Hc : (double (2533274790395903 # 2814749767106560) < double (9 # 10))%Q)
      by (vm_compute; reflexivity).
    lra.
  - apply ratio_ge_iff; [lia|].
    destruct (Z_le_gt_dec (a * 10) (11 * b)) as [|Hlt]; [done|exfalso].
    assert (Hr : (3096224743817217 # 2814749767106560 <= inject_Z a / inject_Z b)%Q)
      by (apply ratio_le_iff; lia).
    apply double_le in Hr.
    assert (Hc : (double (11 # 10) < double (3096224743817217 # 2814749767106560))%Q)
      by (vm_compute; reflexivity).
    lra.
  - by apply double_le.
  - by apply double_le.
Qed.

(** C8. calculateOptimalDisplay reads nothing but its four arguments. Called
    in any two states of the page with the same viewport and image sizes
    (missing ones included), it returns the same record, field by field,
    without throwing and without changing the state, in the website page and
    in the extension; with a missing size the record is the fixed cover
    default at the viewport's size. *)
Theorem calculateOptimalDisplay_deterministic
    (vw vh : Z) (iw ih : option Z) (w w' : World) :
  ∃ r e,
    Website_display.calculateOptimalDisplay vw vh iw ih w = (Ok r, w) ∧
    Website_display.calculateOptimalDisplay vw vh iw ih w' = (Ok r, w') ∧
    Extension_display.calculateOptimalDisplay vw vh iw ih w = (Ok e, w) ∧
    Extension_display.calculateOptimalDisplay vw vh iw ih w' = (Ok e, w') ∧
    (missing iw || missing ih = true →
     r = {| objectFit := "cover"; objectPosition := "center"; scale := JNum 1;
            mode := "Default (no dimensions)";
            displayWidth := vw; displayHeight := vh |}).
Proof.
  unfold Website_display.calculateOptimalDisplay, Extension_display.calculateOptimalDisplay.
  destruct iw as [iw|], ih as [ih|];
    try (eexists _, _; repeat split; reflexivity).
  destruct (missing (Some iw) || missing (Some ih)) eqn:Hm.
  - eexists _, _. repeat split; reflexivity.
  - eexists _, _. repeat split; try reflexivity. discriminate.
Qed.

(** The case the tests name: 1920x1080 against 3840x2160 is a perfect
    match, covered at scale 0.50. *)
Example perfect_match :
  (Website_display.calculateOptimalDisplay 1920 1080 (Some 3840) (Some 2160)
     (Examples.fresh [])).1
  = Ok {| objectFit := "cover"; objectPosition := "center"; scale := JStr "0.50";
          mode := "Cover (Perfect Match)";
          displayWidth := 1920; displayHeight := 1080 |}.
Proof. vm_compute. reflexivity. Qed.

(** Three cases in which the rounding of the quotients shows: 0.175 as a
    binary64 value is below 0.175 and prints as 0.17; 350 times the binary64
    value of 0.35 is below 122.5; and the aspect ratios of 1920x1080 and
    3624x2160, which differ by exactly one tenth, differ by less than the
    binary64 value of 0.1. *)
Example rounded_scale :
  (Website_display.calculateOptimalDisplay 1680 1050 (Some 4000) (Some 6000)
     (Examples.fresh [])).1
  = Ok {| objectFit := "contain"; objectPosition := "center"; scale := JStr "0.17";
          mode := "Contain (Portrait in Landscape)";
          displayWidth := 700; displayHeight := 1050 |}.
Proof. vm_compute. reflexivity. Qed.

Example rounded_width :
  (Website_display.calculateOptimalDisplay 1680 1050 (Some 350) (Some 3000)
     (Examples.fresh [])).1
  = Ok {| objectFit := "contain"; objectPosition := "center"; scale := JStr "0.35";
          mode := "Contain (Portrait in Landscape)";
          displayWidth := 122; displayHeight := 1050 |}.
Proof. vm_compute. reflexivity. Qed.

Example rounded_difference :
  (Website_display.calculateOptimalDisplay 1920 1080 (Some 3624) (Some 2160)
     (Examples.fresh [])).1
  = Ok {| objectFit := "cover"; objectPosition := "center"; scale := JStr "0.53";
          mode := "Cover (Perfect Match)";
          displayWidth := 1920; displayHeight := 1080 |}.
Proof. vm_compute. reflexivity. Qed.

(** C2 fails at the specification's own example. The website page returns
    the scale as the string "0.56" and a width of 608, where 1080 x 0.5625 is
    607.5; the extension returns [cover] at the viewport's size. *)
Lemma opposite_orientation_not_exact :
  let w := Examples.fresh [] in
  let r := {| objectFit := "contain"; objectPosition := "center"; scale := JStr "0.56";
              mode := "Contain (Portrait in Landscape)";
              displayWidth := 608; displayHeight := 1080 |} in
  let e := {| objectFit := "cover"; objectPosition := "center"; scale := JStr "1.78";
              mode := "Cover";
              displayWidth := 1920; displayHeight := 1080 |} in
  Website_display.calculateOptimalDisplay 1920 1080 (Some 1080) (Some 1920) w = (Ok r, w) ∧
  ¬ letterboxed_exactly r 1920 1080 1080 1920 ∧
  Extension_display.calculateOptimalDisplay 1920 1080 (Some 1080) (Some 1920) w = (Ok e, w) ∧
  ¬ letterboxed_exactly e 1920 1080 1080 1920.
Proof.
  intros w r e.
  split; [vm_compute; reflexivity|].
  split; [intros (_ & H & _); vm_compute in H; discriminate|].
  split; [vm_compute; reflexivity|].
  intros (H & _). vm_compute in H. discriminate.
Qed.

(** C2, amended. In the website page, for sizes in pixels, a viewport that
    is not near-square and an image of the opposite orientation give
    [contain], centred; with s the smaller of the quotients vw/iw and vh/ih
    as the browser forms them, the scale is s.toFixed(2) and the displayed
    size is Math.round of the products iw * s and ih * s, again as the
    browser forms them. The extension page returns [cover], centred, at the
    viewport's size for every viewport and every image. *)
Theorem opposite_orientation_contain (vw vh : Z) (w : World) :
  (∀ iw ih : Z,
     pixels vw → pixels vh → pixels iw → pixels ih →
     ¬ (9 # 10 <= inject_Z vw / inject_Z vh ∧ inject_Z vw / inject_Z vh <= 11 # 10)%Q →
     ((vh < vw ∧ iw ≤ ih) ∨ (vw ≤ vh ∧ ih < iw))%Z →
     let s := Qmin (num_div (inject_Z vw) (inject_Z iw))
                   (num_div (inject_Z vh) (inject_Z ih)) in
     ∃ r,
       Website_display.calculateOptimalDisplay vw vh (Some iw) (Some ih) w = (Ok r, w) ∧
       objectFit r = "contain" ∧
       objectPosition r = "center" ∧
       mode r = (if (vh <? vw)%Z then "Contain (Portrait in Landscape)"
                 else "Contain (Landscape in Portrait)") ∧
       scale r = JStr (toFixed 2 s) ∧
       displayWidth r = Math_round (num_mul (inject_Z iw) s) ∧
       displayHeight r = Math_round (num_mul (inject_Z ih) s)) ∧
  (∀ iw ih : option Z,
     ∃ e,
       Extension_display.calculateOptimalDisplay vw vh iw ih w = (Ok e, w) ∧
       objectFit e = "cover" ∧
       objectPosition e = "center" ∧
       displayWidth e = vw ∧
       displayHeight e = vh).
Proof.
  split.
  - intros iw ih Hvw Hvh Hiw Hih Hsq Hopp s.
    unfold Website_display.calculateOptimalDisplay.
    rewrite !missing_positive by apply Hiw || apply Hih. cbn [orb]. cbv iota.
    eexists. split; [reflexivity|].
    unfold Website_display.decide_display.
    destruct (Qle_bool (double (9 # 10)) (num_div (inject_Z vw) (inject_Z vh))
              && Qle_bool (num_div (inject_Z vw) (inject_Z vh)) (double (11 # 10)))
      eqn:Hnear.
    { exfalso. apply Hsq. by apply near_square. }
    assert (Hv : Qltb 1 (num_div (inject_Z vw) (inject_Z vh)) = (vh <? vw)%Z).
    { apply eq_true_iff_eq. rewrite (aspect_wide vw vh) by done. by rewrite Z.ltb_lt. }
    assert (Hi : Qltb 1 (num_div (inject_Z iw) (inject_Z ih)) = (ih <? iw)%Z).
    { apply eq_true_iff_eq. rewrite (aspect_wide iw ih) by done. by rewrite Z.ltb_lt. }
    rewrite Hv, Hi.
    assert (Hb : (vh <? vw)%Z = negb (ih <? iw)%Z).
    { destruct Hopp as [[H1 H2]|[H1 H2]].
      - rewrite (proj2 (Z.ltb_lt _ _) H1). by rewrite (proj2 (Z.ltb_ge _ _) H2).
      - rewrite (proj2 (Z.ltb_ge _ _) H1). by rewrite (proj2 (Z.ltb_lt _ _) H2). }
    rewrite Hb. destruct (ih <? iw)%Z; cbn; repeat split.
  - intros iw ih. unfold Extension_display.calculateOptimalDisplay.
    destruct iw as [iw|], ih as [ih|]; try (eexists; repeat split; reflexivity).
    destruct (missing (Some iw) || missing (Some ih)); eexists; repeat split; reflexivity.
Qed.

Lemma opposite_orientation_contain_witness :
  let w := Examples.fresh [] in
  let s := Qmin (num_div 1920 1080) (num_div 1080 1920) in
  ∃ r,
    Website_display.calculateOptimalDisplay 1920 1080 (Some 1080) (Some 1920) w = (Ok r, w) ∧
    objectFit r = "contain" ∧
    scale r = JStr (toFixed 2 s) ∧
    displayWidth r = Math_round (num_mul 1080 s) ∧
    displayHeight r = Math_round (num_mul 1920 s).
Proof.
  intros w s.
  destruct (opposite_orientation_contain 1920 1080 w) as [H _].
  destruct (H 1080 1920) as (r & H1 & H2 & _ & _ & H3 & H4 & H5).
  - split; [reflexivity|discriminate].
  - split; [reflexivity|discriminate].
  - split; [reflexivity|discriminate].
  - split; [reflexivity|discriminate].
  - intros [_ Hle]. vm_compute in Hle. by apply Hle.
  - left. split; [reflexivity|discriminate].
  - exists r. repeat split; assumption.
Defined.

(** ** The source catalog *)

Lemma refresh_success (env : Env) (api : string) (w : World) (status : Z) (catalog : list obj) :
  network env (api +:+ "/sources/") = Response status (BodyArr catalog) →
  ok status = true →
  loadAvailableSources_refresh env api w
  = (Ok (enabled_only catalog), refreshed env (api +:+ "/sources/") catalog w).
Proof.
  intros Hnet Hok.
  unfold loadAvailableSources_refresh, try_catch, fetch, bind, update.
  rewrite Hnet. simpl. rewrite Hok. reflexivity.
Qed.

Lemma cached_or_nothing_run (w : World) :
  cached_or_nothing w
  = match localStorage w !! SOURCES_CACHE_KEY with
    | Some (JsonArr c) =>
        (Ok (enabled_only c), with_AVAILABLE_SOURCES (values (enabled_only c)) w)
    | _ => (Ok [], with_AVAILABLE_SOURCES [] w)
    end.
Proof.
  unfold cached_or_nothing, bind, getItem, read.
  destruct (localStorage w !! SOURCES_CACHE_KEY) as [[t|o|l]|]; try reflexivity.
  simpl. destruct (String.eqb t ""); reflexivity.
Qed.

Lemma refresh_failure (env : Env) (api : string) (w : World) :
  fetch_fails (network env (api +:+ "/sources/")) →
  loadAvailableSources_refresh env api w
  = cached_or_nothing (with_requests (λ l, (l ++ [api +:+ "/sources/"])%list) w).
Proof.
  intros Hfail.
  unfold loadAvailableSources_refresh, try_catch, fetch, bind, update.
  destruct (network env (api +:+ "/sources/")) as [msg|status b]; simpl in *; [done|].
  destruct (ok status) eqn:Hok; simpl; [|done].
  destruct Hfail as [|Hb]; [done|].
  destruct b as [| |o|l]; simpl; try done.
  by destruct (Hb l).
Qed.

Lemma refresh_never_throws (env : Env) (api : string) (w : World) :
  ∃ l, (loadAvailableSources_refresh env api w).1 = Ok l.
Proof.
  unfold loadAvailableSources_refresh, try_catch.
  match goal with |- context [let (_, _) := ?m w in _] => destruct (m w) as [[a|e] w'] end.
  - exists a. reflexivity.
  - simpl. rewrite cached_or_nothing_run.
    destruct (localStorage w' !! SOURCES_CACHE_KEY) as [[t|o|l]|]; by eexists.
Qed.

(** A call of loadAvailableSources either answers from the fresh cache
    without a request, or runs the refresh on a page whose store and request
    log are those it started with. *)
Lemma loadAvailableSources_cases (env : Env) (api : string) (forceRefresh : bool) (w : World) :
  (∃ w1, localStorage w1 = localStorage w ∧ requests w1 = requests w ∧
         Common.loadAvailableSources env api forceRefresh w
         = loadAvailableSources_refresh env api w1) ∨
  requests (Common.loadAvailableSources env api forceRefresh w).2 = requests w.
Proof.
  unfold Common.loadAvailableSources.
  destruct forceRefresh; [left; by exists w|].
  unfold try_catch, use_cached_sources, available, bind, getItem, read, update, ret.
  cbn -[loadAvailableSources_refresh parseInt cell_truthy].
  destruct (localStorage w !! SOURCES_CACHE_KEY) as [c|]; [|left; by exists w].
  match goal with |- context [if ?b then _ else _] => destruct b end;
    [|left; by exists w].
  destruct c as [t|o|l]; cbn -[loadAvailableSources_refresh cell_truthy];
    try (left; by exists w).
  match goal with |- context [if ?b then _ else _] => destruct b end.
  - left. exists (with_AVAILABLE_SOURCES (values (enabled_only l)) w).
    split; [done|]. split; [done|].
    destruct (refresh_never_throws env api (with_AVAILABLE_SOURCES (values (enabled_only l)) w))
      as [a Ha].
    destruct (loadAvailableSources_refresh env api _) as [[a'|e] w']; [done|discriminate].
  - by right.
Qed.

(** Whatever the network and the store do, the list loadAvailableSources
    returns holds no entry whose flag is [false]. *)
Lemma loadAvailableSources_never_disabled
    (env : Env) (api : string) (forceRefresh : bool) (w : World) :
  ∃ l, (Common.loadAvailableSources env api forceRefresh w).1 = Ok l ∧
       ∀ s, s ∈ l → get s "enabled" ≠ JBool false.
Proof.
  assert (Hen : ∀ c s, s ∈ enabled_only c → get s "enabled" ≠ JBool false).
  { intros c s. unfold enabled_only.
    rewrite list_elem_of_In, filter_In, negb_true_iff, strict_eq_false. tauto. }
  assert (Hrefresh : ∀ w1, ∃ l, (loadAvailableSources_refresh env api w1).1 = Ok l ∧
                                ∀ s, s ∈ l → get s "enabled" ≠ JBool false).
  { intros w1. unfold loadAvailableSources_refresh, try_catch.
    match goal with |- context [let (_, _) := ?m w1 in _] =>
      destruct (m w1) as [[a|e] w2] eqn:Hm end.
    - exists a. split; [done|].
      apply bind_Ok in Hm as (r & w3 & _ & Hm).
      apply bind_Ok in Hm as (_ & w4 & _ & Hm).
      apply bind_Ok in Hm as (parsed & w5 & _ & Hm).
      apply bind_Ok in Hm as (sources & w6 & _ & Hm).
      injection Hm as <- _. apply Hen.
    - simpl. rewrite cached_or_nothing_run.
      destruct (localStorage w2 !! SOURCES_CACHE_KEY) as [[t|o|l]|];
        (eexists; split; [reflexivity|]); try apply Hen; by intros s ?%not_elem_of_nil. }
  destruct (loadAvailableSources_cases env api forceRefresh w)
    as [(w1 & _ & _ & ->)|Hno]; [apply Hrefresh|].
  revert Hno. unfold Common.loadAvailableSources.
  destruct forceRefresh; [intros _; apply Hrefresh|].
  unfold try_catch, use_cached_sources, available, bind, getItem, read, update, ret.
  cbn -[loadAvailableSources_refresh parseInt cell_truthy].
  destruct (localStorage w !! SOURCES_CACHE_KEY) as [c|]; [|intros _; apply Hrefresh].
  match goal with |- context [if ?b then _ else _] => destruct b end;
    [|intros _; apply Hrefresh].
  destruct c as [t|o|l]; cbn -[loadAvailableSources_refresh cell_truthy];
    try (intros _; apply Hrefresh).
  match goal with |- context [if ?b then _ else _] => destruct b end.
  - intros _.
    destruct (Hrefresh (with_AVAILABLE_SOURCES (values (enabled_only l)) w)) as (l' & Hl' & H').
    destruct (loadAvailableSources_refresh env api _) as [[a'|e] w']; [|discriminate].
    injection Hl' as ->. by exists l'.
  - intros _. exists (enabled_only l). split; [done|]. apply Hen.
Qed.

(** [enabled_only] keeps exactly the entries whose flag is not [false], in
    the order of the catalog. *)
Lemma enabled_only_spec (catalog : list obj) :
  (∀ s, s ∈ enabled_only catalog ↔ s ∈ catalog ∧ get s "enabled" ≠ JBool false) ∧
  sublist (enabled_only catalog) catalog.
Proof.
  unfold enabled_only. split.
  - intros s. rewrite !list_elem_of_In, filter_In, negb_true_iff, strict_eq_false. done.
  - induction catalog as [|x l IH]; simpl; [constructor|].
    destruct (negb _); by constructor.
Qed.

(** C5. Whenever loadAvailableSources asks the sources endpoint and gets a
    catalog, it returns exactly the entries whose [enabled] flag is not
    [false], in catalog order; their names become the working set and the
    whole catalog, disabled entries included, is cached. *)
Theorem loadAvailableSources_returns_enabled
    (env : Env) (PICTURES_API_URL : string) (forceRefresh : bool) (w : World)
    (status : Z) (catalog : list obj) :
  network env (PICTURES_API_URL +:+ "/sources/") = Response status (BodyArr catalog) →
  ok status = true →
  let run := Common.loadAvailableSources env PICTURES_API_URL forceRefresh w in
  requests run.2 ≠ requests w →
  run.1 = Ok (enabled_only catalog) ∧
  (∀ s, s ∈ enabled_only catalog ↔ s ∈ catalog ∧ get s "enabled" ≠ JBool false) ∧
  sublist (enabled_only catalog) catalog ∧
  AVAILABLE_SOURCES run.2 = values (enabled_only catalog) ∧
  localStorage run.2 !! SOURCES_CACHE_KEY = Some (JsonArr catalog).
Proof.
  intros Hnet Hok run Hreq.
  destruct (enabled_only_spec catalog) as [Hin Hsub].
  destruct (loadAvailableSources_cases env PICTURES_API_URL forceRefresh w)
    as [(w1 & Hls & Hrq & Hrun)|Hno]; [|done].
  subst run. rewrite Hrun, (refresh_success env _ w1 status catalog Hnet Hok).
  split; [done|]. split; [done|]. split; [done|]. split; [done|].
  simpl. by simplify_map_eq.
Qed.

Lemma loadAvailableSources_returns_enabled_witness :
  let env := Examples.env_with (λ url,
    if String.eqb url Examples.sources_url
    then Response 200 (BodyArr [Examples.apod_entry; Examples.bing_disabled])
    else NetworkFailure "offline") in
  let run := Website.loadAvailableSources env true (Examples.fresh []) in
  run.1 = Ok [Examples.apod_entry] ∧
  AVAILABLE_SOURCES run.2 = [JStr "apod"].
Proof.
  intros env run.
  destruct (loadAvailableSources_returns_enabled env (Website.PICTURES_API_URL env) true
              (Examples.fresh []) 200 [Examples.apod_entry; Examples.bing_disabled])
    as (H1 & _ & _ & H2 & _); [reflexivity | reflexivity | discriminate |].
  exact (conj H1 H2).
Defined.

(** C6. When the catalog request fails, loadAvailableSources returns the
    enabled entries of the cached catalog, whatever the age recorded for it,
    and publishes their names; with no cached catalog it returns the empty
    list and empties the working set. It does not throw. *)
Theorem loadAvailableSources_offline
    (env : Env) (PICTURES_API_URL : string) (forceRefresh : bool) (w : World) :
  fetch_fails (network env (PICTURES_API_URL +:+ "/sources/")) →
  let run := Common.loadAvailableSources env PICTURES_API_URL forceRefresh w in
  requests run.2 ≠ requests w →
  (∀ cached, localStorage w !! SOURCES_CACHE_KEY = Some (JsonArr cached) →
     run.1 = Ok (enabled_only cached) ∧
     AVAILABLE_SOURCES run.2 = values (enabled_only cached)) ∧
  (localStorage w !! SOURCES_CACHE_KEY = None →
     run.1 = Ok [] ∧ AVAILABLE_SOURCES run.2 = []).
Proof.
  intros Hfail run Hreq.
  destruct (loadAvailableSources_cases env PICTURES_API_URL forceRefresh w)
    as [(w1 & Hls & Hrq & Hrun)|Hno]; [|done].
  subst run. rewrite Hrun, (refresh_failure env _ w1 Hfail), cached_or_nothing_run.
  simpl. rewrite Hls.
  split.
  - intros cached ->. done.
  - intros ->. done.
Qed.

Lemma loadAvailableSources_offline_witness :
  let env := Examples.env_with (λ _, NetworkFailure "offline") in
  let stale :=
    Examples.with_store
      (<[SOURCES_CACHE_DATE_KEY := Text "1000"]>
         (<[SOURCES_CACHE_KEY := JsonArr [Examples.apod_entry; Examples.bing_disabled]]> ∅))
      (Examples.fresh []) in
  (Extension.loadAvailableSources env false stale).1 = Ok [Examples.apod_entry] ∧
  (Extension.loadAvailableSources env false (Examples.fresh [])).1 = Ok [].
Proof.
  intros env stale. split.
  - destruct (loadAvailableSources_offline env (Extension.PICTURES_API_URL env) false stale)
      as [H _]; [exact I | discriminate |].
    destruct (H [Examples.apod_entry; Examples.bing_disabled]) as [H1 _]; [reflexivity|].
    exact H1.
  - destruct (loadAvailableSources_offline env (Extension.PICTURES_API_URL env) false
                (Examples.fresh []))
      as [_ H]; [exact I | discriminate |].
    destruct H as [H1 _]; [reflexivity|]. exact H1.
Defined.

(** ** Fetching a picture *)


Lemma request_backend_throws (env : Env) (normalize : obj → jsval → obj)
    (url : string) (selectedSource : jsval) (w : World) (e : string) :
  backend_error (network env url) = Some e →
  request_backend env normalize url selectedSource w = (Throw e, requested url w).
Proof.
  unfold backend_error, request_backend, fetch, bind, update, requested.
  destruct (network env url) as [msg|status b]; simpl.
  - by intros [= ->].
  - destruct (ok status); simpl; [|by intros [= ->]].
    destruct b as [| |o|l]; simpl; try by intros [= ->].
    destruct (truthy (get o "error")); [by intros [= ->]|].
    destruct (truthy (get o "title")); [done|by intros [= ->]].
Qed.

Lemma picture_url_today (api : string) (selectedSource : jsval) (w : World) :
  selectedSource ≠ JStr "bing" →
  picture_url api selectedSource w
  = (Ok (api +:+ "/today/" +:+ ToString selectedSource +:+ "/"), w).
Proof.
  intros H. unfold picture_url.
  apply strict_eq_false in H. by rewrite H.
Qed.


(** *** The direct-provider fallback *)





(** The other two answers, run: a 503, and a 200 that carries an error. *)
Example fetchPicture_on_503 :
  (Extension.fetchPicture (Examples.env_with (λ _, Response 503 BodyInvalid))
     (JStr "apod") (Examples.fresh [])).1
  = Throw "HTTP error! status: 503".
Proof. vm_compute. reflexivity. Qed.

Example fetchPicture_on_error_field :
  (Extension.fetchPicture
     (Examples.env_with (λ _, Response 200
        (BodyObj (literal [("error", JStr "No picture available"); ("title", JStr "T")]))))
     (JStr "apod") (Examples.fresh [])).1
  = Throw "No picture available".
Proof. vm_compute. reflexivity. Qed.

Lemma resolve_source_listed (source : jsval) (w : World) :
  truthy source = true →
  source ∈ AVAILABLE_SOURCES w →
  resolve_source source w = (Ok source, w).
Proof.
  intros Ht Hin. unfold resolve_source, bind, available, read, ret.
  rewrite Ht. simpl. rewrite bool_decide_true by done. simpl.
  rewrite Ht. simpl. by rewrite Ht.
Qed.



Lemma website_fetchPicture_run (env : Env) (source : jsval) (url : string) (w : World) :
  truthy source = true →
  picture_url (Website.PICTURES_API_URL env) source w = (Ok url, w) →
  Website.fetchPicture env source w
  = try_catch (request_backend env (Website.normalizePictureData env) url source)
              (provider_fallback env (Website.normalizePictureData env) source) w.
Proof.
  intros Ht Hurl. unfold Website.fetchPicture, bind. rewrite Ht.
  unfold ret. by rewrite Hurl.
Qed.

Lemma legacy_fetchPicture_run (env : Env) (source : jsval) (url : string) (w : World) :
  truthy source = true →
  source ∈ AVAILABLE_SOURCES w →
  picture_url (Legacy.PICTURES_API_URL env) source w = (Ok url, w) →
  Legacy.fetchPicture env source w
  = try_catch (request_backend env Legacy.normalizePictureData url source)
              (provider_fallback env Legacy.normalizePictureData source) w.
Proof.
  intros Ht Hin Hurl. unfold Legacy.fetchPicture. unfold bind at 1.
  rewrite resolve_source_listed by done. unfold bind. by rewrite Hurl.
Qed.




(** The provider's answer without an explanation, or with an empty one:
    original_explanation is undefined in both pages. *)
Example fallback_without_explanation :
  let answer explanation :=
    literal [("title", JStr "T"); ("date", JStr "2024-01-15");
             ("url", JStr "https://x/img.jpg"); ("explanation", explanation)] in
  let env explanation := Examples.env_with (λ url,
    if String.eqb url provider_url then Response 200 (BodyObj (answer explanation))
    else NetworkFailure "Failed to fetch") in
  let original m :=
    match m (Examples.fresh []) with
    | (Ok r, _) => get r "original_explanation"
    | (Throw e, _) => JStr e
    end in
  original (Website.fetchPicture (env (JStr "")) (JStr "apod")) = JUndefined ∧
  original (Website.fetchPicture (env JNull) (JStr "apod")) = JUndefined ∧
  original (Legacy.fetchPicture (env (JStr "")) (JStr "apod")) = JUndefined ∧
  original (Legacy.fetchPicture (env JNull) (JStr "apod")) = JUndefined.
Proof. repeat split; vm_compute; reflexivity. Qed.

(** ** Initialisation in random mode *)

Section Frame.
Context {B : Type} (f : World → B).

Lemma same_ret {A} (a : A) : same f (ret a).
Proof. by intros w. Qed.

Lemma same_throw {A} (e : string) : same f (@throw A e).
Proof. by intros w. Qed.

Lemma same_read {A} (g : World → A) : same f (read g).
Proof. by intros w. Qed.

Lemma same_update (g : World → World) : (∀ w, f (g w) = f w) → same f (update g).
Proof. intros H w. apply H. Qed.

Lemma same_bind {A C} (m : M A) (k : A → M C) :
  same f m → (∀ a, same f (k a)) → same f (bind m k).
Proof.
  intros Hm Hk w. unfold bind. specialize (Hm w).
  destruct (m w) as [[a|e] w1]; simpl in *; [|done].
  by rewrite Hk.
Qed.

Lemma same_try_catch {A} (m : M A) (h : string → M A) :
  same f m → (∀ e, same f (h e)) → same f (try_catch m h).
Proof.
  intros Hm Hh w. unfold try_catch. specialize (Hm w).
  destruct (m w) as [[a|e] w1]; simpl in *; [done|].
  by rewrite Hh.
Qed.

End Frame.

Create HintDb frame discriminated.
Create HintDb frame_unfold discriminated.

Ltac frame_update :=
  apply same_update; intros ?; cbn;
  unfold selected_source, random_flag; cbn;
  rewrite ?lookup_insert_ne, ?lookup_delete_ne by (vm_compute; discriminate);
  reflexivity.

#[local] Hint Unfold picture_url request_backend resolve_source getSelectedSource_validated
  available first_available random_available setSelectedSource clearSelectedSource
  setItem removeItem getItem cachePicture showError setInfoPanelVisible
  use_cached_sources cached_or_nothing : frame_unfold.

Ltac frame_step :=
  first
    [ solve [eauto with frame]
    | apply same_ret | apply same_throw | apply same_read
    | apply same_bind; [|intros ?]
    | apply same_try_catch; [|intros ?]
    | solve [frame_update]
    | progress cbv zeta
    | progress autounfold with frame_unfold
    | case_match ].

Ltac frame := solve [repeat frame_step].

Lemma same_fetch {B} (f : World → B) (env : Env) (url : string) :
  (∀ g w, f (with_requests g w) = f w) → same f (fetch env url).
Proof.
  intros H. unfold fetch. apply same_bind; [apply same_update; intros; apply H|].
  intros _. destruct (network env url); [apply same_throw|apply same_ret].
Qed.

Lemma same_Math_random {B} (f : World → B) :
  (∀ l w, f (with_random l w) = f w) → same f Math_random.
Proof.
  intros H w. unfold Math_random. destruct (random w); [done|]. simpl. apply H.
Qed.

Lemma same_json {B} (f : World → B) (b : body) : same f (json b).
Proof. unfold json. frame. Qed.

Lemma same_as_array {B} (f : World → B) (b : body) : same f (as_array b).
Proof. unfold as_array. frame. Qed.

Lemma same_as_object {B} (f : World → B) (b : body) : same f (as_object b).
Proof. unfold as_object. frame. Qed.

Lemma same_JSON_parse {B} (f : World → B) (c : cell) : same f (JSON_parse c).
Proof. unfold JSON_parse. frame. Qed.

Lemma same_getItem {B} (f : World → B) (k : string) : same f (getItem k).
Proof. apply same_read. Qed.

#[local] Hint Resolve same_json same_as_array same_as_object same_JSON_parse same_getItem : frame.

#[local] Hint Extern 1 (same _ (fetch _ _)) =>
  apply same_fetch; intros; reflexivity : frame.
#[local] Hint Extern 1 (same _ Math_random) =>
  apply same_Math_random; intros; reflexivity : frame.

(** None of the functions init calls shows an error itself. *)
Lemma errors_loadAvailableSources (env : Env) (api : string) (b : bool) :
  same errors (Common.loadAvailableSources env api b).
Proof.
  unfold Common.loadAvailableSources, loadAvailableSources_refresh, cached_or_nothing,
    use_cached_sources, available, setItem.
  frame.
Qed.

Lemma errors_updateSourceSelector (env : Env) (b : bool) :
  same errors (Extension.updateSourceSelector env b).
Proof.
  pose proof errors_loadAvailableSources.
  unfold Extension.updateSourceSelector, Extension.loadAvailableSources,
    available, first_available, removeItem.
  frame.
Qed.

Lemma random_flag_updateSourceSelector (env : Env) (b : bool) :
  same random_flag (Extension.updateSourceSelector env b).
Proof.
  unfold Extension.updateSourceSelector, Extension.loadAvailableSources,
    Common.loadAvailableSources, loadAvailableSources_refresh, cached_or_nothing,
    use_cached_sources, available, first_available, setItem, removeItem.
  frame.
Qed.

Lemma errors_getRandomSource : same errors Extension.getRandomSource.
Proof. unfold Extension.getRandomSource, random_available. frame. Qed.

Lemma selected_source_getRandomSource : same selected_source Extension.getRandomSource.
Proof. unfold Extension.getRandomSource, random_available. frame. Qed.

Lemma AVAILABLE_SOURCES_getRandomSource : same AVAILABLE_SOURCES Extension.getRandomSource.
Proof. unfold Extension.getRandomSource, random_available. frame. Qed.

Lemma errors_loadBingPictures (env : Env) (b : bool) :
  same errors (Extension.loadBingPictures env b).
Proof. unfold Extension.loadBingPictures, setItem. frame. Qed.

Lemma AVAILABLE_SOURCES_loadBingPictures (env : Env) (b : bool) :
  same AVAILABLE_SOURCES (Extension.loadBingPictures env b).
Proof. unfold Extension.loadBingPictures, setItem. frame. Qed.

Lemma unchanged_isCacheValid (env : Env) (source : jsval) :
  same id (isCacheValid env source).
Proof. unfold isCacheValid. frame. Qed.

Lemma unchanged_getCachedPicture (env : Env) (source : jsval) :
  same id (getCachedPicture env source).
Proof.
  pose proof unchanged_isCacheValid.
  unfold getCachedPicture. frame.
Qed.

Lemma unchanged_displayPicture (data : obj) : same id (Extension.displayPicture data).
Proof. unfold Extension.displayPicture. frame. Qed.

Lemma errors_fetchPicture (env : Env) (source : jsval) :
  same errors (Extension.fetchPicture env source).
Proof.
  unfold Extension.fetchPicture, resolve_source, getSelectedSource_validated, picture_url,
    request_backend, available, first_available, setSelectedSource, setItem, removeItem.
  frame.
Qed.

Lemma errors_cachePicture (env : Env) (data : obj) : same errors (cachePicture env data).
Proof. unfold cachePicture, setSelectedSource, setItem. frame. Qed.

Lemma same_run {A B} (f : World → B) (m : M A) (w w' : World) (o : outcome A) :
  same f m → m w = (o, w') → f w' = f w.
Proof. intros H Hrun. specialize (H w). by rewrite Hrun in H. Qed.

(** A truthy result of getRandomSource is one of the enabled sources. *)
Lemma getRandomSource_enabled (w w' : World) (o : outcome jsval) :
  Extension.getRandomSource w = (o, w') →
  ∃ source, o = Ok source ∧ (truthy source = true → source ∈ AVAILABLE_SOURCES w).
Proof.
  unfold Extension.getRandomSource, random_available, bind, read, ret.
  destruct (AVAILABLE_SOURCES w) as [|x l] eqn:Hl.
  - intros [= <- <-]. by exists JNull.
  - destruct (Math_random w) as [[r|e] w1] eqn:Hr.
    2:{ unfold Math_random in Hr. destruct (random w); discriminate. }
    intros [= <- <-]. eexists. split; [reflexivity|].
    match goal with |- context [(0 <=? ?i)%Z] => destruct (0 <=? i)%Z end; [|done].
    match goal with |- context [?a !! ?n] => destruct (a !! n) as [s|] eqn:Hs end;
      [|done].
    intros _. rewrite <- Hl. exact (list_elem_of_lookup_2 _ _ _ Hs).
Qed.

(** A cache hit is a hit for the stored selected source. *)
Lemma getCachedPicture_hit (env : Env) (source : jsval) (w w' : World) (data : obj) :
  getCachedPicture env source w = (Ok (Some data), w') →
  cell_value (selected_source w) = source.
Proof.
  unfold getCachedPicture. intros H.
  apply bind_Ok in H as (valid & w1 & Hv & H).
  unfold isCacheValid, bind, getItem, read, ret in Hv. injection Hv as <- <-.
  match type of H with context [negb ?b] => destruct b eqn:Hb end; [|discriminate].
  apply andb_true_iff in Hb as [_ Hb]. by apply strict_eq_true in Hb.
Qed.

Lemma request_backend_Ok (env : Env) (normalize : obj → jsval → obj)
    (url : string) (selectedSource : jsval) (w w' : World) (data : obj) :
  request_backend env normalize url selectedSource w = (Ok data, w') →
  ∃ d, data = normalize d selectedSource.
Proof.
  unfold request_backend. intros H.
  apply bind_Ok in H as (r & w1 & _ & H).
  apply bind_Ok in H as (_ & w2 & _ & H).
  apply bind_Ok in H as (parsed & w3 & _ & H).
  apply bind_Ok in H as (d & w4 & _ & H).
  destruct (truthy (get d "error")); [discriminate|].
  destruct (truthy (get d "title")); [|discriminate].
  injection H as <- _. by exists d.
Qed.

(** The record the extension fetches for an enabled source carries that
    source. *)
Lemma fetchPicture_source (env : Env) (source : jsval) (w w' : World) (data : obj) :
  truthy source = true →
  source ∈ AVAILABLE_SOURCES w →
  Extension.fetchPicture env source w = (Ok data, w') →
  get data "source" = source.
Proof.
  intros Ht Hin. unfold Extension.fetchPicture. intros H.
  apply bind_Ok in H as (sel & w1 & Hsel & H).
  rewrite resolve_source_listed in Hsel by done. injection Hsel as <- <-.
  apply bind_Ok in H as (url & w2 & _ & H).
  apply request_backend_Ok in H as [d ->]. reflexivity.
Qed.

Lemma cachePicture_selects (env : Env) (data : obj) (w : World) :
  truthy (get data "source") = true →
  cachePicture env data w
  = (Ok tt,
     with_localStorage
       (λ ls, <[SOURCE_KEY := Text (ToString (get data "source"))]>
                (<[CACHE_DATE_KEY := Text (today env)]>
                   (<[CACHE_KEY := JsonObj data]> ls))) w).
Proof.
  intros Ht. unfold cachePicture. rewrite Ht. destruct w. reflexivity.
Qed.

Lemma truthy_cell_value (c : option cell) :
  truthy (cell_value c) = true → cell_value c = JStr (ToString (cell_value c)).
Proof. destruct c; [reflexivity|discriminate]. Qed.

(** Once a source is chosen, an init that gets as far as showing the picture
    leaves that source in the selected-source cell. *)
Lemma load_picture_selects (env : Env) (randomEnabled : bool) (source : jsval) (w w' : World) :
  truthy source = true →
  source ∈ AVAILABLE_SOURCES w →
  Extension.load_picture env randomEnabled source w = (Ok tt, w') →
  cell_value (selected_source w') = JStr (ToString source).
Proof.
  intros Ht Hin. unfold Extension.load_picture. intros H.
  apply bind_Ok in H as (picker & w1 & Hp & H). injection Hp as <- <-.
  apply bind_Ok in H as ([] & w2 & Hbing & H).
  assert (Hin2 : source ∈ AVAILABLE_SOURCES w2).
  { replace (AVAILABLE_SOURCES w2) with (AVAILABLE_SOURCES w); [done|].
    symmetry. eapply same_run; [|exact Hbing].
    pose proof AVAILABLE_SOURCES_loadBingPictures. frame. }
  apply bind_Ok in H as (cached & w3 & Hc & H).
  assert (w3 = w2) as ->.
  { apply (same_run id _ _ _ _ (unchanged_getCachedPicture env source) Hc). }
  apply bind_Ok in H as (pictureData & w4 & Hd & H).
  assert (w' = w4) as ->.
  { apply (same_run id _ _ _ _ (unchanged_displayPicture pictureData) H). }
  destruct cached as [data|].
  - injection Hd as <- <-.
    apply getCachedPicture_hit in Hc. rewrite <- Hc in Ht |- *.
    by apply truthy_cell_value.
  - apply bind_Ok in Hd as (data & w5 & Hf & Hd).
    apply fetchPicture_source in Hf; [|done|done].
    apply bind_Ok in Hd as ([] & w6 & Hcache & Hd). injection Hd as <- <-.
    rewrite cachePicture_selects in Hcache by (by rewrite Hf).
    injection Hcache as <-. rewrite Hf.
    unfold selected_source. simpl. by rewrite lookup_insert_eq.
Qed.

Lemma AVAILABLE_SOURCES_load_picture (env : Env) (b : bool) (source : jsval) :
  same AVAILABLE_SOURCES (Extension.load_picture env b source).
Proof.
  pose proof AVAILABLE_SOURCES_loadBingPictures.
  assert (∀ source, same AVAILABLE_SOURCES (getCachedPicture env source)).
  { intros s w. pose proof (unchanged_getCachedPicture env s w) as Hw.
    unfold id in Hw. by rewrite Hw. }
  assert (∀ data, same AVAILABLE_SOURCES (Extension.displayPicture data)).
  { intros d w. pose proof (unchanged_displayPicture d w) as Hw.
    unfold id in Hw. by rewrite Hw. }
  unfold Extension.load_picture, Extension.fetchPicture, resolve_source,
    getSelectedSource_validated, picture_url, request_backend, available, first_available,
    cachePicture, setSelectedSource, setItem, removeItem.
  frame.
Qed.

Lemma errors_load_picture (env : Env) (b : bool) (source : jsval) :
  same errors (Extension.load_picture env b source).
Proof.
  pose proof errors_loadBingPictures. pose proof errors_fetchPicture.
  pose proof errors_cachePicture.
  assert (∀ source, same errors (getCachedPicture env source)).
  { intros s w. pose proof (unchanged_getCachedPicture env s w) as Hw.
    unfold id in Hw. by rewrite Hw. }
  assert (∀ data, same errors (Extension.displayPicture data)).
  { intros d w. pose proof (unchanged_displayPicture d w) as Hw.
    unfold id in Hw. by rewrite Hw. }
  unfold Extension.load_picture. frame.
Qed.

Lemma grows_same {A} (m : M A) : same errors m → grows m.
Proof. intros H w. by rewrite H. Qed.

Lemma grows_bind {A C} (m : M A) (k : A → M C) :
  grows m → (∀ a, grows (k a)) → grows (bind m k).
Proof.
  intros Hm Hk w. unfold bind. specialize (Hm w).
  destruct (m w) as [[a|e] w1]; simpl in *; [|done].
  specialize (Hk a w1). lia.
Qed.

Lemma grows_showError (message : string) : grows (showError message).
Proof. intros w. simpl. rewrite length_app. lia. Qed.

Lemma showError_adds (message : string) (w : World) :
  length (errors (showError message w).2) = S (length (errors w)).
Proof. simpl. rewrite length_app. simpl. lia. Qed.

Ltac grow_step :=
  first
    [ apply grows_showError
    | solve [eauto with frame]
    | solve [apply grows_same; frame]
    | apply grows_bind; [|intros ?]
    | progress cbv zeta
    | case_match ].

Ltac grow := solve [repeat grow_step].

Lemma grows_select_source (b : bool) : grows (Extension.select_source b).
Proof.
  pose proof errors_getRandomSource.
  unfold Extension.select_source, Extension.getSelectedSource.
  destruct b; grow.
Qed.

Lemma grows_init_try (env : Env) : grows (Extension.init_try env).
Proof.
  pose proof errors_updateSourceSelector. pose proof errors_load_picture.
  pose proof grows_select_source.
  unfold Extension.init_try. grow.
Qed.

Lemma selected_source_select_source_random :
  same selected_source (Extension.select_source true).
Proof.
  pose proof selected_source_getRandomSource.
  unfold Extension.select_source, showError, setInfoPanelVisible, setItem.
  frame.
Qed.

(** In random mode the choice either is an enabled source, made without
    showing an error, or is missing, with an error shown. *)
Lemma select_source_random (w w' : World) (chosen : option jsval) :
  Extension.select_source true w = (Ok chosen, w') →
  match chosen with
  | Some source =>
      truthy source = true ∧ source ∈ AVAILABLE_SOURCES w ∧
      AVAILABLE_SOURCES w' = AVAILABLE_SOURCES w ∧ errors w' = errors w
  | None => length (errors w') = S (length (errors w))
  end.
Proof.
  unfold Extension.select_source. intros H.
  apply bind_Ok in H as (source & w1 & Hr & H).
  pose proof (same_run _ _ _ _ _ errors_getRandomSource Hr) as He.
  pose proof (same_run _ _ _ _ _ AVAILABLE_SOURCES_getRandomSource Hr) as Ha.
  apply getRandomSource_enabled in Hr as (s & [= <-] & Hin).
  destruct (truthy source) eqn:Ht; simpl in H.
  - injection H as <- <-. simpl. auto.
  - apply bind_Ok in H as ([] & w2 & Hs & H). injection H as <- <-.
    pose proof (showError_adds "No picture sources are currently enabled." w1) as Hadd.
    rewrite Hs in Hadd. simpl in Hadd. by rewrite Hadd, He.
Qed.

(** C3. The code breaks the claim. With random mode on (the flag is unset)
    and no selected source stored, one initialization that fetches the
    picture leaves 'apod', the source it picked, in [picture_source]; a
    second one, which picks 'wikipedia', replaces it. The choice of the
    source in random mode stores nothing (the earlier text of the page says
    "show the random selection (but don't save it)"); the write is
    cachePicture's, which init calls after every fetch. *)
Theorem init_random_mode_writes_selected_source :
  let env := Examples.env_with (λ url,
    if String.eqb url Examples.sources_url
    then Response 200 (BodyArr [Examples.apod_entry; Examples.wikipedia_entry])
    else if String.eqb url Examples.today_apod_url
    then Response 200 (BodyObj Examples.apod_picture)
    else if String.eqb url Examples.today_wikipedia_url
    then Response 200 (BodyObj Examples.apod_picture)
    else NetworkFailure "Failed to fetch") in
  let w0 := Examples.fresh [(1 # 4)%Q; (3 # 4)%Q] in
  let w1 := (Extension.init env w0).2 in
  let w2 := (Extension.init env w1).2 in
  random_enabled (random_flag w0) = true ∧
  selected_source w0 = None ∧
  errors w1 = [] ∧
  selected_source w1 = Some (Text "apod") ∧
  random_enabled (random_flag w1) = true ∧
  errors w2 = [] ∧
  selected_source w2 = Some (Text "wikipedia").
Proof.
  intros env w0 w1 w2.
  repeat split; vm_compute; reflexivity.
Qed.

(** Switching random mode on clears the selected source, and the
    initialization the handler then runs stores the new pick. *)
Example toggle_random_on_then_init :
  let env := Examples.env_with (λ url,
    if String.eqb url Examples.sources_url
    then Response 200 (BodyArr [Examples.apod_entry; Examples.wikipedia_entry])
    else if String.eqb url Examples.today_wikipedia_url
    then Response 200 (BodyObj Examples.apod_picture)
    else NetworkFailure "Failed to fetch") in
  let w0 := Examples.with_store
              (<[RANDOM_ON_NEW_TAB_KEY := Text "false"]>
                 (<[SOURCE_KEY := Text "apod"]> ∅))
              (Examples.fresh [(3 # 4)%Q]) in
  let w1 := (Extension.toggleRandom_change env true w0).2 in
  random_flag w1 = Some (Text "true") ∧
  errors w1 = [] ∧
  selected_source w1 = Some (Text "wikipedia").
Proof. repeat split; vm_compute; reflexivity. Qed.

(** * Further properties of the code *)

(** ** Settings *)

(** X1. The two visibility settings survive a write and a read: what
    setDimensionsOverlayVisible / setInfoPanelVisible stored is what the getter
    returns, over any earlier value; with nothing stored the overlay reads as
    hidden and the info panel as visible; neither setting touches the other;
    and the write-back the script does on load changes no reading. *)
Theorem visibility_settings_round_trip (w : World) (visible : bool) :
  (getDimensionsOverlayVisible (setDimensionsOverlayVisible visible w).2).1 = Ok visible ∧
  (getInfoPanelVisible (setInfoPanelVisible visible w).2).1 = Ok visible ∧
  (getDimensionsOverlayVisible (removeItem DIMENSIONS_VISIBLE_KEY w).2).1 = Ok false ∧
  (getInfoPanelVisible (removeItem INFO_PANEL_VISIBLE_KEY w).2).1 = Ok true ∧
  (getInfoPanelVisible (setDimensionsOverlayVisible visible w).2).1 = (getInfoPanelVisible w).1 ∧
  (getDimensionsOverlayVisible (setInfoPanelVisible visible w).2).1
    = (getDimensionsOverlayVisible w).1 ∧
  (getDimensionsOverlayVisible (initSettings w).2).1 = (getDimensionsOverlayVisible w).1 ∧
  (getInfoPanelVisible (initInfoPanel w).2).1 = (getInfoPanelVisible w).1.
Proof.
  assert (Hd : ∀ v w', (getDimensionsOverlayVisible (setDimensionsOverlayVisible v w').2).1 = Ok v).
  { intros v w'. unfold getDimensionsOverlayVisible, setDimensionsOverlayVisible, setItem,
      getItem, bind, read, update, ret. cbn. rewrite lookup_insert_eq. by destruct v. }
  assert (Hi : ∀ v w', (getInfoPanelVisible (setInfoPanelVisible v w').2).1 = Ok v).
  { intros v w'. unfold getInfoPanelVisible, setInfoPanelVisible, setItem,
      getItem, bind, read, update, ret. cbn. rewrite lookup_insert_eq. by destruct v. }
  assert (Hd0 : ∀ w', ∃ v, getDimensionsOverlayVisible w' = (Ok v, w')) by (by eexists).
  assert (Hi0 : ∀ w', ∃ v, getInfoPanelVisible w' = (Ok v, w')) by (by eexists).
  split; [apply Hd|]. split; [apply Hi|].
  split.
  { unfold getDimensionsOverlayVisible, removeItem, getItem, bind, read, update, ret.
    cbn. by rewrite lookup_delete_eq. }
  split.
  { unfold getInfoPanelVisible, removeItem, getItem, bind, read, update, ret.
    cbn. by rewrite lookup_delete_eq. }
  split.
  { unfold getInfoPanelVisible, setDimensionsOverlayVisible, setItem, getItem, bind, read,
      update, ret. cbn. by rewrite lookup_insert_ne by (vm_compute; discriminate). }
  split.
  { unfold getDimensionsOverlayVisible, setInfoPanelVisible, setItem, getItem, bind, read,
      update, ret. cbn. by rewrite lookup_insert_ne by (vm_compute; discriminate). }
  split.
  - unfold initSettings, bind. destruct (Hd0 w) as [v Hv]. rewrite Hv. by rewrite Hd.
  - unfold initInfoPanel, bind. destruct (Hi0 w) as [v Hv]. rewrite Hv. by rewrite Hi.
Qed.

(** ** Choosing the source *)




(** X3. While some source is enabled, getSelectedSource of the extension
    answers null or an enabled source, and leaves no stale selection behind:
    a stored selection that is not enabled is removed (together with the
    pinned Bing date when that selection was 'bing'), and an enabled one is
    returned with the store untouched. *)
Theorem getSelectedSource_drops_stale_selection (w : World) :
  AVAILABLE_SOURCES w ≠ [] →
  let run := Extension.getSelectedSource w in
  ∃ v, run.1 = Ok v ∧
    (v = JNull ∨
     (v ∈ AVAILABLE_SOURCES w ∧ v = cell_value (selected_source w) ∧ run.2 = w)) ∧
    (cell_truthy (selected_source run.2) = true →
     cell_value (selected_source run.2) ∈ AVAILABLE_SOURCES w) ∧
    (cell_truthy (selected_source w) = true →
     cell_value (selected_source w) ∉ AVAILABLE_SOURCES w →
     v = JNull ∧ selected_source run.2 = None ∧
     (cell_value (selected_source w) = JStr "bing" → bing_date run.2 = None)).
Proof.
  intros Hne run. subst run.
  unfold Extension.getSelectedSource, getSelectedSource_validated, bind, getItem, read, ret,
    removeItem, update, selected_source, bing_date.
  destruct (cell_truthy (localStorage w !! SOURCE_KEY)) eqn:Ht;
    cbn -[SOURCE_KEY BING_PICTURE_KEY cell_truthy cell_value].
  2:{ exists JNull. split; [done|]. split; [by left|]. split; [|done].
      intros Ht'. rewrite Ht in Ht'. done. }
  rewrite (bool_decide_true _ Hne). cbn -[SOURCE_KEY BING_PICTURE_KEY cell_truthy cell_value].
  destruct (bool_decide (cell_value (localStorage w !! SOURCE_KEY) ∈ AVAILABLE_SOURCES w))
    eqn:Hin; cbn -[SOURCE_KEY BING_PICTURE_KEY cell_truthy cell_value].
  - apply bool_decide_eq_true in Hin.
    eexists. split; [reflexivity|]. split; [right; done|]. split; [done|]. done.
  - apply bool_decide_eq_false in Hin.
    destruct (strict_eq (cell_value (localStorage w !! SOURCE_KEY)) (JStr "bing")) eqn:Hb;
      cbn -[SOURCE_KEY BING_PICTURE_KEY cell_truthy cell_value].
    + exists JNull. split; [done|]. split; [by left|].
      rewrite lookup_delete_ne by (vm_compute; discriminate).
      rewrite !lookup_delete_eq. split; [done|]. intros _ _. done.
    + exists JNull. split; [done|]. split; [by left|].
      rewrite !lookup_delete_eq. split; [done|]. intros _ _. split; [done|]. split; [done|].
      intros Hbing. apply strict_eq_false in Hb. done.
Qed.

Lemma getSelectedSource_drops_stale_selection_witness :
  let w := Examples.with_store
             (<[BING_PICTURE_KEY := Text "2024-01-10"]> (<[SOURCE_KEY := Text "bing"]> ∅))
             (with_AVAILABLE_SOURCES [JStr "apod"] (Examples.fresh [])) in
  let run := Extension.getSelectedSource w in
  run.1 = Ok JNull ∧ selected_source run.2 = None ∧ bing_date run.2 = None.
Proof.
  intros w run.
  destruct (getSelectedSource_drops_stale_selection w) as (v & Hv & _ & _ & H);
    [discriminate|].
  destruct H as (-> & Hs & Hb); [reflexivity | | ].
  - intros Hin. apply list_elem_of_singleton in Hin. discriminate.
  - split; [exact Hv|]. split; [exact Hs|]. apply Hb. reflexivity.
Defined.

(** ** fetchPicture of the extension *)

Lemma getSelectedSource_validated_outcome (w : World) :
  ∃ v w1,
    getSelectedSource_validated w = (Ok v, w1) ∧
    AVAILABLE_SOURCES w1 = AVAILABLE_SOURCES w ∧
    requests w1 = requests w ∧
    bingPictureSelect w1 = bingPictureSelect w ∧
    (AVAILABLE_SOURCES w = [] → w1 = w).
Proof.
  unfold getSelectedSource_validated, bind, getItem, read, ret, removeItem, update.
  destruct (cell_truthy (localStorage w !! SOURCE_KEY)); cbn; [|by eexists _, _].
  destruct (AVAILABLE_SOURCES w) as [|x l] eqn:Hl.
  - rewrite (bool_decide_false (@nil jsval ≠ [])) by (intros H; by apply H).
    cbn. by eexists _, _.
  - rewrite bool_decide_true by done. cbn.
    repeat case_match; simplify_eq; eexists _, _; (split; [reflexivity|]); cbn;
      rewrite ?Hl; repeat split; done.
Qed.

(** The source fetchPicture settles on is an enabled one; it gives up only
    when nothing is enabled, and then it has changed nothing. *)
Lemma resolve_source_outcome (source : jsval) (w : World) :
  match resolve_source source w with
  | (Ok selectedSource, w') =>
      selectedSource ∈ AVAILABLE_SOURCES w ∧
      AVAILABLE_SOURCES w' = AVAILABLE_SOURCES w ∧
      requests w' = requests w ∧
      bingPictureSelect w' = bingPictureSelect w
  | (Throw e, w') =>
      AVAILABLE_SOURCES w = [] ∧ e = no_sources_message ∧ w' = w
  end.
Proof.
  assert (H1 : ∃ v w1,
    (if truthy source then ret source else getSelectedSource_validated) w = (Ok v, w1) ∧
    AVAILABLE_SOURCES w1 = AVAILABLE_SOURCES w ∧
    requests w1 = requests w ∧
    bingPictureSelect w1 = bingPictureSelect w ∧
    (AVAILABLE_SOURCES w = [] → w1 = w)).
  { destruct (truthy source); [by exists source, w|].
    apply getSelectedSource_validated_outcome. }
  destruct H1 as (v & w1 & H1 & Ha & Hr & Hb & He).
  unfold resolve_source. unfold bind at 1. rewrite H1.
  unfold available, first_available, setSelectedSource, setItem, bind, read, update, ret, throw.
  cbn. rewrite !Ha.
  destruct (AVAILABLE_SOURCES w) as [|x l] eqn:Hl.
  - rewrite (He eq_refl) in *.
    rewrite (bool_decide_false (v ∈ [])) by apply not_elem_of_nil.
    destruct (truthy v) eqn:Hv; cbn; rewrite ?Hl, ?Hv; cbn; rewrite ?Hl; cbn; done.
  - destruct (truthy v) eqn:Hv; cbn.
    + destruct (bool_decide (v ∈ x :: l)) eqn:Hin; cbn.
      * rewrite Hv. cbn. apply bool_decide_eq_true in Hin. done.
      * rewrite Ha. rewrite bool_decide_true by done. cbn. rewrite Ha. cbn.
        destruct (truthy x); cbn; rewrite ?Ha; cbn; rewrite ?Ha; cbn;
          (split; [apply list_elem_of_here|done]).
    + rewrite Hv. cbn. rewrite Ha. cbn. rewrite ?Ha. cbn.
      split; [apply list_elem_of_here|done].
Qed.

Lemma request_backend_requests (env : Env) (normalize : obj → jsval → obj)
    (url : string) (selectedSource : jsval) (w : World) :
  (request_backend env normalize url selectedSource w).2 = requested url w.
Proof.
  unfold request_backend, fetch, bind, update, requested.
  destruct (network env url) as [msg|status b]; simpl; [done|].
  destruct (ok status); simpl; [|done].
  destruct b as [| |o|l]; simpl; try done.
  - destruct (truthy (get o "error")); [done|].
    destruct (truthy (get o "title")); done.
Qed.

Lemma request_backend_Ok_title (env : Env) (normalize : obj → jsval → obj)
    (url : string) (selectedSource : jsval) (w w' : World) (data : obj) :
  request_backend env normalize url selectedSource w = (Ok data, w') →
  ∃ d, data = normalize d selectedSource ∧ truthy (get d "title") = true.
Proof.
  unfold request_backend. intros H.
  apply bind_Ok in H as (r & w1 & _ & H).
  apply bind_Ok in H as (_ & w2 & _ & H).
  apply bind_Ok in H as (parsed & w3 & _ & H).
  apply bind_Ok in H as (d & w4 & _ & H).
  destruct (truthy (get d "error")); [discriminate|].
  destruct (truthy (get d "title")) eqn:Ht; [|discriminate].
  injection H as <- _. by exists d.
Qed.

Lemma picture_url_cases (api : string) (selectedSource : jsval) (w : World) :
  ∃ url,
    picture_url api selectedSource w = (Ok url, w) ∧
    (url = api +:+ "/today/" +:+ ToString selectedSource +:+ "/" ∨
     selectedSource = JStr "bing" ∧ ∃ d, url = api +:+ "/date/" +:+ d +:+ "/bing/").
Proof.
  unfold picture_url, bind, getItem, read, ret.
  destruct (strict_eq selectedSource (JStr "bing")) eqn:Hb; [|eexists; split; [done|by left]].
  apply strict_eq_true in Hb.
  match goal with |- context [if truthy ?d then _ else _] => destruct (truthy d) end;
    eexists; (split; [reflexivity|]); [right|left]; [|done].
  split; [done|]. by eexists.
Qed.

(** X4. fetchPicture of the extension either finds no enabled source, and
    then throws its message without a request or a write, or makes exactly
    one request, for a source that is enabled: today's picture of that
    source, or a dated Bing picture. A record it returns carries that source
    and a title. An enabled source that is asked for is the one used. *)
Theorem fetchPicture_asks_for_enabled_source (env : Env) (source : jsval) (w : World) :
  let run := Extension.fetchPicture env source w in
  (AVAILABLE_SOURCES w = [] ∧ run = (Throw no_sources_message, w)) ∨
  ∃ selectedSource url,
    selectedSource ∈ AVAILABLE_SOURCES w ∧
    (url = Extension.PICTURES_API_URL env +:+ "/today/" +:+ ToString selectedSource +:+ "/" ∨
     selectedSource = JStr "bing" ∧
     ∃ d, url = Extension.PICTURES_API_URL env +:+ "/date/" +:+ d +:+ "/bing/") ∧
    requests run.2 = (requests w ++ [url])%list ∧
    AVAILABLE_SOURCES run.2 = AVAILABLE_SOURCES w ∧
    (truthy source = true → source ∈ AVAILABLE_SOURCES w → selectedSource = source) ∧
    (∀ data, run.1 = Ok data →
       get data "source" = selectedSource ∧ truthy (get data "title") = true).
Proof.
  intros run. subst run. unfold Extension.fetchPicture, bind.
  pose proof (resolve_source_outcome source w) as Hres.
  pose proof (resolve_source_listed source w) as Hlisted.
  destruct (resolve_source source w) as [[sel|e] w1].
  2:{ left. destruct Hres as (Hnil & -> & ->). done. }
  right. destruct Hres as (Hin & Ha & Hr & _).
  destruct (picture_url_cases (Extension.PICTURES_API_URL env) sel w1) as (url & Hurl & Hform).
  exists sel, url. rewrite Hurl.
  split; [done|]. split; [done|].
  pose proof (request_backend_requests env Extension.normalizePictureData url sel w1) as Hw.
  destruct (request_backend env Extension.normalizePictureData url sel w1) as [o w2] eqn:Hrun.
  simpl in Hw. subst w2. simpl.
  split; [by rewrite Hr|]. split; [done|]. split.
  - intros Ht Hs. specialize (Hlisted Ht Hs). congruence.
  - intros data ->.
    apply request_backend_Ok_title in Hrun as (d & -> & Ht). done.
Qed.

Lemma resolve_source_replaces (source first : jsval) (rest : list jsval) (w : World) :
  truthy source = true →
  source ∉ AVAILABLE_SOURCES w →
  AVAILABLE_SOURCES w = first :: rest →
  resolve_source source w
  = (Ok first,
     with_sourceSelect (set_value (ToString first))
       (with_localStorage (insert SOURCE_KEY (Text (ToString first))) w)).
Proof.
  intros Ht Hout Hl.
  unfold resolve_source, available, first_available, setSelectedSource, setItem,
    bind, read, update, ret.
  rewrite Ht. cbn. rewrite (bool_decide_false _ Hout). rewrite Ht. cbn.
  rewrite Hl. rewrite bool_decide_true by done. cbn. rewrite Hl. cbn.
  destruct (truthy first); cbn; rewrite ?Hl; [reflexivity|].
  rewrite bool_decide_false by done. cbn. by rewrite Hl.
Qed.

(** X5. Asked for a source that is not enabled while others are, fetchPicture
    of the extension switches to the first enabled source, saves it as the
    selected source, shows it in the drop-down, and makes its one request for
    that source. *)
Theorem fetchPicture_replaces_disabled_source
    (env : Env) (source first : jsval) (rest : list jsval) (w : World) :
  truthy source = true →
  source ∉ AVAILABLE_SOURCES w →
  AVAILABLE_SOURCES w = first :: rest →
  let run := Extension.fetchPicture env source w in
  selected_source run.2 = Some (Text (ToString first)) ∧
  sourceSelect run.2 = set_value (ToString first) (sourceSelect w) ∧
  (∃ url, requests run.2 = (requests w ++ [url])%list) ∧
  (∀ data, run.1 = Ok data → get data "source" = first).
Proof.
  intros Ht Hout Hl run. subst run. unfold Extension.fetchPicture, bind.
  rewrite (resolve_source_replaces source first rest w Ht Hout Hl).
  match goal with |- context [picture_url ?api first ?w1] =>
    destruct (picture_url_cases api first w1) as (url & -> & _);
    pose proof (request_backend_requests env Extension.normalizePictureData url first w1) as Hw;
    destruct (request_backend env Extension.normalizePictureData url first w1)
      as [o w2] eqn:Hrun
  end.
  simpl in Hw. subst w2. split; [|split; [|split]].
  - unfold selected_source. cbn. by rewrite lookup_insert_eq.
  - reflexivity.
  - by exists url.
  - intros data Hd. simpl in Hd. subst o.
    by apply request_backend_Ok in Hrun as [d ->].
Qed.

Lemma fetchPicture_replaces_disabled_source_witness :
  let env := Examples.env_with (λ _, Response 200 (BodyObj Examples.apod_picture)) in
  let w := with_AVAILABLE_SOURCES [JStr "apod"; JStr "wikipedia"] (Examples.fresh []) in
  let run := Extension.fetchPicture env (JStr "bing") w in
  selected_source run.2 = Some (Text "apod") ∧
  requests run.2 = [Examples.today_apod_url] ∧
  ∀ data, run.1 = Ok data → get data "source" = JStr "apod".
Proof.
  intros env w run.
  destruct (fetchPicture_replaces_disabled_source env (JStr "bing") (JStr "apod")
              [JStr "wikipedia"] w) as (H1 & _ & _ & H2).
  - reflexivity.
  - intros H. apply list_elem_of_In in H. simpl in H. intuition discriminate.
  - reflexivity.
  - split; [exact H1|]. split; [reflexivity|exact H2].
Defined.

Lemma resolve_source_default (source first : jsval) (rest : list jsval) (w : World) :
  truthy source = false →
  AVAILABLE_SOURCES w = first :: rest →
  cell_truthy (selected_source w) = false ∨
    cell_value (selected_source w) ∉ AVAILABLE_SOURCES w →
  ∃ w1,
    resolve_source source w = (Ok first, w1) ∧
    cell_truthy (selected_source w1) = false ∧
    sourceSelect w1 = sourceSelect w ∧
    requests w1 = requests w ∧
    (cell_truthy (selected_source w) = false → w1 = w).
Proof.
  intros Ht Hl Hsel. unfold selected_source in *.
  assert (H1 : ∃ w1,
    getSelectedSource_validated w = (Ok JNull, w1) ∧
    cell_truthy (localStorage w1 !! SOURCE_KEY) = false ∧
    sourceSelect w1 = sourceSelect w ∧ requests w1 = requests w ∧
    AVAILABLE_SOURCES w1 = AVAILABLE_SOURCES w ∧
    (cell_truthy (localStorage w !! SOURCE_KEY) = false → w1 = w)).
  { unfold getSelectedSource_validated, bind, getItem, read, ret, removeItem, update.
    destruct (cell_truthy (localStorage w !! SOURCE_KEY)) eqn:Hc;
      cbn -[SOURCE_KEY BING_PICTURE_KEY cell_truthy cell_value]; [|by exists w].
    destruct Hsel as [|Hout]; [done|].
    rewrite Hl. rewrite bool_decide_true by done.
    rewrite Hl in Hout. rewrite (bool_decide_false _ Hout).
    cbn -[SOURCE_KEY BING_PICTURE_KEY cell_truthy cell_value].
    destruct (strict_eq _ (JStr "bing"));
      cbn -[SOURCE_KEY BING_PICTURE_KEY cell_truthy cell_value];
      eexists; (split; [reflexivity|]); cbn -[SOURCE_KEY BING_PICTURE_KEY];
      rewrite ?lookup_delete_ne by done; rewrite lookup_delete_eq; done. }
  destruct H1 as (w1 & H1 & Hc & Hs & Hr & Ha & Hw).
  exists w1. split; [|done].
  unfold resolve_source. rewrite Ht. unfold bind at 1. rewrite H1.
  unfold available, first_available, bind, read, ret. cbn.
  rewrite Ha, Hl. rewrite bool_decide_false by done. by rewrite Ha, Hl.
Qed.

(** X6. Called without a source on a page whose stored selection is missing
    or no longer enabled, fetchPicture of the extension fetches the first
    enabled source and does not save it: no selected source is stored
    afterwards, and the drop-down is as it was. With no stored selection the
    store is not written at all. *)
Theorem fetchPicture_default_is_not_saved
    (env : Env) (source first : jsval) (rest : list jsval) (w : World) :
  truthy source = false →
  AVAILABLE_SOURCES w = first :: rest →
  cell_truthy (selected_source w) = false ∨
    cell_value (selected_source w) ∉ AVAILABLE_SOURCES w →
  let run := Extension.fetchPicture env source w in
  cell_truthy (selected_source run.2) = false ∧
  sourceSelect run.2 = sourceSelect w ∧
  (cell_truthy (selected_source w) = false → localStorage run.2 = localStorage w) ∧
  (∃ url, requests run.2 = (requests w ++ [url])%list) ∧
  (∀ data, run.1 = Ok data → get data "source" = first).
Proof.
  intros Ht Hl Hsel run. subst run. unfold Extension.fetchPicture, bind.
  destruct (resolve_source_default source first rest w Ht Hl Hsel)
    as (w1 & -> & Hc & Hs & Hr & Hw).
  destruct (picture_url_cases (Extension.PICTURES_API_URL env) first w1) as (url & -> & _).
  pose proof (request_backend_requests env Extension.normalizePictureData url first w1) as Hw2.
  destruct (request_backend env Extension.normalizePictureData url first w1)
    as [o w2] eqn:Hrun.
  simpl in Hw2. subst w2. split; [|split; [|split; [|split]]].
  - exact Hc.
  - exact Hs.
  - intros Hf. by rewrite (Hw Hf).
  - exists url. simpl. by rewrite Hr.
  - intros data Hd. simpl in Hd. subst o.
    by apply request_backend_Ok in Hrun as [d ->].
Qed.

Lemma fetchPicture_default_is_not_saved_witness :
  let env := Examples.env_with (λ _, Response 200 (BodyObj Examples.apod_picture)) in
  let w := Examples.with_store (<[SOURCE_KEY := Text "bing"]> ∅)
             (with_AVAILABLE_SOURCES [JStr "apod"; JStr "wikipedia"] (Examples.fresh [])) in
  let run := Extension.fetchPicture env JNull w in
  cell_truthy (selected_source run.2) = false ∧
  requests run.2 = [Examples.today_apod_url] ∧
  ∀ data, run.1 = Ok data → get data "source" = JStr "apod".
Proof.
  intros env w run.
  destruct (fetchPicture_default_is_not_saved env JNull (JStr "apod")
              [JStr "wikipedia"] w) as (H1 & _ & _ & _ & H2).
  - reflexivity.
  - reflexivity.
  - right. intros H. apply list_elem_of_In in H. simpl in H. intuition discriminate.
  - split; [exact H1|]. split; [reflexivity|exact H2].
Defined.

(** X7. Which Bing picture fetchPicture asks for: the pinned date in the
    store if there is one, whatever the date picker shows; else the date the
    picker shows; else today's picture. *)
Theorem fetchPicture_bing_date_precedence (env : Env) (w : World) :
  JStr "bing" ∈ AVAILABLE_SOURCES w →
  let run := Extension.fetchPicture env (JStr "bing") w in
  let api := Extension.PICTURES_API_URL env in
  let picked := default "" (value_of <$> bingPictureSelect w) in
  requests run.2
  = (requests w ++
       [if cell_truthy (bing_date w)
        then api +:+ "/date/" +:+ ToString (cell_value (bing_date w)) +:+ "/bing/"
        else if String.eqb picked "" then api +:+ "/today/bing/"
        else api +:+ "/date/" +:+ picked +:+ "/bing/"])%list.
Proof.
  intros Hin run api picked. subst run. unfold Extension.fetchPicture, bind.
  rewrite (resolve_source_listed (JStr "bing") w eq_refl Hin).
  assert (Hurl : picture_url api (JStr "bing") w
    = (Ok (if cell_truthy (bing_date w)
           then api +:+ "/date/" +:+ ToString (cell_value (bing_date w)) +:+ "/bing/"
           else if String.eqb picked "" then api +:+ "/today/bing/"
           else api +:+ "/date/" +:+ picked +:+ "/bing/"), w)).
  { unfold picture_url. rewrite (proj2 (strict_eq_true _ _) eq_refl).
    unfold bind, getItem, read, ret, bing_date. subst picked. cbv beta iota.
    destruct (localStorage w !! BING_PICTURE_KEY) as [c|] eqn:Hc.
    - destruct (cell_truthy (Some c)) eqn:Ht; cbn -[cell_truthy cell_value String.eqb].
      + assert (Hv : truthy (cell_value (Some c)) = true).
        { destruct c as [s| |]; [|done..]. simpl in *. by destruct s. }
        by rewrite Hv.
      + destruct c as [s| |]; [|done..].
        assert (s = "") as -> by (simpl in Ht; by destruct s).
        destruct (bingPictureSelect w) as [sel|]; cbn; [|done].
        destruct (value_of sel) eqn:Hs; cbn; done.
    - cbn. destruct (bingPictureSelect w) as [sel|]; cbn; [|done].
      destruct (value_of sel) eqn:Hs; cbn; done. }
  subst api. rewrite Hurl.
  by rewrite request_backend_requests.
Qed.

Lemma fetchPicture_bing_date_precedence_witness :
  let env := Examples.env_with (λ _, NetworkFailure "offline") in
  let picker := {| options := [""; "2024-01-14"]; selected := Some "2024-01-14" |} in
  let w := Examples.with_store (<[BING_PICTURE_KEY := Text "2024-01-10"]> ∅)
             (with_bingPictureSelect (λ _, picker) (Examples.fresh [])) in
  requests (Extension.fetchPicture env (JStr "bing") w).2
  = ["https://picture.example/api/pictures/date/2024-01-10/bing/"].
Proof.
  intros env picker w.
  apply (fetchPicture_bing_date_precedence env w).
  apply list_elem_of_In. simpl. tauto.
Defined.
Lemma parseInt_truthy (c : option cell) (t : Z) :
  parseInt (ToString (cell_value c)) = Some t → cell_truthy c = true.
Proof.
  destruct c as [[s|o|l]|]; try done.
  destruct s; [discriminate|done].
Qed.

Lemma refresh_outcome (env : Env) (api : string) (w : World) :
  ∃ l w',
    loadAvailableSources_refresh env api w = (Ok l, w') ∧
    AVAILABLE_SOURCES w' = values l ∧
    requests w' = (requests w ++ [api +:+ "/sources/"])%list ∧
    sourceSelect w' = sourceSelect w ∧
    bingPictureSelect w' = bingPictureSelect w ∧
    errors w' = errors w ∧
    random w' = random w.
Proof.
  assert (Hcatch : ∀ w0, ∃ l w',
    cached_or_nothing w0 = (Ok l, w') ∧
    AVAILABLE_SOURCES w' = values l ∧ requests w' = requests w0 ∧
    sourceSelect w' = sourceSelect w0 ∧ bingPictureSelect w' = bingPictureSelect w0 ∧
    errors w' = errors w0 ∧ random w' = random w0).
  { intros w0. rewrite cached_or_nothing_run.
    destruct (localStorage w0 !! SOURCES_CACHE_KEY) as [[t|o|l]|]; by eexists _, _. }
  pose proof (Hcatch (with_requests (λ l, (l ++ [api +:+ "/sources/"])%list) w)) as Hc.
  simpl in Hc.
  unfold loadAvailableSources_refresh, try_catch, fetch, bind, update.
  destruct (network env (api +:+ "/sources/")) as [msg|status b]; simpl; [apply Hc|].
  destruct (ok status); simpl; [|apply Hc].
  destruct b as [| |o|l]; simpl; try apply Hc.
  by eexists _, _.
Qed.

Lemma loadAvailableSources_run (env : Env) (api : string) (forceRefresh : bool) (w : World) :
  let hit := λ t cached,
    forceRefresh = false ∧
    parseInt (ToString (cell_value (localStorage w !! SOURCES_CACHE_DATE_KEY))) = Some t ∧
    (now env - t < (if isLocalhost env then 10000 else 30000))%Z ∧
    localStorage w !! SOURCES_CACHE_KEY = Some (JsonArr cached) ∧
    (cell_truthy (selected_source w) = false ∨
     cell_value (selected_source w) ∈ values (enabled_only cached)) in
  (∃ t cached, hit t cached ∧
     Common.loadAvailableSources env api forceRefresh w
     = (Ok (enabled_only cached), with_AVAILABLE_SOURCES (values (enabled_only cached)) w)) ∨
  ((∀ t cached, ¬ hit t cached) ∧
   ∃ w1, (w1 = w ∨ ∃ l0, w1 = with_AVAILABLE_SOURCES l0 w) ∧
     Common.loadAvailableSources env api forceRefresh w
     = loadAvailableSources_refresh env api w1).
Proof.
  intros hit. subst hit. cbv beta.
  remember (Common.loadAvailableSources env api forceRefresh w) as run eqn:Hrun.
  unfold selected_source.
  unfold Common.loadAvailableSources in Hrun.
  destruct forceRefresh; cbn [negb] in Hrun; cbv beta iota in Hrun.
  { right. split; [intros t c (? & _); done|]. exists w. split; [by left|by subst run]. }
  unfold bind at 1 in Hrun. unfold getItem at 1 in Hrun. unfold read at 1 in Hrun.
  cbv beta iota in Hrun.
  unfold bind at 1 in Hrun. unfold getItem at 1 in Hrun. unfold read at 1 in Hrun.
  cbv beta iota in Hrun.
  change (10 * 1000)%Z with 10000%Z in Hrun. change (30 * 1000)%Z with 30000%Z in Hrun.
  destruct (localStorage w !! SOURCES_CACHE_KEY) as [c|] eqn:Hc.
  2:{ right. split; [intros t c (_ & _ & _ & ? & _); done|].
      exists w. split; [by left|by subst run]. }
  destruct (parseInt (ToString (cell_value (localStorage w !! SOURCES_CACHE_DATE_KEY))))
    as [t|] eqn:Ht.
  2:{ rewrite !andb_false_r in Hrun.
      right. split; [intros t c' (_ & ? & _); done|].
      exists w. split; [by left|by subst run]. }
  rewrite (parseInt_truthy _ _ Ht) in Hrun.
  destruct (now env - t <? (if isLocalhost env then 10000 else 30000))%Z eqn:Hfresh.
  2:{ rewrite !andb_false_r in Hrun.
      right. split.
      - intros t' c' (_ & [= <-] & Hlt & _). apply Z.ltb_ge in Hfresh. lia.
      - exists w. split; [by left|by subst run]. }
  apply Z.ltb_lt in Hfresh.
  destruct c as [s|o|cached].
  - right. split; [intros t' c' (_ & _ & _ & ? & _); done|].
    exists w. split; [by left|]. subst run. simpl. by destruct (negb (s =? "")).
  - right. split; [intros t' c' (_ & _ & _ & ? & _); done|].
    exists w. split; [by left|]. subst run. reflexivity.
  - change (cell_truthy (Some (JsonArr cached))) with true in Hrun.
    cbn [andb] in Hrun. cbv beta iota in Hrun.
    unfold try_catch, use_cached_sources, available, bind, getItem, read, update, ret in Hrun.
    cbn -[loadAvailableSources_refresh cell_truthy cell_value SOURCE_KEY] in Hrun.
    destruct (cell_truthy (localStorage w !! SOURCE_KEY)) eqn:Hs; cbn [andb] in Hrun.
    + destruct (bool_decide (cell_value (localStorage w !! SOURCE_KEY)
                             ∈ values (enabled_only cached))) eqn:Hin;
        cbn [negb] in Hrun; cbv beta iota in Hrun.
      * left. exists t, cached. apply bool_decide_eq_true in Hin.
        split; [|done]. repeat split; try done. by right.
      * right. apply bool_decide_eq_false in Hin. split.
        -- intros t' c' (_ & _ & _ & [= <-] & [?|?]); done.
        -- exists (with_AVAILABLE_SOURCES (values (enabled_only cached)) w).
           split; [right; by eexists|].
           destruct (refresh_outcome env api
                       (with_AVAILABLE_SOURCES (values (enabled_only cached)) w))
             as (l & w' & Hw' & _). rewrite Hw' in Hrun. by rewrite Hw'.
    + left. exists t, cached. split; [|done]. repeat split; try done. by left.
Qed.

(** X8. loadAvailableSources never throws. The working set it leaves is
    exactly the names of the entries it returns, none of which is disabled;
    it makes at most one request, to the sources endpoint, and touches
    neither drop-down nor the shown errors. *)
Theorem loadAvailableSources_publishes_what_it_returns
    (env : Env) (PICTURES_API_URL : string) (forceRefresh : bool) (w : World) :
  let run := Common.loadAvailableSources env PICTURES_API_URL forceRefresh w in
  ∃ sources,
    run.1 = Ok sources ∧
    AVAILABLE_SOURCES run.2 = values sources ∧
    (∀ s, s ∈ sources → get s "enabled" ≠ JBool false) ∧
    (requests run.2 = requests w ∨
     requests run.2 = (requests w ++ [PICTURES_API_URL +:+ "/sources/"])%list) ∧
    sourceSelect run.2 = sourceSelect w ∧
    bingPictureSelect run.2 = bingPictureSelect w ∧
    errors run.2 = errors w.
Proof.
  intros run.
  destruct (loadAvailableSources_never_disabled env PICTURES_API_URL forceRefresh w)
    as (l & Hl & Hen).
  exists l. split; [exact Hl|]. fold run in Hl.
  destruct (loadAvailableSources_run env PICTURES_API_URL forceRefresh w)
    as [(t & cached & _ & Hrun)|(_ & w1 & Hw1 & Hrun)]; fold run in Hrun.
  - rewrite Hrun in Hl |- *. injection Hl as <-. simpl.
    repeat split; try done. by left.
  - destruct (refresh_outcome env PICTURES_API_URL w1)
      as (l' & w' & Hw' & Ha & Hr & Hs & Hb & He & _).
    rewrite Hw' in Hrun. rewrite Hrun in Hl |- *. injection Hl as <-. simpl.
    rewrite Ha, Hr, Hs, Hb, He.
    destruct Hw1 as [->|[l0 ->]]; repeat split; try done; by right.
Qed.

Lemma app_singleton_ne {A} (l : list A) (x : A) : (l ++ [x])%list ≠ l.
Proof.
  intros H. apply (f_equal length) in H. rewrite length_app in H. simpl in H. lia.
Qed.

(** parseInt skips leading white space, the no-break space included, reads
    a sign, a hexadecimal prefix and the digits, and stops at the first
    character that is not a digit. *)
Example parseInt_examples :
  parseInt (nbsp +:+ "1705312790000") = Some 1705312790000 ∧
  parseInt " 42px" = Some 42 ∧
  parseInt "-7" = Some (-7) ∧
  parseInt "0x1F" = Some 31 ∧
  parseInt "px" = None.
Proof. repeat split; vm_compute; reflexivity. Qed.

(** A time stamp stored after a no-break space still counts: ten seconds
    old, it lets the stored catalog answer without a request. *)
Example cache_date_after_no_break_space :
  let w := Examples.with_store
             (<[SOURCES_CACHE_DATE_KEY := Text (nbsp +:+ "1705312790000")]>
                (<[SOURCES_CACHE_KEY := JsonArr [Examples.apod_entry]]> ∅))
             (Examples.fresh []) in
  let run := Common.loadAvailableSources (Examples.env_with (λ _, NetworkFailure "offline"))
               "https://picture.example/api/pictures" false w in
  run.1 = Ok [Examples.apod_entry] ∧ requests run.2 = [].
Proof. split; vm_compute; reflexivity. Qed.

(** X9. loadAvailableSources answers from the stored catalog, without a
    request, exactly when it is not forced, the stored time stamp parses and
    is less than the cache time old (10 s on localhost, 30 s elsewhere), the
    stored catalog is an array, and the stored selected source is missing or
    among the catalog's enabled names. A fresh catalog in which the selected
    source is no longer enabled is therefore reloaded. *)
Theorem loadAvailableSources_answers_from_cache_iff
    (env : Env) (PICTURES_API_URL : string) (forceRefresh : bool) (w : World) :
  let run := Common.loadAvailableSources env PICTURES_API_URL forceRefresh w in
  (requests run.2 = requests w ↔
   forceRefresh = false ∧
   ∃ t cached,
     parseInt (ToString (cell_value (localStorage w !! SOURCES_CACHE_DATE_KEY))) = Some t ∧
     (now env - t < (if isLocalhost env then 10000 else 30000))%Z ∧
     localStorage w !! SOURCES_CACHE_KEY = Some (JsonArr cached) ∧
     (cell_truthy (selected_source w) = false ∨
      cell_value (selected_source w) ∈ values (enabled_only cached))) ∧
  (∀ cached,
     requests run.2 = requests w →
     localStorage w !! SOURCES_CACHE_KEY = Some (JsonArr cached) →
     run = (Ok (enabled_only cached),
            with_AVAILABLE_SOURCES (values (enabled_only cached)) w)).
Proof.
  intros run.
  assert (Hrefresh : ∀ w1, (w1 = w ∨ ∃ l0, w1 = with_AVAILABLE_SOURCES l0 w) →
            run = loadAvailableSources_refresh env PICTURES_API_URL w1 →
            requests run.2 ≠ requests w).
  { intros w1 Hw1 Hrun Hreq.
    destruct (refresh_outcome env PICTURES_API_URL w1) as (l' & w' & Hw' & _ & Hr & _).
    rewrite Hw' in Hrun. rewrite Hrun in Hreq. simpl in Hreq. rewrite Hr in Hreq.
    destruct Hw1 as [->|[l0 ->]]; by apply app_singleton_ne in Hreq. }
  destruct (loadAvailableSources_run env PICTURES_API_URL forceRefresh w)
    as [(t & cached & (Hf & Ht & Hlt & Hc & Hs) & Hrun)|(Hno & w1 & Hw1 & Hrun)];
    fold run in Hrun.
  - split.
    + split.
      * intros _. split; [done|]. by exists t, cached.
      * intros _. by rewrite Hrun.
    + intros cached' _ Hc'. rewrite Hc in Hc'. by injection Hc' as <-.
  - split.
    + split.
      * intros Hreq. by destruct (Hrefresh w1 Hw1 Hrun).
      * intros (Hf & t & cached & Ht & Hlt & Hc & Hs). by destruct (Hno t cached).
    + intros cached' Hreq _. by destruct (Hrefresh w1 Hw1 Hrun).
Qed.

(** ** The source drop-down *)

Lemma loadAvailableSources_store (env : Env) (api : string) (b : bool) (key : string) :
  key ≠ SOURCES_CACHE_KEY → key ≠ SOURCES_CACHE_DATE_KEY →
  same (λ w, localStorage w !! key) (Common.loadAvailableSources env api b).
Proof.
  intros H1 H2.
  assert (Hup : ∀ c, same (λ w, localStorage w !! key) (setItem SOURCES_CACHE_KEY c)).
  { intros c w. cbn. by rewrite lookup_insert_ne. }
  assert (Hup' : ∀ c, same (λ w, localStorage w !! key) (setItem SOURCES_CACHE_DATE_KEY c)).
  { intros c w. cbn. by rewrite lookup_insert_ne. }
  unfold Common.loadAvailableSources, loadAvailableSources_refresh, cached_or_nothing,
    use_cached_sources, available.
  frame.
Qed.

Lemma loadAvailableSources_outcome (env : Env) (api : string) (b : bool) (w : World) :
  ∃ sources w1,
    Common.loadAvailableSources env api b w = (Ok sources, w1) ∧
    AVAILABLE_SOURCES w1 = values sources ∧
    (∀ s, s ∈ sources → get s "enabled" ≠ JBool false) ∧
    sourceSelect w1 = sourceSelect w ∧
    bingPictureSelect w1 = bingPictureSelect w ∧
    errors w1 = errors w ∧
    random w1 = random w ∧
    (∀ key, key ≠ SOURCES_CACHE_KEY → key ≠ SOURCES_CACHE_DATE_KEY →
       localStorage w1 !! key = localStorage w !! key) ∧
    (requests w1 = requests w ∨
     requests w1 = (requests w ++ [api +:+ "/sources/"])%list).
Proof.
  destruct (loadAvailableSources_never_disabled env api b w) as (l & Hl & Hen).
  pose proof (λ key H1 H2, loadAvailableSources_store env api b key H1 H2 w) as Hstore.
  cbv beta in Hstore.
  destruct (loadAvailableSources_run env api b w)
    as [(t & cached & _ & Hrun)|(_ & w1 & Hw1 & Hrun)].
  - rewrite Hrun in Hl, Hstore |- *. injection Hl as <-.
    eexists _, _. split; [done|]. repeat split; try done. by left.
  - destruct (refresh_outcome env api w1) as (l' & w' & Hw' & Ha & Hr & Hs & Hb & He & Hd).
    rewrite Hw' in Hrun. rewrite Hrun in Hl, Hstore |- *. injection Hl as <-.
    exists l', w'. split; [done|]. rewrite Hs, Hb, He, Hd, Hr.
    destruct Hw1 as [->|[l0 ->]]; repeat split; try done; by right.
Qed.

Lemma fill_options (sources : list obj) (sel : select) :
  (∀ s, s ∈ sources → get s "enabled" ≠ JBool false) →
  options (foldl (λ sel source,
                    if negb (strict_eq (get source "enabled") (JBool false))
                    then appendChild (ToString (get source "value")) sel
                    else sel) sel sources)
  = (options sel ++ (ToString <$> values sources))%list.
Proof.
  revert sel. induction sources as [|s l IH]; intros sel Hen; simpl.
  - by rewrite app_nil_r.
  - assert (Hs : strict_eq (get s "enabled") (JBool false) = false).
    { apply strict_eq_false, Hen, list_elem_of_here. }
    rewrite Hs. simpl. rewrite IH.
    + simpl. by rewrite <- app_assoc.
    + intros s' Hs'. apply Hen. by apply list_elem_of_further.
Qed.

Lemma set_value_listed (v : string) (sel : select) :
  v ∈ options sel → set_value v sel = {| options := options sel; selected := Some v |}.
Proof. intros H. unfold set_value. by rewrite bool_decide_true. Qed.

(** What updateSourceSelector leaves, from what loadAvailableSources
    returned. *)
Lemma updateSourceSelector_run (env : Env) (forceRefresh : bool) (w : World) :
  ∃ sources w1 w2,
    Extension.loadAvailableSources env forceRefresh w = (Ok sources, w1) ∧
    Extension.updateSourceSelector env forceRefresh w = (Ok tt, w2) ∧
    AVAILABLE_SOURCES w2 = values sources ∧
    bingPictureSelect w2 = bingPictureSelect w ∧
    requests w2 = requests w1 ∧
    errors w2 = errors w ∧
    random w2 = random w ∧
    (∀ key, key ≠ SOURCES_CACHE_KEY → key ≠ SOURCES_CACHE_DATE_KEY →
       localStorage w1 !! key = localStorage w !! key) ∧
    let current := value_of (sourceSelect w) in
    let names := ToString <$> values sources in
    match sources with
    | [] => sourceSelect w2 = placeholder_option ∧ localStorage w2 = localStorage w1
    | s :: _ =>
        let first := get s "value" in
        if negb (String.eqb current "") && bool_decide (JStr current ∈ values sources) then
          sourceSelect w2 = {| options := names; selected := Some current |} ∧
          localStorage w2 = localStorage w1
        else
          sourceSelect w2 = {| options := names; selected := Some (ToString first) |} ∧
          localStorage w2
          = if String.eqb current "" then localStorage w1
            else if String.eqb current "bing"
                 then delete BING_PICTURE_KEY (delete SOURCE_KEY (localStorage w1))
                 else delete SOURCE_KEY (localStorage w1)
    end.
Proof.
  destruct (loadAvailableSources_outcome env (Extension.PICTURES_API_URL env) forceRefresh w)
    as (sources & w1 & Hrun & Ha & Hen & Hs & Hb & He & Hd & Hk & _).
  exists sources, w1.
  unfold Extension.updateSourceSelector. unfold bind at 1.
  unfold Extension.loadAvailableSources. rewrite Hrun.
  unfold available, first_available, removeItem, bind, read, update, ret.
  rewrite Hs.
  destruct sources as [|s l].
  - eexists. split; [done|]. split; [reflexivity|]. cbn. done.
  - cbv iota. remember (s :: l) as sources eqn:Hsrc. cbn -[foldl values].
    assert (Hopts : ∀ sel, options sel = [] →
      options (foldl (λ sel source,
                        if negb (strict_eq (get source "enabled") (JBool false))
                        then appendChild (ToString (get source "value")) sel
                        else sel) sel sources)
      = ToString <$> values sources).
    { intros sel Hsel. by rewrite fill_options, Hsel. }
    assert (Hv : values sources = get s "value" :: values l) by by rewrite Hsrc.
    rewrite !Ha.
    assert (Hfirst : ToString (get s "value") ∈ ToString <$> values sources).
    { rewrite Hv. apply list_elem_of_here. }
    destruct (negb (value_of (sourceSelect w) =? "")) eqn:Hcur; cbn [andb].
    + destruct (bool_decide (JStr (value_of (sourceSelect w)) ∈ values sources)) eqn:Hin;
        cbn [negb].
      * eexists. split; [done|]. split; [reflexivity|]. cbn -[foldl values].
        repeat split; try done.
        rewrite set_value_listed; [by rewrite Hopts|].
        rewrite Hopts by done. apply bool_decide_eq_true in Hin.
        by apply (list_elem_of_fmap_2 ToString) in Hin.
      * rewrite (bool_decide_true (values sources ≠ [])) by by rewrite Hv.
        cbn -[foldl values]. rewrite Ha.
        apply negb_true_iff in Hcur.
        destruct (value_of (sourceSelect w) =? "bing") eqn:Hbing; cbn -[foldl values];
          (eexists; split; [done|]; split; [reflexivity|]; cbn -[foldl values];
           rewrite Hcur;
           repeat split; try done;
           rewrite Hv at 1; cbn [head default]; rewrite set_value_listed;
           [by rewrite Hopts|by rewrite Hopts]).
    + rewrite (bool_decide_true (values sources ≠ [])) by by rewrite Hv.
      cbn -[foldl values]. rewrite Ha.
      apply negb_false_iff in Hcur.
      eexists; split; [done|]; split; [reflexivity|]; cbn -[foldl values].
      rewrite Hcur.
      repeat split; try done.
      rewrite Hv at 1. cbn [head default]. rewrite set_value_listed;
        [by rewrite Hopts|by rewrite Hopts].
Qed.

(** X10. updateSourceSelector never throws, and the drop-down it leaves
    mirrors the working set: one option per enabled source, in order, with an
    enabled source selected, namely the one that was selected before if it is
    still enabled, else the first. With nothing enabled the drop-down holds
    the one placeholder option. *)
Theorem updateSourceSelector_mirrors_enabled_sources
    (env : Env) (forceRefresh : bool) (w : World) :
  let run := Extension.updateSourceSelector env forceRefresh w in
  let enabled := AVAILABLE_SOURCES run.2 in
  let current := value_of (sourceSelect w) in
  run.1 = Ok tt ∧
  (enabled = [] → sourceSelect run.2 = placeholder_option) ∧
  (enabled ≠ [] →
     options (sourceSelect run.2) = ToString <$> enabled ∧
     value_of (sourceSelect run.2) ∈ ToString <$> enabled ∧
     value_of (sourceSelect run.2)
     = if negb (String.eqb current "") && bool_decide (JStr current ∈ enabled)
       then current
       else ToString (default JUndefined (head enabled))).
Proof.
  intros run enabled current. subst run enabled current.
  destruct (updateSourceSelector_run env forceRefresh w)
    as (sources & w1 & w2 & _ & -> & Ha & _ & _ & _ & _ & _ & H).
  cbv zeta in H. simpl. rewrite Ha. split; [done|].
  destruct sources as [|s l].
  - split; [intros _; apply H|done].
  - split; [done|]. intros _.
    destruct (negb (value_of (sourceSelect w) =? "") &&
              bool_decide (JStr (value_of (sourceSelect w)) ∈ values (s :: l))) eqn:Hc;
      destruct H as [-> _]; simpl; (split; [done|]); (split; [|done]).
    + apply andb_true_iff in Hc as [_ Hin]. apply bool_decide_eq_true in Hin.
      by apply (list_elem_of_fmap_2 ToString) in Hin.
    + apply list_elem_of_here.
Qed.

(** X11. updateSourceSelector removes the stored selected source exactly
    when the drop-down showed a source that is no longer enabled while others
    are, whatever the stored selection was; it removes the pinned Bing date
    as well when that source was 'bing'. In every other case it leaves both
    as they were. *)
Theorem updateSourceSelector_stale_value_clears_selection
    (env : Env) (forceRefresh : bool) (w : World) :
  let run := Extension.updateSourceSelector env forceRefresh w in
  let enabled := AVAILABLE_SOURCES run.2 in
  let current := value_of (sourceSelect w) in
  let stale := negb (String.eqb current "") && negb (bool_decide (JStr current ∈ enabled))
               && bool_decide (enabled ≠ []) in
  selected_source run.2 = (if stale then None else selected_source w) ∧
  bing_date run.2 = (if stale && String.eqb current "bing" then None else bing_date w).
Proof.
  intros run enabled current stale. subst stale run enabled current.
  destruct (updateSourceSelector_run env forceRefresh w)
    as (sources & w1 & w2 & _ & -> & Ha & _ & _ & _ & _ & Hk & H).
  cbv zeta in H. simpl. rewrite Ha. unfold selected_source, bing_date.
  rewrite <- (Hk SOURCE_KEY), <- (Hk BING_PICTURE_KEY) by done.
  destruct sources as [|s l].
  - destruct H as [_ ->]. rewrite (bool_decide_false (values [] ≠ [])) by (intros ?; done).
    by rewrite !andb_false_r.
  - rewrite (bool_decide_true (values (s :: l) ≠ [])) by done. rewrite !andb_true_r.
    destruct (negb (value_of (sourceSelect w) =? "")) eqn:Hcur; cbn [andb] in *.
    + destruct (bool_decide (JStr (value_of (sourceSelect w)) ∈ values (s :: l)));
        cbn [negb andb] in *; destruct H as [_ ->]; [done|].
      apply negb_true_iff in Hcur. rewrite Hcur.
      destruct (value_of (sourceSelect w) =? "bing").
      * rewrite lookup_delete_ne by done. by rewrite !lookup_delete_eq.
      * rewrite lookup_delete_eq. by rewrite lookup_delete_ne.
    + destruct H as [_ ->]. apply negb_false_iff in Hcur. by rewrite Hcur.
Qed.

(** ** Initialisation *)

Lemma getRandomSource_outcome (w : World) :
  ∃ source w',
    Extension.getRandomSource w = (Ok source, w') ∧
    localStorage w' = localStorage w ∧ errors w' = errors w ∧
    AVAILABLE_SOURCES w' = AVAILABLE_SOURCES w ∧ requests w' = requests w ∧
    sourceSelect w' = sourceSelect w ∧ bingPictureSelect w' = bingPictureSelect w ∧
    (truthy source = true → source ∈ AVAILABLE_SOURCES w).
Proof.
  destruct (Extension.getRandomSource w) as [o w'] eqn:Hrun.
  destruct (getRandomSource_enabled w w' o Hrun) as (source & -> & Hin).
  exists source, w'. split; [done|].
  revert Hrun. unfold Extension.getRandomSource, random_available, Math_random, bind, read, ret.
  destruct (AVAILABLE_SOURCES w) eqn:Hl; [by intros [= _ <-]|].
  destruct (random w); by intros [= _ <-].
Qed.

Lemma showError_run (message : string) (w : World) :
  showError message w
  = (Ok tt, with_localStorage (insert INFO_PANEL_VISIBLE_KEY (Text "true"))
              (with_errors (λ l, (l ++ [message])%list) w)).
Proof. reflexivity. Qed.

(** The source init settles on: either a source, chosen without showing an
    error, or none, and then showError has just run. *)
Lemma select_source_outcome (randomEnabled : bool) (w : World) :
  ∃ chosen w',
    Extension.select_source randomEnabled w = (Ok chosen, w') ∧
    match chosen with
    | Some source => errors w' = errors w
    | None => ∃ w0, errors w0 = errors w ∧
                    w' = (showError "No picture sources are currently enabled." w0).2
    end.
Proof.
  unfold Extension.select_source.
  assert (Hrandom : ∀ (k : jsval → M (option jsval)) w1,
    errors w1 = errors w →
    (∀ source w2, errors (k source w2).2 = errors w2 ∧ ∃ s, (k source w2).1 = Ok (Some s)) →
    ∃ chosen w',
      (source <- Extension.getRandomSource ;;
       if negb (truthy source) then
         showError "No picture sources are currently enabled." ;; ret None
       else k source) w1 = (Ok chosen, w') ∧
      match chosen with
      | Some source => errors w' = errors w
      | None => ∃ w0, errors w0 = errors w ∧
                      w' = (showError "No picture sources are currently enabled." w0).2
      end).
  { intros k w1 He Hk. unfold bind at 1.
    destruct (getRandomSource_outcome w1) as (source & w2 & -> & _ & He2 & _).
    destruct (truthy source); cbn [negb].
    - destruct (Hk source w2) as [Hke [s Hks]].
      destruct (k source w2) as [o w3]. simpl in *. subst o.
      exists (Some s), w3. split; [done|]. congruence.
    - exists None. eexists. split; [reflexivity|]. exists w2. split; [congruence|done]. }
  destruct randomEnabled.
  - apply Hrandom; [done|]. intros source w2. split; [done|]. by eexists.
  - unfold Extension.getSelectedSource. unfold bind at 1.
    destruct (getSelectedSource_validated_outcome w) as (v & w1 & Hrun & _).
    assert (Hsame : same errors getSelectedSource_validated)
      by (unfold getSelectedSource_validated; frame).
    pose proof (same_run errors _ _ _ _ Hsame Hrun) as He1.
    rewrite Hrun.
    destruct (truthy v); cbn [negb].
    + unfold available, first_available, setSelectedSource, setItem, bind, read, update, ret.
      destruct (negb (bool_decide (v ∈ AVAILABLE_SOURCES w1))); cbn; by eexists (Some _), _.
    + apply Hrandom; [done|]. intros source w2. split; [done|]. by eexists.
Qed.

Lemma init_try_outcome (env : Env) (w : World) :
  ∃ o w',
    Extension.init_try env w = (o, w') ∧
    (errors w' = errors w ∨
     o = Ok tt ∧ ∃ message w0, errors w0 = errors w ∧ w' = (showError message w0).2).
Proof.
  unfold Extension.init_try. unfold bind at 1.
  destruct (updateSourceSelector_run env (isLocalhost env) w)
    as (sources & w1 & w2 & _ & -> & _ & _ & _ & He & _).
  unfold bind at 1. unfold read at 1.
  destruct (AVAILABLE_SOURCES w2) as [|x l].
  - eexists _, _. split; [reflexivity|]. right. split; [done|]. by eexists _, w2.
  - unfold bind at 1. unfold getItem at 1. unfold read at 1. cbv zeta. unfold bind at 1.
    destruct (select_source_outcome (random_enabled (localStorage w2 !! RANDOM_ON_NEW_TAB_KEY)) w2)
      as (chosen & w3 & -> & Hc).
    destruct chosen as [source|].
    + pose proof (errors_load_picture env
        (random_enabled (localStorage w2 !! RANDOM_ON_NEW_TAB_KEY)) source w3) as Hl.
      destruct (Extension.load_picture env _ source w3) as [o w4].
      exists o, w4. split; [done|]. left. simpl in Hl. congruence.
    + destruct Hc as (w0 & He0 & ->).
      eexists _, _. split; [reflexivity|]. right. split; [done|].
      eexists _, w0. split; [congruence|done].
Qed.

Lemma init_never_throws (env : Env) (w : World) : (Extension.init env w).1 = Ok tt.
Proof.
  unfold Extension.init, try_catch.
  destruct (init_try_outcome env w) as (o & w' & -> & H).
  destruct o as [[]|e]; [done|]. by rewrite showError_run.
Qed.

(** X12. init never throws. It shows at most one error, and when it shows
    one it leaves the info panel stored as visible. *)
Theorem init_shows_at_most_one_error (env : Env) (w : World) :
  let run := Extension.init env w in
  run.1 = Ok tt ∧
  (errors run.2 = errors w ∨
   ∃ message, errors run.2 = (errors w ++ [message])%list ∧
              info_panel run.2 = Some (Text "true")).
Proof.
  intros run. subst run. unfold Extension.init, try_catch.
  destruct (init_try_outcome env w) as (o & w' & -> & H).
  destruct o as [[]|e].
  - split; [done|]. destruct H as [He|(_ & message & w0 & He & ->)]; [by left|].
    right. exists message. rewrite showError_run. simpl. rewrite He. split; [done|].
    unfold info_panel. simpl. by rewrite lookup_insert_eq.
  - destruct H as [He|[[=] _]].
    rewrite showError_run. simpl. split; [done|]. right. eexists. rewrite He.
    split; [done|]. unfold info_panel. simpl. by rewrite lookup_insert_eq.
Qed.

Lemma loadAvailableSources_nothing (env : Env) (api : string) (b : bool) (w : World) :
  fetch_fails (network env (api +:+ "/sources/")) →
  (∀ cached, localStorage w !! SOURCES_CACHE_KEY = Some (JsonArr cached) →
             enabled_only cached = []) →
  (Common.loadAvailableSources env api b w).1 = Ok [].
Proof.
  intros Hfail Hnone.
  destruct (loadAvailableSources_run env api b w)
    as [(t & cached & (_ & _ & _ & Hc & _) & ->)|(_ & w1 & Hw1 & ->)].
  - simpl. by rewrite (Hnone cached Hc).
  - rewrite (refresh_failure env api w1 Hfail), cached_or_nothing_run.
    assert (Hls : localStorage (with_requests (λ l, (l ++ [api +:+ "/sources/"])%list) w1)
                  = localStorage w) by (by destruct Hw1 as [->|[l0 ->]]).
    rewrite Hls.
    destruct (localStorage w !! SOURCES_CACHE_KEY) as [[s|o|c]|] eqn:Hc; try done.
    simpl. by rewrite (Hnone c eq_refl).
Qed.

(** X13. When the catalog cannot be fetched and the stored catalog, if any,
    has no enabled entry, init empties the working set, leaves the
    placeholder in the drop-down, shows the no-sources message, and asks for
    no picture: the only request it may have made is the one for the
    catalog. *)
Theorem init_without_sources (env : Env) (w : World) :
  fetch_fails (network env (Extension.PICTURES_API_URL env +:+ "/sources/")) →
  (∀ cached, localStorage w !! SOURCES_CACHE_KEY = Some (JsonArr cached) →
             enabled_only cached = []) →
  let run := Extension.init env w in
  run.1 = Ok tt ∧
  errors run.2 = (errors w ++ [no_sources_message])%list ∧
  AVAILABLE_SOURCES run.2 = [] ∧
  sourceSelect run.2 = placeholder_option ∧
  (requests run.2 = requests w ∨
   requests run.2 = (requests w ++ [Extension.PICTURES_API_URL env +:+ "/sources/"])%list).
Proof.
  intros Hfail Hnone run. subst run.
  pose proof (loadAvailableSources_nothing env _ (isLocalhost env) w Hfail Hnone) as Hload.
  destruct (loadAvailableSources_outcome env (Extension.PICTURES_API_URL env)
              (isLocalhost env) w) as (l & wl & Hl & _ & _ & _ & _ & _ & _ & _ & Hreq).
  rewrite Hl in Hload. injection Hload as ->.
  destruct (updateSourceSelector_run env (isLocalhost env) w)
    as (sources & w1 & w2 & Hrun & Hu & Ha & _ & Hr & He & _ & _ & H).
  unfold Extension.loadAvailableSources in Hrun. rewrite Hl in Hrun.
  injection Hrun as <- <-. cbv zeta iota in H. destruct H as [Hsel _]. simpl in Ha.
  assert (Hinit : Extension.init env w = (Ok tt, (showError no_sources_message w2).2)).
  { unfold Extension.init, try_catch, Extension.init_try.
    unfold bind at 1. rewrite Hu. unfold bind at 1. unfold read at 1. by rewrite Ha. }
  rewrite Hinit, showError_run. simpl.
  rewrite He, Ha, Hsel, Hr. done.
Qed.

Lemma init_without_sources_witness :
  let env := Examples.env_with (λ _, NetworkFailure "offline") in
  let run := Extension.init env (Examples.fresh []) in
  errors run.2 = [no_sources_message] ∧
  requests run.2 = [Examples.sources_url].
Proof.
  intros env run.
  destruct (init_without_sources env (Examples.fresh [])) as (_ & H1 & _ & _ & _).
  - exact I.
  - intros cached H. discriminate H.
  - split; [exact H1|reflexivity].
Defined.

(** ** The pinned Bing date *)

Lemma bing_date_loadBingPictures_random (env : Env) :
  same bing_date (Extension.loadBingPictures env true).
Proof.
  unfold bing_date, Extension.loadBingPictures.
  apply same_bind; [frame|intros picker].
  destruct picker as [sel|]; [|frame].
  apply same_try_catch; [|intros e; frame].
  apply same_bind; [frame|intros r].
  apply same_bind; [frame|intros _].
  apply same_bind; [frame|intros parsed].
  apply same_bind; [frame|intros _].
  apply same_bind; [frame|intros pictures].
  apply same_bind; [frame|intros _].
  apply same_bind; [frame|intros storedDate].
  destruct pictures as [|p ps].
  - rewrite (bool_decide_false (@nil obj ≠ [])) by (intros H; by apply H).
    cbn [andb]. frame.
  - rewrite bool_decide_true by done. cbn [andb]. frame.
Qed.

Lemma bing_date_fetchPicture (env : Env) (source : jsval) :
  truthy source = true → same bing_date (Extension.fetchPicture env source).
Proof.
  intros Ht. unfold bing_date, Extension.fetchPicture, resolve_source. rewrite Ht.
  frame.
Qed.

Lemma bing_date_load_picture_random (env : Env) (source : jsval) :
  truthy source = true → same bing_date (Extension.load_picture env true source).
Proof.
  intros Ht.
  pose proof (bing_date_loadBingPictures_random env) as H1.
  pose proof (bing_date_fetchPicture env source Ht) as H2.
  assert (H3 : ∀ s, same bing_date (getCachedPicture env s)).
  { intros s w. pose proof (unchanged_getCachedPicture env s w) as Hw.
    unfold id in Hw. by rewrite Hw. }
  assert (H4 : ∀ data, same bing_date (Extension.displayPicture data)).
  { intros d w. pose proof (unchanged_displayPicture d w) as Hw.
    unfold id in Hw. by rewrite Hw. }
  assert (H5 : ∀ data, same bing_date (cachePicture env data)).
  { intros d. unfold bing_date. frame. }
  unfold Extension.load_picture.
  apply same_bind; [apply same_read|intros picker].
  apply same_bind; [destruct picker; [destruct (strict_eq source (JStr "bing"))|];
                    [exact H1|apply same_ret|apply same_ret]|intros _].
  apply same_bind; [apply H3|intros cached].
  apply same_bind; [|intros data; apply H4].
  destruct cached; [apply same_ret|].
  apply same_bind; [exact H2|intros data].
  apply same_bind; [apply H5|intros _; apply same_ret].
Qed.

Lemma bing_date_select_source_random : same bing_date (Extension.select_source true).
Proof.
  assert (H : same bing_date Extension.getRandomSource).
  { unfold bing_date, Extension.getRandomSource. frame. }
  unfold Extension.select_source.
  apply same_bind; [exact H|intros source].
  unfold bing_date. frame.
Qed.

Lemma bing_date_showError (message : string) : same bing_date (showError message).
Proof. unfold bing_date. frame. Qed.

Lemma updateSourceSelector_bing_date (env : Env) (b : bool) (w : World) :
  let w' := (Extension.updateSourceSelector env b w).2 in
  bing_date w' = bing_date w ∨ bing_date w' = None.
Proof.
  destruct (updateSourceSelector_run env b w)
    as (sources & w1 & w2 & _ & -> & _ & _ & _ & _ & _ & Hk & H).
  cbv zeta in H. simpl. unfold bing_date. rewrite <- (Hk BING_PICTURE_KEY) by done.
  destruct sources as [|s l]; [destruct H as [_ ->]; by left|].
  destruct (_ && _); destruct H as [_ ->]; [by left|].
  destruct (value_of (sourceSelect w) =? ""); [by left|].
  destruct (value_of (sourceSelect w) =? "bing").
  - right. by rewrite lookup_delete_eq.
  - left. by rewrite lookup_delete_ne.
Qed.

Lemma init_try_random_bing_date (env : Env) (w : World) :
  random_enabled (random_flag w) = true →
  let w' := (Extension.init_try env w).2 in
  bing_date w' = bing_date w ∨ bing_date w' = None.
Proof.
  intros Hrandom.
  assert (Hgo : ∀ w2, random_enabled (random_flag w2) = true →
    bing_date
      (match AVAILABLE_SOURCES w2 with
       | [] => showError
                 "No picture sources are currently enabled. Please enable sources in the admin panel."
       | _ :: _ =>
           stored <- getItem RANDOM_ON_NEW_TAB_KEY ;;
           chosen <- Extension.select_source (random_enabled stored) ;;
           match chosen with
           | Some source => Extension.load_picture env (random_enabled stored) source
           | None => ret tt
           end
       end w2).2 = bing_date w2).
  { intros w2 Hr. destruct (AVAILABLE_SOURCES w2); [apply bing_date_showError|].
    unfold bind at 1. unfold getItem at 1. unfold read at 1. cbv beta iota.
    fold (random_flag w2). rewrite Hr. unfold bind.
    destruct (Extension.select_source true w2) as [[chosen|e] w3] eqn:Hs.
    2:{ simpl. by rewrite <- (same_run _ _ _ _ _ bing_date_select_source_random Hs). }
    pose proof (same_run _ _ _ _ _ bing_date_select_source_random Hs) as Hb.
    apply select_source_random in Hs.
    destruct chosen as [source|]; [|done].
    destruct Hs as (Ht & _).
    by rewrite (bing_date_load_picture_random env source Ht w3). }
  cbv zeta.
  pose proof (updateSourceSelector_bing_date env (isLocalhost env) w) as Hu.
  pose proof (random_flag_updateSourceSelector env (isLocalhost env) w) as Hf.
  destruct (updateSourceSelector_run env (isLocalhost env) w)
    as (sources & w1 & w2 & _ & Hrun & _).
  rewrite Hrun in Hu, Hf. simpl in Hu, Hf.
  assert (Heq : bing_date (Extension.init_try env w).2 = bing_date w2).
  { unfold Extension.init_try. unfold bind at 1. rewrite Hrun.
    unfold bind at 1. unfold read at 1. apply Hgo. by rewrite Hf. }
  by rewrite Heq.
Qed.

(** X14. With random mode on, init never pins a Bing date: the stored date
    afterwards is the one stored before, or none. The date it picks at random
    for the date picker is not saved. *)
Theorem init_random_mode_pins_no_bing_date (env : Env) (w : World) :
  random_enabled (random_flag w) = true →
  let run := Extension.init env w in
  bing_date run.2 = bing_date w ∨ bing_date run.2 = None.
Proof.
  intros Hrandom run. subst run.
  pose proof (init_try_random_bing_date env w Hrandom) as H. cbv zeta in H.
  unfold Extension.init, try_catch.
  destruct (Extension.init_try env w) as [[[]|e] w1]; [exact H|].
  simpl in H. by rewrite bing_date_showError.
Qed.

Lemma init_random_mode_pins_no_bing_date_witness :
  let env := Examples.env_with (λ url,
    if String.eqb url Examples.sources_url
    then Response 200 (BodyArr [literal [("value", JStr "bing")]])
    else if String.eqb url "https://picture.example/api/pictures/list/bing/"
    then Response 200 (BodyArr [literal [("date", JStr "2024-01-14")];
                                literal [("date", JStr "2024-01-13")]])
    else Response 200 (BodyObj Examples.apod_picture)) in
  let run := Extension.init env (Examples.fresh [(0 # 1)%Q; (3 # 4)%Q]) in
  bing_date run.2 = None ∧
  requests run.2 = [Examples.sources_url;
                    "https://picture.example/api/pictures/list/bing/";
                    "https://picture.example/api/pictures/date/2024-01-13/bing/"].
Proof.
  intros env run. split.
  - destruct (init_random_mode_pins_no_bing_date env (Examples.fresh [(0 # 1)%Q; (3 # 4)%Q]))
      as [H|H]; [reflexivity|exact H|exact H].
  - vm_compute. reflexivity.
Defined.

Lemma random_flag_init (env : Env) : same random_flag (Extension.init env).
Proof.
  pose proof random_flag_updateSourceSelector.
  assert (∀ s, same random_flag (getCachedPicture env s)).
  { intros s w. pose proof (unchanged_getCachedPicture env s w) as Hw.
    unfold id in Hw. by rewrite Hw. }
  assert (∀ data, same random_flag (Extension.displayPicture data)).
  { intros d w. pose proof (unchanged_displayPicture d w) as Hw.
    unfold id in Hw. by rewrite Hw. }
  unfold Extension.init, Extension.init_try, Extension.select_source, Extension.load_picture,
    Extension.getSelectedSource, Extension.getRandomSource, Extension.loadBingPictures,
    Extension.fetchPicture.
  frame.
Qed.

(** X15. The handler of the random-on-new-tab checkbox never throws and
    leaves the flag as the checkbox was set, so that the next init runs in
    that mode; switching random mode on leaves no pinned Bing date. *)
Theorem toggleRandom_change_sets_the_mode (env : Env) (checked : bool) (w : World) :
  let run := Extension.toggleRandom_change env checked w in
  run.1 = Ok tt ∧
  random_flag run.2 = Some (Text (if checked then "true" else "false")) ∧
  random_enabled (random_flag run.2) = checked ∧
  (checked = true → bing_date run.2 = None).
Proof.
  intros run. subst run. unfold Extension.toggleRandom_change. cbv zeta.
  set (w0 := ((setItem RANDOM_ON_NEW_TAB_KEY (Text (ToString (JBool checked))) ;;
               if checked then clearSelectedSource ;; removeItem BING_PICTURE_KEY
               else ret tt) w).2).
  assert (Hrun : (setItem RANDOM_ON_NEW_TAB_KEY (Text (ToString (JBool checked))) ;;
                  (if checked then clearSelectedSource ;; removeItem BING_PICTURE_KEY
                   else ret tt) ;;
                  Extension.init env) w = Extension.init env w0).
  { subst w0. by destruct checked. }
  rewrite Hrun.
  assert (Hflag : random_flag w0 = Some (Text (if checked then "true" else "false"))).
  { subst w0. unfold random_flag. destruct checked; simpl.
    - rewrite !lookup_delete_ne by done. by rewrite lookup_insert_eq.
    - by rewrite lookup_insert_eq. }
  split; [apply init_never_throws|]. rewrite random_flag_init, Hflag.
  split; [done|]. split; [by destruct checked|].
  intros ->.
  assert (Hb : bing_date w0 = None).
  { subst w0. unfold bing_date. simpl. by rewrite lookup_delete_eq. }
  pose proof (init_try_random_bing_date env w0) as H. cbv zeta in H.
  rewrite Hflag, Hb in H. specialize (H eq_refl).
  unfold Extension.init, try_catch.
  destruct (Extension.init_try env w0) as [[[]|e] w1]; simpl in H; cbv beta iota zeta.
  - by destruct H.
  - rewrite bing_date_showError. by destruct H.
Qed.

(** ** The picture cache *)

(** X16. What cachePicture stores, getCachedPicture gives back on the same
    day when asked for the record's source: the record with its text fields
    sanitized, every other field as it was and processed_explanation
    untouched; a display_explanation that holds a link is kept verbatim.
    Asked for another source it gives nothing, and it never writes. *)
Theorem cache_round_trip (env : Env) (data : obj) (source : string) (w : World) :
  get data "source" = JStr source →
  source ≠ "" →
  (truthy (get data "display_explanation") = true →
   ∃ text, get data "display_explanation" = JStr text) →
  let w' := (cachePicture env data w).2 in
  (∃ cached,
     getCachedPicture env (JStr source) w' = (Ok (Some cached), w') ∧
     get cached "source" = JStr source ∧
     get cached "title" = sanitizeHtmlEntities env (get data "title") ∧
     get cached "processed_explanation" = get data "processed_explanation" ∧
     (∀ text, get data "display_explanation" = JStr text → includes "<a " text = true →
              get cached "display_explanation" = JStr text) ∧
     (∀ key, key ∉ ["title"; "display_explanation"; "original_explanation";
                    "simplified_explanation"; "copyright"] →
             get cached key = get data key)) ∧
  (∀ other, other ≠ JStr source → getCachedPicture env other w' = (Ok None, w')).
Proof.
  intros Hsrc Hne Hde w'.
  assert (Ht : truthy (get data "source") = true).
  { rewrite Hsrc. simpl. by destruct source. }
  subst w'. rewrite (cachePicture_selects env data w Ht). simpl.
  set (w' := with_localStorage _ w).
  assert (Hdate : localStorage w' !! CACHE_DATE_KEY = Some (Text (today env))).
  { subst w'. simpl. rewrite lookup_insert_ne by done. by rewrite lookup_insert_eq. }
  assert (Hsel : localStorage w' !! SOURCE_KEY = Some (Text source)).
  { subst w'. simpl. rewrite lookup_insert_eq. by rewrite Hsrc. }
  assert (Hcache : localStorage w' !! CACHE_KEY = Some (JsonObj data)).
  { subst w'. simpl. rewrite !lookup_insert_ne by done. by rewrite lookup_insert_eq. }
  assert (Hvalid : ∀ s, isCacheValid env s w' = (Ok (strict_eq (JStr source) s), w')).
  { intros s. unfold isCacheValid, bind, getItem, read, ret. rewrite Hdate, Hsel. simpl.
    by rewrite (proj2 (strict_eq_true _ _) eq_refl). }
  split.
  - unfold getCachedPicture. unfold bind at 1. rewrite Hvalid.
    rewrite (proj2 (strict_eq_true _ _) eq_refl). cbn [negb].
    unfold bind at 1. unfold getItem at 1. unfold read at 1. rewrite Hcache.
    cbn -[sanitizeHtmlEntities includes].
    destruct (truthy (get data "display_explanation")) eqn:Htd.
    + destruct (Hde eq_refl) as [text Htext]. rewrite Htext.
      cbn -[sanitizeHtmlEntities includes].
      eexists. split; [reflexivity|].
      unfold get. simplify_map_eq. fold (get data "source"). rewrite Hsrc.
      repeat split; try done.
      * intros text' [= <-] Hinc. by rewrite Hinc.
      * intros key Hkey.
        destruct (decide (key = "processed_explanation")) as [->|Hp];
          [by simplify_map_eq|].
        rewrite !lookup_insert_ne; [done|..]; try congruence;
          intros <-; apply Hkey; repeat constructor.
    + cbn -[sanitizeHtmlEntities includes].
      eexists. split; [reflexivity|].
      unfold get. simplify_map_eq. fold (get data "source"). rewrite Hsrc.
      repeat split; try done.
      * intros text' Htext. fold (get data "display_explanation") in Htext.
        rewrite Htext in Htd. intros Hinc. simpl in Htd.
        destruct text'; [discriminate Hinc|discriminate Htd].
      * intros key Hkey.
        destruct (decide (key = "processed_explanation")) as [->|Hp];
          [by simplify_map_eq|].
        rewrite !lookup_insert_ne; [done|..]; try congruence;
          intros <-; apply Hkey; repeat constructor.
  - intros other Hother. unfold getCachedPicture. unfold bind at 1. rewrite Hvalid.
    assert (Hf : strict_eq (JStr source) other = false) by (apply strict_eq_false; congruence).
    by rewrite Hf.
Qed.

Lemma cache_round_trip_witness :
  let env := Examples.env_with (λ _, NetworkFailure "offline") in
  let data := <["source" := JStr "apod"]> Examples.apod_picture in
  let w' := (cachePicture env data (Examples.fresh [])).2 in
  (∃ cached, getCachedPicture env (JStr "apod") w' = (Ok (Some cached), w') ∧
             get cached "display_image_url" = JStr "https://x/img.jpg") ∧
  getCachedPicture env (JStr "bing") w' = (Ok None, w').
Proof.
  intros env data w'.
  destruct (cache_round_trip env data "apod" (Examples.fresh []))
    as [(cached & H1 & _ & _ & _ & _ & H2) H3].
  - reflexivity.
  - discriminate.
  - intros _. by exists "E".
  - split.
    + exists cached. split; [exact H1|].
      rewrite H2; [reflexivity|].
      intros H. apply list_elem_of_In in H. simpl in H. intuition discriminate.
    + apply H3. discriminate.
Defined.

(** ** Text *)

Lemma replace_nbsp_head (c : ascii) (rest : string) :
  ∃ x out, replace_nbsp (String c rest) = String x out ∧ (x = " "%char ∨ x = c).
Proof.
  simpl. destruct rest as [|d rest']; [by eexists _, _; split; [|right]|].
  destruct (_ && _); eexists _, _; (split; [reflexivity|]); auto.
Qed.

Lemma replace_nbsp_clean_upto (n : nat) (s : string) :
  (String.length s ≤ n)%nat → includes nbsp (replace_nbsp s) = false.
Proof.
  revert s. induction n as [|n IH]; intros s Hlen.
  - destruct s; [reflexivity|simpl in Hlen; lia].
  - destruct s as [|c rest]; [reflexivity|].
    destruct rest as [|d rest'].
    + cbn. repeat case_match; done.
    + simpl in Hlen.
      assert (Hrest : includes nbsp (replace_nbsp (String d rest')) = false).
      { apply IH. simpl. lia. }
      assert (Hrest' : includes nbsp (replace_nbsp rest') = false).
      { apply IH. lia. }
      change (replace_nbsp (String c (String d rest')))
        with (if Ascii.eqb c (ascii_of_nat 194) && Ascii.eqb d (ascii_of_nat 160)
              then String " "%char (replace_nbsp rest')
              else String c (replace_nbsp (String d rest'))).
      destruct (Ascii.eqb c (ascii_of_nat 194) && Ascii.eqb d (ascii_of_nat 160)) eqn:Hpair.
      * change (includes nbsp (String " " (replace_nbsp rest')))
          with (String.prefix nbsp (String " " (replace_nbsp rest'))
                || includes nbsp (replace_nbsp rest')).
        by rewrite Hrest'.
      * change (includes nbsp (String c (replace_nbsp (String d rest'))))
          with (String.prefix nbsp (String c (replace_nbsp (String d rest')))
                || includes nbsp (replace_nbsp (String d rest'))).
        rewrite Hrest, orb_false_r.
        destruct (replace_nbsp_head d rest') as (x & out & -> & Hx).
        change (String.prefix nbsp (String c (String x out)))
          with (if ascii_dec (ascii_of_nat 194) c
                then (if ascii_dec (ascii_of_nat 160) x then String.prefix "" out else false)
                else false).
        destruct (ascii_dec (ascii_of_nat 194) c) as [<-|]; [|done].
        destruct (ascii_dec (ascii_of_nat 160) x) as [<-|]; [|done].
        exfalso. destruct Hx as [Hx|<-]; [discriminate Hx|].
        vm_compute in Hpair. discriminate Hpair.
Qed.

(** X17. sanitizeHtmlEntities hands back anything that is not a non-empty
    string as it is, and the string it returns otherwise holds no
    non-breaking space, whatever the entity decoding produced. *)
Theorem sanitizeHtmlEntities_leaves_no_nbsp (env : Env) (text : jsval) :
  match text with
  | JStr (String c rest) =>
      ∃ out, sanitizeHtmlEntities env text = JStr out ∧ includes nbsp out = false
  | _ => sanitizeHtmlEntities env text = text
  end.
Proof.
  destruct text as [| | | |[|c rest]]; try reflexivity.
  eexists. split; [reflexivity|].
  by apply (replace_nbsp_clean_upto (String.length (decodeEntities env (String c rest)))).
Qed.

(** ** The displayed size *)

Lemma Math_round_inject_Z (z : Z) : Math_round (inject_Z z) = z.
Proof. apply Math_round_unique; generalize (inject_Z z); intros q; lra. Qed.

Lemma Math_round_nonneg (x : Q) : (0 <= x)%Q → (0 ≤ Math_round x)%Z.
Proof.
  intros H. change 0%Z with (Math_round (inject_Z 0)) at 1.
  unfold Math_round. apply Qfloor_resp_le. change (inject_Z 0) with 0%Q. lra.
Qed.

Lemma double_nonneg (x : Q) : (0 <= x)%Q → (0 <= double x)%Q.
Proof. intros H. apply double_le in H. by rewrite (double_zero 0) in H. Qed.

(** The box of an image scaled to fit inside the viewport. *)
Lemma contain_box (vw vh iw ih : Z) :
  pixels vw → pixels vh → pixels iw → pixels ih →
  let s := Qmin (num_div (inject_Z vw) (inject_Z iw))
                (num_div (inject_Z vh) (inject_Z ih)) in
  (0 ≤ Math_round (num_mul (inject_Z iw) s) ≤ vw)%Z ∧
  (0 ≤ Math_round (num_mul (inject_Z ih) s) ≤ vh)%Z ∧
  (Math_round (num_mul (inject_Z iw) s) = vw ∨ Math_round (num_mul (inject_Z ih) s) = vh).
Proof.
  intros Hvw Hvh Hiw Hih s. pixels_bounds.
  pose proof (positive_Q vw (proj1 Hvw)) as Pvw. pose proof (positive_Q vh (proj1 Hvh)) as Pvh.
  pose proof (positive_Q iw (proj1 Hiw)) as Piw. pose proof (positive_Q ih (proj1 Hih)) as Pih.
  assert (Hw : Math_round (num_mul (inject_Z iw) (num_div (inject_Z vw) (inject_Z iw))) = vw).
  { apply double_round_trip; lia. }
  assert (Hh : Math_round (num_mul (inject_Z ih) (num_div (inject_Z vh) (inject_Z ih))) = vh).
  { apply double_round_trip; lia. }
  assert (Ha : (0 < num_div (inject_Z vw) (inject_Z iw))%Q).
  { apply double_positive. by apply Qlt_shift_div_l; rewrite ?Qmult_0_l. }
  assert (Hb : (0 < num_div (inject_Z vh) (inject_Z ih))%Q).
  { apply double_positive. by apply Qlt_shift_div_l; rewrite ?Qmult_0_l. }
  set (a := num_div (inject_Z vw) (inject_Z iw)) in *.
  set (b := num_div (inject_Z vh) (inject_Z ih)) in *.
  assert (Hmono : ∀ (k x y : Q), (0 < k)%Q → (0 < x)%Q → (x <= y)%Q →
                    (0 ≤ Math_round (num_mul k x) ≤ Math_round (num_mul k y))%Z).
  { intros k x y Hk Hx Hxy. split.
    - apply Math_round_nonneg, double_nonneg, Qmult_le_0_compat; by apply Qlt_le_weak.
    - apply Math_round_le, double_le. by apply Qmult_le_l. }
  subst s. unfold Qmin, GenericMinMax.gmin.
  destruct (a ?= b)%Q eqn:Hc.
  - apply Qeq_alt in Hc. rewrite Hw.
    pose proof (Hmono (inject_Z ih) a b Pih Ha ltac:(rewrite Hc; apply Qle_refl)). lia.
  - apply Qlt_alt in Hc. rewrite Hw.
    pose proof (Hmono (inject_Z ih) a b Pih Ha ltac:(by apply Qlt_le_weak)). lia.
  - apply Qgt_alt in Hc. rewrite Hh.
    pose proof (Hmono (inject_Z iw) b a Piw Hb ltac:(by apply Qlt_le_weak)). lia.
Qed.

(** X18. For a viewport and an image whose sizes are known, in pixels, the
    fitting function of the website page always answers [cover] or
    [contain], centred, with a displayed box that fits inside the viewport
    and spans it in at least one direction; it does so in every state of the
    page, which it leaves as it is. *)
Theorem displayed_box_fits_viewport (vw vh iw ih : Z) (w : World) :
  pixels vw → pixels vh → pixels iw → pixels ih →
  ∃ r,
    Website_display.calculateOptimalDisplay vw vh (Some iw) (Some ih) w = (Ok r, w) ∧
    (objectFit r = "cover" ∨ objectFit r = "contain") ∧
    objectPosition r = "center" ∧
    (0 <= displayWidth r <= vw)%Z ∧
    (0 <= displayHeight r <= vh)%Z ∧
    (displayWidth r = vw ∨ displayHeight r = vh).
Proof.
  intros Hvw Hvh Hiw Hih.
  pose proof (contain_box vw vh iw ih Hvw Hvh Hiw Hih) as Hcontain. cbv zeta in Hcontain.
  assert (Hfull : (0 <= Math_round (inject_Z vw) <= vw)%Z ∧
                  (0 <= Math_round (inject_Z vh) <= vh)%Z ∧
                  (Math_round (inject_Z vw) = vw ∨ Math_round (inject_Z vh) = vh)).
  { rewrite !Math_round_inject_Z. unfold pixels in *. lia. }
  assert (Hsquare : let q := inject_Z (Z.min vw vh) in
                    (0 <= Math_round q <= vw)%Z ∧ (0 <= Math_round q <= vh)%Z ∧
                    (Math_round q = vw ∨ Math_round q = vh)).
  { cbv zeta. rewrite !Math_round_inject_Z. unfold pixels in *. lia. }
  unfold Website_display.calculateOptimalDisplay.
  rewrite !missing_positive by apply Hiw || apply Hih. cbn [orb]. cbv iota.
  eexists. split; [reflexivity|].
  unfold Website_display.decide_display.
  repeat match goal with
         | |- context [if ?b then _ else _] =>
             lazymatch b with
             | context [if _ then _ else _] => fail
             | _ => destruct b
             end
         end; cbn [objectFit objectPosition displayWidth displayHeight
                   Website_display.c_objectFit Website_display.c_objectPosition
                   Website_display.c_displayWidth Website_display.c_displayHeight];
    (split; [auto|]); (split; [reflexivity|]);
    first [exact Hcontain | exact Hfull | exact Hsquare | tauto].
Qed.

Lemma displayed_box_fits_viewport_witness :
  let w := Examples.fresh [] in
  ∃ r,
    Website_display.calculateOptimalDisplay 1920 1080 (Some 1080) (Some 1920) w = (Ok r, w) ∧
    (0 <= displayWidth r <= 1920)%Z ∧ (0 <= displayHeight r <= 1080)%Z ∧
    (displayWidth r = 1920 ∨ displayHeight r = 1080)%Z.
Proof.
  intros w.
  destruct (displayed_box_fits_viewport 1920 1080 1080 1920 w)
    as (r & H0 & _ & _ & H1 & H2 & H3); try (split; [reflexivity|discriminate]).
  exists r. repeat split; try assumption; lia.
Defined.

(** The bound on the sizes is needed. From 2^51 on, the rounding of the
    quotient and of the product can add up to a whole pixel: for this
    viewport the displayed width is one more than the viewport's. *)
Example box_of_a_huge_viewport :
  (Website_display.calculateOptimalDisplay 4264283397408643 2000000000000000
     (Some 13) (Some 6) (Examples.fresh [])).1
  = Ok {| objectFit := "contain"; objectPosition := "center";
          scale := JStr "328021799800664.88";
          mode := "Contain (Upscale)";
          displayWidth := 4264283397408644; displayHeight := 1968130798803989 |}.
Proof. vm_compute. reflexivity. Qed.

(** ** When the provider fails too *)

Lemma provider_fallback_throws (env : Env) (normalize : obj → jsval → obj)
    (error e : string) (w : World) :
  provider_error (network env provider_url) = Some e →
  provider_fallback env normalize (JStr "apod") error w
  = (Throw e, requested provider_url w).
Proof.
  unfold provider_error, provider_fallback, try_catch, fetch, bind, update, from_provider,
    requested.
  rewrite (proj2 (strict_eq_true _ _) eq_refl).
  fold provider_url.
  destruct (network env provider_url) as [msg|status b]; simpl.
  - by intros [= ->].
  - destruct (ok status); simpl; [|by intros [= ->]].
    destruct b as [| |o|l]; simpl; try by intros [= ->].
    destruct (get o "date"); simpl; by intros [= ->].
Qed.

(** X19. When the backend statements fail for 'apod' and the direct request
    to the provider fails as well, fetchPicture throws the provider's
    exception, not the backend's, after exactly those two requests: the
    website page whatever the working set of sources is, the earlier
    extension page when 'apod' is in it. *)
Theorem fetchPicture_both_fail (env : Env) (w : World) (provider : string) :
  let website_url := Website.PICTURES_API_URL env +:+ "/today/apod/" in
  let extension_url := Legacy.PICTURES_API_URL env +:+ "/today/apod/" in
  provider_error (network env provider_url) = Some provider →
  (is_Some (backend_error (network env website_url)) →
   Website.fetchPicture env (JStr "apod") w
     = (Throw provider, requested provider_url (requested website_url w))) ∧
  (is_Some (backend_error (network env extension_url)) →
   JStr "apod" ∈ AVAILABLE_SOURCES w →
   Legacy.fetchPicture env (JStr "apod") w
     = (Throw provider, requested provider_url (requested extension_url w))).
Proof.
  intros website_url extension_url Hp. split.
  - intros [e1 He1].
    rewrite (website_fetchPicture_run env _ website_url)
      by (try reflexivity; by apply picture_url_today).
    unfold try_catch. rewrite (request_backend_throws _ _ _ _ _ _ He1).
    by apply provider_fallback_throws.
  - intros [e2 He2] Hin.
    rewrite (legacy_fetchPicture_run env _ extension_url)
      by (try reflexivity; try done; by apply picture_url_today).
    unfold try_catch. rewrite (request_backend_throws _ _ _ _ _ _ He2).
    by apply provider_fallback_throws.
Qed.

Lemma fetchPicture_both_fail_witness :
  let env := Examples.env_with (λ url,
    if String.eqb url provider_url then Response 429 BodyInvalid
    else NetworkFailure "Failed to fetch") in
  let w := with_AVAILABLE_SOURCES [] (Examples.fresh []) in
  Website.fetchPicture env (JStr "apod") w
  = (Throw "HTTP error! status: 429",
     requested provider_url (requested Examples.today_apod_url w)).
Proof.
  intros env w.
  destruct (fetchPicture_both_fail env w "HTTP error! status: 429") as [H _];
    [reflexivity|].
  apply H. by eexists.
Defined.

(** ** A record that cannot be displayed *)

Lemma displayPicture_pure (data : obj) (w w' : World) :
  Extension.displayPicture data w = ((Extension.displayPicture data w').1, w).
Proof.
  unfold Extension.displayPicture, bind, ret, throw. cbv zeta.
  destruct (get data "display_explanation"), (get data "date");
    repeat match goal with
           | |- context [if ?b then _ else _] =>
               lazymatch b with
               | context [if _ then _ else _] => fail
               | _ => destruct b
               end
           end; reflexivity.
Qed.

(** What getCachedPicture answers when the cache holds [data] for today and
    for the source asked for. *)
Lemma getCachedPicture_stored (env : Env) (data : obj) (source : string) (w : World) :
  localStorage w !! CACHE_DATE_KEY = Some (Text (today env)) →
  localStorage w !! SOURCE_KEY = Some (Text source) →
  localStorage w !! CACHE_KEY = Some (JsonObj data) →
  (∃ cached,
     getCachedPicture env (JStr source) w = (Ok (Some cached), w) ∧
     (get cached "display_explanation" = JNull ∨
      ∃ text, get cached "display_explanation" = JStr text) ∧
     (∀ key, key ∉ ["title"; "display_explanation"; "original_explanation";
                    "simplified_explanation"; "copyright"] →
             get cached key = get data key)) ∨
  getCachedPicture env (JStr source) w = (Throw TypeError, w).
Proof.
  intros Hdate Hsel Hcache.
  assert (Hvalid : isCacheValid env (JStr source) w = (Ok true, w)).
  { unfold isCacheValid, bind, getItem, read, ret. rewrite Hdate, Hsel. simpl.
    by rewrite !(proj2 (strict_eq_true _ _) eq_refl). }
  assert (Hrun : getCachedPicture env (JStr source) w
    = (display_explanation <-
         (if truthy (get data "display_explanation") then
            match get data "display_explanation" with
            | JStr s => ret (if includes "<a " s then get data "display_explanation"
                             else sanitizeHtmlEntities env (get data "display_explanation"))
            | _ => throw TypeError
            end
          else ret JNull) ;;
       ret (Some
         (<["copyright" := sanitizeHtmlEntities env (get data "copyright")]>
          (<["simplified_explanation" := sanitizeHtmlEntities env (get data "simplified_explanation")]>
           (<["original_explanation" := sanitizeHtmlEntities env (get data "original_explanation")]>
            (<["processed_explanation" := get data "processed_explanation"]>
             (<["display_explanation" := display_explanation]>
              (<["title" := sanitizeHtmlEntities env (get data "title")]> data)))))))) w).
  { unfold getCachedPicture. unfold bind at 1. rewrite Hvalid. cbn [negb].
    unfold bind at 1. unfold getItem at 1. unfold read at 1. by rewrite Hcache. }
  rewrite Hrun. clear Hrun.
  assert (Hkeys : ∀ v key,
    key ∉ ["title"; "display_explanation"; "original_explanation";
           "simplified_explanation"; "copyright"] →
    get (<["copyright" := sanitizeHtmlEntities env (get data "copyright")]>
         (<["simplified_explanation" := sanitizeHtmlEntities env (get data "simplified_explanation")]>
          (<["original_explanation" := sanitizeHtmlEntities env (get data "original_explanation")]>
           (<["processed_explanation" := get data "processed_explanation"]>
            (<["display_explanation" := v]>
             (<["title" := sanitizeHtmlEntities env (get data "title")]> data)))))) key
    = get data key).
  { intros v key Hkey. unfold get.
    destruct (decide (key = "processed_explanation")) as [->|Hp]; [by simplify_map_eq|].
    rewrite !lookup_insert_ne; [done|..]; try congruence;
      intros <-; apply Hkey; repeat constructor. }
  unfold bind, ret, throw.
  destruct (truthy (get data "display_explanation")) eqn:Htd.
  - destruct (get data "display_explanation") as [| | | |text] eqn:Hde;
      try (by right); try discriminate Htd.
    left. eexists. split; [reflexivity|]. split; [|apply Hkeys].
    right. unfold get at 1. simplify_map_eq.
    destruct (includes "<a " text); [by eexists|].
    unfold sanitizeHtmlEntities. rewrite Htd. by eexists.
  - left. eexists. split; [reflexivity|]. split; [|apply Hkeys].
    left. unfold get at 1. by simplify_map_eq.
Qed.

Lemma displayPicture_no_image (data cached : obj) (w : World) :
  (Extension.displayPicture data w).1 = Throw "No image URL available" →
  (get cached "display_explanation" = JNull ∨
   ∃ text, get cached "display_explanation" = JStr text) →
  (∀ key, key ∉ ["title"; "display_explanation"; "original_explanation";
                 "simplified_explanation"; "copyright"] →
          get cached key = get data key) →
  (Extension.displayPicture cached w).1 = Throw "No image URL available".
Proof.
  intros Hfail Hde Hkeys.
  assert (Hk : ∀ key, bool_decide (key ∉ ["title"; "display_explanation"; "original_explanation";
                                         "simplified_explanation"; "copyright"]) = true →
                      get cached key = get data key).
  { intros key H. apply Hkeys. by apply bool_decide_eq_true in H. }
  revert Hfail.
  unfold Extension.displayPicture, bind, ret, throw. cbv zeta.
  rewrite !(Hk "processed_explanation"), !(Hk "source"), !(Hk "source_url"), !(Hk "date"),
    !(Hk "media_type"), !(Hk "display_image_url") by reflexivity.
  assert (Hfirst : ∀ w0,
    (if truthy (get data "processed_explanation") then λ w1 : World, (Ok tt, w1)
     else if truthy (get cached "display_explanation") then
            match get cached "display_explanation" with
            | JStr _ => λ w1 : World, (Ok tt, w1)
            | _ => λ w1 : World, (@Throw unit TypeError, w1)
            end
          else λ w1 : World, (Ok tt, w1)) w0 = (Ok tt, w0)).
  { intros w0. destruct (truthy (get data "processed_explanation")); [done|].
    destruct Hde as [->|[text ->]]; [done|]. by destruct (truthy (JStr text)). }
  rewrite Hfirst.
  destruct (truthy (get data "processed_explanation")); [done|].
  destruct (truthy (get data "display_explanation")); [|done].
  destruct (get data "display_explanation"); try done; simpl; discriminate.
Qed.

(** X20. In the steps of init that follow the choice of the source (the
    Bing picker, the cache lookup, the fetch, cachePicture, displayPicture),
    cachePicture runs before displayPicture. So, for a source other than
    'bing' or on a page without the Bing date picker: when nothing is cached
    for the source and the backend answers with a record that displayPicture
    rejects for its missing image URL, these steps store the record and then
    throw; run again on that day for the same source, they answer from the
    cache and throw again, without any request. *)
Theorem record_without_image_is_cached
    (env : Env) (randomEnabled : bool) (source : string) (data : obj) (w w1 : World) :
  bingPictureSelect w = None ∨ source ≠ "bing" →
  source ≠ "" →
  JStr source ∈ AVAILABLE_SOURCES w →
  getCachedPicture env (JStr source) w = (Ok None, w) →
  Extension.fetchPicture env (JStr source) w = (Ok data, w1) →
  (Extension.displayPicture data w1).1 = Throw "No image URL available" →
  let first := Extension.load_picture env randomEnabled (JStr source) w in
  let second := Extension.load_picture env randomEnabled (JStr source) first.2 in
  first.1 = Throw "No image URL available" ∧
  localStorage first.2 !! CACHE_KEY = Some (JsonObj data) ∧
  (∃ e, second.1 = Throw e) ∧
  requests second.2 = requests first.2.
Proof.
  intros Hbing Hne Hin Hmiss Hfetch Hshow first second.
  assert (Ht : truthy (JStr source) = true) by (simpl; by destruct source).
  pose proof (fetchPicture_source env (JStr source) w w1 data Ht Hin Hfetch) as Hsrc.
  assert (Hpick : bingPictureSelect w1 = bingPictureSelect w ∧
                  AVAILABLE_SOURCES w1 = AVAILABLE_SOURCES w).
  { revert Hfetch. unfold Extension.fetchPicture. unfold bind at 1.
    rewrite (resolve_source_listed _ _ Ht Hin). unfold bind.
    destruct (picture_url_cases (Extension.PICTURES_API_URL env) (JStr source) w)
      as (url & -> & _).
    intros Hreq.
    pose proof (request_backend_requests env Extension.normalizePictureData url
                  (JStr source) w) as Hw.
    rewrite Hreq in Hw. simpl in Hw. by subst w1. }
  destruct Hpick as [Hpick Hav].
  set (w2 := with_localStorage
               (λ ls, <[SOURCE_KEY := Text (ToString (get data "source"))]>
                        (<[CACHE_DATE_KEY := Text (today env)]>
                           (<[CACHE_KEY := JsonObj data]> ls))) w1).
  assert (Hskip : ∀ w0, bingPictureSelect w0 = bingPictureSelect w →
    (match bingPictureSelect w0 with
     | Some _ => if strict_eq (JStr source) (JStr "bing")
                 then Extension.loadBingPictures env randomEnabled else ret tt
     | None => ret tt
     end) w0 = (Ok tt, w0)).
  { intros w0 ->. destruct (bingPictureSelect w); [|done].
    destruct Hbing as [|Hb]; [done|].
    assert (Hf : strict_eq (JStr source) (JStr "bing") = false)
      by (apply strict_eq_false; congruence).
    by rewrite Hf. }
  assert (Hfirst : first = (Throw "No image URL available", w2)).
  { subst first. unfold Extension.load_picture.
    unfold bind at 1. unfold read at 1. unfold bind at 1. rewrite Hskip by done.
    unfold bind at 1. rewrite Hmiss. unfold bind at 1. unfold bind at 1. rewrite Hfetch.
    unfold bind at 1.
    rewrite (cachePicture_selects env data w1) by (by rewrite Hsrc).
    fold w2. unfold ret at 1.
    rewrite (displayPicture_pure data w2 w1), Hshow. reflexivity. }
  assert (Hstore : localStorage w2 !! CACHE_DATE_KEY = Some (Text (today env)) ∧
                   localStorage w2 !! SOURCE_KEY = Some (Text source) ∧
                   localStorage w2 !! CACHE_KEY = Some (JsonObj data)).
  { subst w2. simpl. rewrite Hsrc. by simplify_map_eq. }
  destruct Hstore as (Hd & Hs & Hc).
  assert (Hsecond : ∃ e, Extension.load_picture env randomEnabled (JStr source) w2
                         = (Throw e, w2)).
  { unfold Extension.load_picture.
    unfold bind at 1. unfold read at 1. unfold bind at 1. rewrite Hskip by (by subst w2).
    unfold bind at 1.
    destruct (getCachedPicture_stored env data source w2 Hd Hs Hc)
      as [(cached & -> & Hde & Hkeys)| ->]; [|by eexists].
    unfold bind at 1. unfold ret at 1.
    rewrite (displayPicture_pure cached w2 w1).
    rewrite (displayPicture_no_image data cached w1 Hshow Hde Hkeys). by eexists. }
  destruct Hsecond as [e Hsecond].
  subst second. rewrite Hfirst. simpl. rewrite Hsecond.
  split; [done|]. split; [done|]. split; [by eexists|done].
Qed.

Lemma record_without_image_is_cached_witness :
  let env := Examples.env_with (λ _,
    Response 200 (BodyObj (literal [("title", JStr "T"); ("date", JStr "2024-01-15")]))) in
  let first := Extension.load_picture env false (JStr "apod") (Examples.fresh []) in
  let second := Extension.load_picture env false (JStr "apod") first.2 in
  first.1 = Throw "No image URL available" ∧
  requests second.2 = [Examples.today_apod_url].
Proof.
  intros env first second.
  destruct (record_without_image_is_cached env false "apod"
              (Extension.normalizePictureData
                 (literal [("title", JStr "T"); ("date", JStr "2024-01-15")]) (JStr "apod"))
              (Examples.fresh [])
              (requested Examples.today_apod_url (Examples.fresh [])))
    as (H1 & _ & _ & H2).
  - right. discriminate.
  - discriminate.
  - apply list_elem_of_here.
  - reflexivity.
  - reflexivity.
  - reflexivity.
  - split; [exact H1|]. fold first second in H2. rewrite H2. reflexivity.
Defined.

(** ** Initialisation in manual mode *)

Lemma preserves_bind {A C} (P : World → Prop) (m : M A) (k : A → M C) :
  preserves P m → (∀ a, preserves P (k a)) → preserves P (bind m k).
Proof.
  intros Hm Hk w Hw. unfold bind. specialize (Hm w Hw).
  destruct (m w) as [[a|e] w1]; simpl in *; [|done]. by apply Hk.
Qed.

Lemma preserves_settled {A} (s : string) (sel : select) (enabled : list jsval) (m : M A) :
  same selected_source m → same sourceSelect m → same AVAILABLE_SOURCES m →
  preserves (settled_on s sel enabled) m.
Proof.
  intros H1 H2 H3 w (Hs & Hd & Ha). unfold settled_on. by rewrite H1, H2, H3.
Qed.

Lemma load_picture_settled
    (env : Env) (b : bool) (s : string) (sel : select) (enabled : list jsval) :
  s ≠ "" → JStr s ∈ enabled →
  preserves (settled_on s sel enabled) (Extension.load_picture env b (JStr s)).
Proof.
  intros Hne Hin.
  assert (Ht : truthy (JStr s) = true) by (simpl; by destruct s).
  assert (Hbing : preserves (settled_on s sel enabled) (Extension.loadBingPictures env b)).
  { apply preserves_settled; unfold selected_source, Extension.loadBingPictures; frame. }
  assert (Hid : ∀ A (m : M A), same id m → preserves (settled_on s sel enabled) m).
  { intros A m Hm w Hw. pose proof (Hm w) as H. unfold id in H. by rewrite H. }
  unfold Extension.load_picture.
  apply preserves_bind; [by apply Hid; apply same_read|intros picker].
  apply preserves_bind.
  { destruct picker; [destruct (strict_eq _ _)|]; [exact Hbing|..];
      by apply Hid; apply same_ret. }
  intros _.
  apply preserves_bind; [apply Hid, unchanged_getCachedPicture|intros cached].
  apply preserves_bind; [|intros data; apply Hid, unchanged_displayPicture].
  destruct cached as [data|]; [by apply Hid; apply same_ret|].
  intros w (Hs & Hd & Ha).
  assert (Hin' : JStr s ∈ AVAILABLE_SOURCES w) by (by rewrite Ha).
  unfold bind at 1.
  destruct (Extension.fetchPicture env (JStr s) w) as [[data|e] w1] eqn:Hfetch.
  - pose proof (fetchPicture_source env (JStr s) w w1 data Ht Hin' Hfetch) as Hsrc.
    revert Hfetch. unfold Extension.fetchPicture. unfold bind at 1.
    rewrite (resolve_source_listed _ _ Ht Hin'). unfold bind at 1.
    destruct (picture_url_cases (Extension.PICTURES_API_URL env) (JStr s) w)
      as (url & -> & _).
    intros Hreq.
    pose proof (request_backend_requests env Extension.normalizePictureData url (JStr s) w)
      as Hw.
    rewrite Hreq in Hw. simpl in Hw. subst w1.
    unfold bind. rewrite cachePicture_selects by (by rewrite Hsrc).
    simpl. unfold settled_on, selected_source. simpl. rewrite Hsrc.
    by rewrite lookup_insert_eq.
  - revert Hfetch. unfold Extension.fetchPicture. unfold bind at 1.
    rewrite (resolve_source_listed _ _ Ht Hin'). unfold bind at 1.
    destruct (picture_url_cases (Extension.PICTURES_API_URL env) (JStr s) w)
      as (url & -> & _).
    intros Hreq.
    pose proof (request_backend_requests env Extension.normalizePictureData url (JStr s) w)
      as Hw.
    rewrite Hreq in Hw. simpl in Hw. by subst w1.
Qed.

(** X21. With random mode off, when the catalog load leaves a stored
    selection that is enabled, init stays with it: whether the picture loads
    or an error is shown, the stored selection is still that source, the
    drop-down shows it, and the working set is the one the catalog load
    left. *)
Theorem init_manual_mode_keeps_selection (env : Env) (s : string) (w : World) :
  random_enabled (random_flag w) = false →
  let w1 := (Extension.updateSourceSelector env (isLocalhost env) w).2 in
  selected_source w1 = Some (Text s) →
  s ≠ "" →
  JStr s ∈ AVAILABLE_SOURCES w1 →
  let run := Extension.init env w in
  selected_source run.2 = Some (Text s) ∧
  value_of (sourceSelect run.2) = s ∧
  AVAILABLE_SOURCES run.2 = AVAILABLE_SOURCES w1.
Proof.
  intros Hmanual w1 Hsel Hne Hin run.
  assert (Ht : truthy (JStr s) = true) by (simpl; by destruct s).
  pose proof (random_flag_updateSourceSelector env (isLocalhost env) w) as Hflag.
  fold w1 in Hflag.
  destruct (updateSourceSelector_run env (isLocalhost env) w)
    as (sources & w0 & w2 & _ & Hu & Ha & _ & _ & _ & _ & _ & H).
  assert (w2 = w1) as -> by (subst w1; by rewrite Hu).
  assert (Hopts : options (sourceSelect w1) = ToString <$> AVAILABLE_SOURCES w1).
  { rewrite Ha. cbv zeta in H. destruct sources as [|x l].
    - rewrite Ha in Hin. by apply not_elem_of_nil in Hin.
    - destruct (_ && _); by destruct H as [-> _]. }
  set (sel := set_value s (sourceSelect w1)).
  assert (Hshown : value_of sel = s).
  { subst sel. rewrite set_value_listed; [done|].
    rewrite Hopts. by apply (list_elem_of_fmap_2 ToString) in Hin. }
  assert (Hselect : Extension.select_source false w1
                    = (Ok (Some (JStr s)), with_sourceSelect (λ _, sel) w1)).
  { unfold Extension.select_source, Extension.getSelectedSource. unfold bind at 1.
    assert (Hget : getSelectedSource_validated w1 = (Ok (JStr s), w1)).
    { assert (Hct : cell_truthy (Some (Text s)) = true) by (simpl; by destruct s).
      unfold getSelectedSource_validated, bind, getItem, read, ret.
      unfold selected_source in Hsel. rewrite Hsel, Hct. cbn [negb].
      change (cell_value (Some (Text s))) with (JStr s).
      rewrite (bool_decide_true (JStr s ∈ AVAILABLE_SOURCES w1)) by done.
      by rewrite andb_false_r. }
    rewrite Hget, Ht. cbn [negb].
    unfold available, bind, read, update, ret.
    rewrite (bool_decide_true (JStr s ∈ AVAILABLE_SOURCES w1)) by done.
    cbn [negb]. by destruct w1. }
  assert (Hstart : settled_on s sel (AVAILABLE_SOURCES w1) (with_sourceSelect (λ _, sel) w1)).
  { by split. }
  assert (Hfinal : settled_on s sel (AVAILABLE_SOURCES w1) run.2).
  { subst run. unfold Extension.init, try_catch, Extension.init_try.
    unfold bind at 1. rewrite Hu.
    unfold bind at 1. unfold read at 1.
    destruct (AVAILABLE_SOURCES w1) as [|x l] eqn:Hav;
      [by apply not_elem_of_nil in Hin|].
    unfold bind at 1. unfold getItem at 1. unfold read at 1. cbv zeta.
    fold (random_flag w1). rewrite Hflag, Hmanual.
    unfold bind at 1. rewrite Hselect.
    pose proof (load_picture_settled env false s sel (x :: l) Hne Hin _ Hstart) as Hload.
    destruct (Extension.load_picture env false (JStr s) _) as [[[]|e] w3]; [exact Hload|].
    rewrite showError_run. destruct Hload as (L1 & L2 & L3).
    repeat split; [|done|done]. unfold selected_source. simpl.
    by rewrite lookup_insert_ne. }
  destruct Hfinal as (H1 & H2 & H3). by rewrite H2.
Qed.

Lemma init_manual_mode_keeps_selection_witness :
  let env := Examples.env_with (λ url,
    if String.eqb url Examples.sources_url
    then Response 200 (BodyArr [Examples.apod_entry; Examples.wikipedia_entry])
    else NetworkFailure "Failed to fetch") in
  let w := Examples.with_store
             (<[RANDOM_ON_NEW_TAB_KEY := Text "false"]>
                (<[SOURCE_KEY := Text "wikipedia"]> ∅))
             (Examples.fresh []) in
  let run := Extension.init env w in
  selected_source run.2 = Some (Text "wikipedia") ∧
  value_of (sourceSelect run.2) = "wikipedia" ∧
  errors run.2 = ["Failed to fetch"].
Proof.
  intros env w run.
  destruct (init_manual_mode_keeps_selection env "wikipedia" w) as (H1 & H2 & _).
  - reflexivity.
  - vm_compute. reflexivity.
  - discriminate.
  - vm_compute. apply list_elem_of_In. simpl. tauto.
  - split; [exact H1|]. split; [exact H2|]. vm_compute. reflexivity.
Defined.

(** ** The Bing date picker *)

Lemma fill_dates (pictures : list obj) (sel : select) :
  options (foldl (λ sel picture, appendChild (ToString (get picture "date")) sel)
                 sel pictures)
  = (options sel ++ ((λ picture, ToString (get picture "date")) <$> pictures))%list.
Proof.
  revert sel. induction pictures as [|p l IH]; intros sel; simpl.
  - by rewrite app_nil_r.
  - rewrite IH. simpl. by rewrite <- app_assoc.
Qed.

(** X22. loadBingPictures in manual mode, on a page that has the date
    picker: it never throws and makes one request, for the list. When the
    list cannot be had, the picker is reset to its placeholder and the store
    is left alone. When it arrives, the picker offers the placeholder and the
    listed dates; a pinned date is kept and shown if it is listed; with no
    pinned date the first listed picture is shown and its date is pinned. *)
Theorem loadBingPictures_pins_first_date (env : Env) (w : World) (sel : select) :
  bingPictureSelect w = Some sel →
  let run := Extension.loadBingPictures env false w in
  let list_url := Extension.PICTURES_API_URL env +:+ "/list/bing/" in
  run.1 = Ok tt ∧
  requests run.2 = (requests w ++ [list_url])%list ∧
  (fetch_fails (network env list_url) →
     bingPictureSelect run.2 = Some placeholder_option ∧
     localStorage run.2 = localStorage w) ∧
  (∀ status pictures,
     network env list_url = Response status (BodyArr pictures) → ok status = true →
     let dates := (λ picture, ToString (get picture "date")) <$> pictures in
     ∃ picker,
       bingPictureSelect run.2 = Some picker ∧
       options picker = "" :: dates ∧
       if cell_truthy (bing_date w) then
         localStorage run.2 = localStorage w ∧
         selected picker
         = (if bool_decide (ToString (cell_value (bing_date w)) ∈ "" :: dates)
            then Some (ToString (cell_value (bing_date w))) else None)
       else
         match dates with
         | first :: _ =>
             bing_date run.2 = Some (Text first) ∧ value_of picker = first
         | [] => localStorage run.2 = localStorage w
         end).
Proof.
  intros Hsel run list_url.
  assert (Hrun : run = Extension.loadBingPictures env false w) by reflexivity.
  clearbody run.
  unfold Extension.loadBingPictures in Hrun. unfold bind at 1 in Hrun.
  unfold read at 1 in Hrun. rewrite Hsel in Hrun. cbv iota beta in Hrun.
  fold list_url in Hrun.
  unfold try_catch, fetch, bind, update, getItem, read, ret in Hrun.
  fold (bing_date w) in Hrun.
  destruct (network env list_url) as [msg|status b] eqn:Hnet; cbn in Hrun.
  { subst run. repeat split; intros; repeat split; cbn; rewrite ?Hsel; done. }
  destruct (ok status) eqn:Hok; cbn in Hrun.
  2:{ subst run. repeat split; intros; repeat split; cbn; rewrite ?Hsel; try done.
      simplify_eq. congruence. }
  destruct b as [| |o|pictures]; cbn in Hrun.
  1-3: subst run; repeat split; intros; repeat split; cbn; rewrite ?Hsel; try done;
       simplify_eq.
  fold (bing_date w) in Hrun.
  destruct (cell_truthy (bing_date w)) eqn:Hpin; cbn in Hrun.
  - subst run. cbn. rewrite Hsel. cbn. split; [done|]. split; [done|].
    split; [intros [?|H]; [congruence|by destruct (H pictures)]|].
    intros st ps [= <- <-] _. eexists. split; [reflexivity|].
    unfold set_value. cbn [options selected]. rewrite !fill_dates. cbn. done.
  - destruct pictures as [|p l]; cbn in Hrun.
    + subst run. cbn. rewrite Hsel. cbn. split; [done|]. split; [done|].
      split; [intros [?|H]; [congruence|by destruct (H [])]|].
      intros st ps [= <- <-] _. eexists. split; [reflexivity|]. done.
    + subst run. cbn. rewrite Hsel. cbn. split; [done|]. split; [done|].
      split; [intros [?|H]; [congruence|by destruct (H (p :: l))]|].
      intros st ps [= <- <-] _. eexists. split; [reflexivity|].
      unfold set_value, value_of. cbn [options selected]. rewrite !fill_dates. cbn.
      split; [done|].
      split; [unfold bing_date; cbn; by rewrite lookup_insert_eq|].
      rewrite bool_decide_true; [done|].
      apply list_elem_of_further, list_elem_of_here.
Qed.

Lemma loadBingPictures_pins_first_date_witness :
  let env := Examples.env_with (λ _,
    Response 200 (BodyArr [literal [("date", JStr "2024-01-14")];
                           literal [("date", JStr "2024-01-13")]])) in
  let run := Extension.loadBingPictures env false (Examples.fresh []) in
  run.1 = Ok tt ∧
  requests run.2 = ["https://picture.example/api/pictures/list/bing/"] ∧
  bing_date run.2 = Some (Text "2024-01-14").
Proof.
  intros env run.
  destruct (loadBingPictures_pins_first_date env (Examples.fresh []) no_options eq_refl)
    as (H1 & H2 & _ & H3).
  split; [exact H1|]. split; [exact H2|].
  destruct (H3 200 [literal [("date", JStr "2024-01-14")];
                    literal [("date", JStr "2024-01-13")]] eq_refl eq_refl)
    as (picker & _ & _ & H4).
  exact (proj1 H4).
Defined.

(** ** The handlers of the two drop-downs *)

(** X23. While the stored random-on-new-tab flag is 'true', choosing a
    source in the drop-down saves nothing and loads nothing: the handler
    never throws, leaves the store, the working set, the request log and the
    shown errors as they were, and keeps the options of the drop-down. *)
Theorem sourceSelect_change_in_random_mode (env : Env) (w : World) :
  random_flag w = Some (Text "true") →
  let run := Extension.sourceSelect_change env w in
  run.1 = Ok tt ∧
  localStorage run.2 = localStorage w ∧
  requests run.2 = requests w ∧
  errors run.2 = errors w ∧
  AVAILABLE_SOURCES run.2 = AVAILABLE_SOURCES w ∧
  options (sourceSelect run.2) = options (sourceSelect w).
Proof.
  intros Hflag run.
  assert (Hrun : run = Extension.sourceSelect_change env w) by reflexivity.
  clearbody run.
  unfold Extension.sourceSelect_change in Hrun. unfold bind at 1 in Hrun.
  unfold getItem at 1 in Hrun. unfold read at 1 in Hrun.
  fold (random_flag w) in Hrun. rewrite Hflag in Hrun.
  cbv zeta in Hrun. change (cell_value (Some (Text "true"))) with (JStr "true") in Hrun.
  rewrite (proj2 (strict_eq_true _ _) eq_refl) in Hrun.
  unfold bind in Hrun.
  destruct (getRandomSource_outcome w) as (source & w' & Hr & Hls & He & Ha & Hq & Hs & _).
  rewrite Hr in Hrun.
  destruct (truthy source); subst run; cbn; rewrite ?Hls, ?He, ?Ha, ?Hq, ?Hs; done.
Qed.

Lemma sourceSelect_change_in_random_mode_witness :
  let w := Examples.with_store (<[RANDOM_ON_NEW_TAB_KEY := Text "true"]> ∅)
             (Examples.fresh [(1 # 2)%Q]) in
  let run := Extension.sourceSelect_change
               (Examples.env_with (λ _, NetworkFailure "offline")) w in
  localStorage run.2 = localStorage w ∧ requests run.2 = [].
Proof.
  intros w run.
  destruct (sourceSelect_change_in_random_mode
              (Examples.env_with (λ _, NetworkFailure "offline")) w eq_refl)
    as (_ & H1 & H2 & _).
  exact (conj H1 H2).
Defined.

Lemma forced_refresh_requests (env : Env) (api : string) (w : World) :
  requests (Common.loadAvailableSources env api true w).2
  = (requests w ++ [api +:+ "/sources/"])%list.
Proof.
  change (Common.loadAvailableSources env api true w)
    with (loadAvailableSources_refresh env api w).
  by destruct (refresh_outcome env api w) as (l & w' & -> & _ & Hr & _).
Qed.

(** X24. With the stored flag not 'true', choosing a source that is not in
    the working set reloads the catalog, and then the handler returns without
    loading a picture: its one request is the one for the catalog. If the
    reloaded working set has a first source, that source is saved as the
    selection and shown in the drop-down; if it is empty, the error is
    shown. *)
Theorem sourceSelect_change_to_disabled_source (env : Env) (w : World) :
  cell_value (random_flag w) ≠ JStr "true" →
  JStr (value_of (sourceSelect w)) ∉ AVAILABLE_SOURCES w →
  let run := Extension.sourceSelect_change env w in
  run.1 = Ok tt ∧
  requests run.2 = (requests w ++ [Extension.PICTURES_API_URL env +:+ "/sources/"])%list ∧
  match AVAILABLE_SOURCES run.2 with
  | first :: _ =>
      selected_source run.2 = Some (Text (ToString first)) ∧
      value_of (sourceSelect run.2) = ToString first ∧
      errors run.2 = errors w
  | [] =>
      errors run.2 = (errors w ++ ["No picture sources are currently enabled."])%list
  end.
Proof.
  intros Hflag Hstale run.
  assert (Hrun : run = Extension.sourceSelect_change env w) by reflexivity.
  clearbody run.
  unfold Extension.sourceSelect_change in Hrun. unfold bind at 1 in Hrun.
  unfold getItem at 1 in Hrun. unfold read at 1 in Hrun.
  fold (random_flag w) in Hrun. cbv zeta in Hrun.
  rewrite (proj2 (strict_eq_false _ _) Hflag) in Hrun.
  unfold bind at 1 in Hrun. unfold read at 1 in Hrun.
  unfold bind at 1 in Hrun. unfold available at 1 in Hrun. unfold read at 1 in Hrun.
  rewrite (bool_decide_false _ Hstale) in Hrun. cbn [negb] in Hrun.
  unfold bind at 1 in Hrun.
  pose proof (forced_refresh_requests env (Extension.PICTURES_API_URL env) w) as Hreq.
  destruct (updateSourceSelector_run env true w)
    as (sources & w1 & w2 & Hload & Hu & Ha & _ & Hr & He & _ & _ & H).
  unfold Extension.loadAvailableSources in Hload. rewrite Hload in Hreq. simpl in Hreq.
  rewrite Hu in Hrun. unfold bind at 1 in Hrun. unfold read at 1 in Hrun.
  cbv zeta in H.
  destruct sources as [|s l]; simpl in Ha.
  - rewrite Ha in Hrun.
    rewrite (bool_decide_false (@nil jsval ≠ [])) in Hrun by (intros E; by apply E).
    rewrite showError_run in Hrun. subst run. cbn. rewrite Ha, Hr, He, Hreq. done.
  - rewrite Ha in Hrun. rewrite bool_decide_true in Hrun by done.
    unfold first_available, setSelectedSource, setItem, bind, read, update in Hrun.
    rewrite Ha in Hrun. cbn -[set_value] in Hrun. subst run. cbn -[set_value].
    rewrite Ha, Hr, He, Hreq.
    split; [done|]. split; [done|].
    split; [unfold selected_source; cbn; by rewrite lookup_insert_eq|].
    split; [|done].
    assert (Hopts : options (sourceSelect w2) = ToString <$> values (s :: l)).
    { destruct (_ && _); by destruct H as [-> _]. }
    rewrite set_value_listed; [done|]. rewrite Hopts. apply list_elem_of_here.
Qed.

Lemma sourceSelect_change_to_disabled_source_witness :
  let env := Examples.env_with (λ url,
    if String.eqb url Examples.sources_url
    then Response 200 (BodyArr [Examples.apod_entry; Examples.bing_disabled])
    else NetworkFailure "Failed to fetch") in
  let w := with_sourceSelect (λ _, {| options := ["apod"; "bing"]; selected := Some "bing" |})
             (with_AVAILABLE_SOURCES [JStr "apod"]
                (Examples.with_store (<[RANDOM_ON_NEW_TAB_KEY := Text "false"]> ∅)
                   (Examples.fresh []))) in
  let run := Extension.sourceSelect_change env w in
  requests run.2 = [Examples.sources_url] ∧
  selected_source run.2 = Some (Text "apod").
Proof.
  intros env w run.
  destruct (sourceSelect_change_to_disabled_source env w) as (_ & H1 & H2).
  - discriminate.
  - intros H. apply list_elem_of_singleton in H. discriminate.
  - split; [exact H1|]. fold run in H2.
    change (AVAILABLE_SOURCES run.2) with [JStr "apod"] in H2. exact (proj1 H2).
Defined.

Lemma catalog_keeps_selection
    (env : Env) (api : string) (b : bool) (w : World) (s : string)
    (status : Z) (catalog : list obj) :
  selected_source w = Some (Text s) → s ≠ "" →
  network env (api +:+ "/sources/") = Response status (BodyArr catalog) →
  ok status = true →
  JStr s ∈ values (enabled_only catalog) →
  JStr s ∈ AVAILABLE_SOURCES (Common.loadAvailableSources env api b w).2.
Proof.
  intros Hsel Hne Hnet Hok Hin.
  destruct (loadAvailableSources_run env api b w)
    as [(t & cached & (_ & _ & _ & _ & Hs) & ->)|(_ & w1 & Hw1 & ->)].
  - simpl. rewrite Hsel in Hs. destruct Hs as [Hs|Hs]; [|exact Hs].
    simpl in Hs. by destruct s.
  - by rewrite (refresh_success env api w1 status catalog Hnet Hok).
Qed.

Lemma select_source_manual (s : string) (w : World) :
  selected_source w = Some (Text s) → s ≠ "" → JStr s ∈ AVAILABLE_SOURCES w →
  Extension.select_source false w
  = (Ok (Some (JStr s)), with_sourceSelect (set_value s) w).
Proof.
  intros Hsel Hne Hin.
  assert (Ht : truthy (JStr s) = true) by (simpl; by destruct s).
  assert (Hct : cell_truthy (Some (Text s)) = true) by (simpl; by destruct s).
  unfold Extension.select_source, Extension.getSelectedSource. unfold bind at 1.
  assert (Hget : getSelectedSource_validated w = (Ok (JStr s), w)).
  { unfold getSelectedSource_validated, bind, getItem, read, ret.
    unfold selected_source in Hsel. rewrite Hsel, Hct. cbn [negb].
    change (cell_value (Some (Text s))) with (JStr s).
    rewrite (bool_decide_true (JStr s ∈ AVAILABLE_SOURCES w)) by done.
    by rewrite andb_false_r. }
  rewrite Hget, Ht. cbn [negb].
  unfold available, bind, read, update, ret.
  rewrite (bool_decide_true (JStr s ∈ AVAILABLE_SOURCES w)) by done.
  reflexivity.
Qed.

Lemma picture_url_pinned (api d : string) (w : World) :
  bing_date w = Some (Text d) → d ≠ "" →
  picture_url api (JStr "bing") w = (Ok (api +:+ "/date/" +:+ d +:+ "/bing/"), w).
Proof.
  intros Hpin Hne. unfold picture_url. rewrite (proj2 (strict_eq_true _ _) eq_refl).
  unfold bind, getItem, read, ret. unfold bing_date in Hpin. rewrite Hpin.
  assert (Hct : cell_truthy (Some (Text d)) = true) by (simpl; by destruct d).
  rewrite Hct. cbn [negb]. change (cell_value (Some (Text d))) with (JStr d).
  assert (Ht : truthy (JStr d) = true) by (simpl; by destruct d).
  by rewrite Ht.
Qed.

Lemma loadBingPictures_pinned (env : Env) (w : World) :
  cell_truthy (bing_date w) = true →
  ∃ w',
    Extension.loadBingPictures env false w = (Ok tt, w') ∧
    localStorage w' = localStorage w ∧
    AVAILABLE_SOURCES w' = AVAILABLE_SOURCES w ∧
    sourceSelect w' = sourceSelect w ∧
    errors w' = errors w.
Proof.
  intros Hpin.
  unfold Extension.loadBingPictures. unfold bind at 1. unfold read at 1.
  destruct (bingPictureSelect w) as [sel|]; [|by exists w].
  unfold try_catch, fetch, bind, update, getItem, read, ret.
  destruct (network env _) as [msg|status b]; cbn; [by eexists|].
  destruct (ok status); cbn; [|by eexists].
  destruct b as [| |o|pictures]; cbn; try by eexists.
  fold (bing_date w). rewrite Hpin. by eexists.
Qed.

(** The init that the handler of the Bing picker starts, in manual mode with
    'bing' selected and enabled. *)
Lemma bingPictureSelect_change_pinned
    (env : Env) (w : World) (sel : select) (d : string) (status : Z) (catalog : list obj) :
  bingPictureSelect w = Some sel →
  value_of sel = d →
  random_enabled (random_flag w) = false →
  selected_source w = Some (Text "bing") →
  value_of (sourceSelect w) = "bing" →
  network env (Extension.PICTURES_API_URL env +:+ "/sources/")
    = Response status (BodyArr catalog) →
  ok status = true →
  JStr "bing" ∈ values (enabled_only catalog) →
  let run := Extension.bingPictureSelect_change env w in
  run.1 = Ok tt ∧
  (d = "" → run.2 = w) ∧
  (d ≠ "" →
     bing_date run.2 = Some (Text d) ∧
     selected_source run.2 = Some (Text "bing") ∧
     last (requests run.2)
     = Some (Extension.PICTURES_API_URL env +:+ "/date/" +:+ d +:+ "/bing/")).
Proof.
  intros Hpicker Hd Hmanual Hsel Hshown Hnet Hok Hcat run.
  assert (Hrun : run = Extension.bingPictureSelect_change env w) by reflexivity.
  clearbody run.
  unfold Extension.bingPictureSelect_change in Hrun. unfold bind at 1 in Hrun.
  unfold read at 1 in Hrun. rewrite Hpicker in Hrun. cbv zeta iota beta in Hrun.
  rewrite Hd in Hrun.
  destruct (String.eqb d "") eqn:Hempty; cbn [negb] in Hrun.
  { apply String.eqb_eq in Hempty. subst run. by repeat split. }
  apply String.eqb_neq in Hempty.
  set (w0 := with_localStorage
               (λ ls, delete CACHE_DATE_KEY
                        (delete CACHE_KEY (<[BING_PICTURE_KEY := Text d]> ls))) w).
  assert (Hinit : run = Extension.init env w0) by (by subst run).
  clear Hrun.
  split; [subst run; apply init_never_throws|]. split; [done|]. intros _.
  set (url := Extension.PICTURES_API_URL env +:+ "/date/" +:+ d +:+ "/bing/").
  (* the catalog load *)
  assert (Hsel0 : selected_source w0 = Some (Text "bing")).
  { subst w0. unfold selected_source in *. cbn. by rewrite !lookup_delete_ne, lookup_insert_ne. }
  pose proof (catalog_keeps_selection env _ (isLocalhost env) w0 "bing" status catalog
                Hsel0 ltac:(done) Hnet Hok Hcat) as Hin.
  destruct (updateSourceSelector_run env (isLocalhost env) w0)
    as (sources & wl & w1 & Hload & Hu & Ha & Hb & _ & _ & _ & Hk & H).
  unfold Extension.loadAvailableSources in Hload. rewrite Hload in Hin. simpl in Hin.
  assert (Hal : AVAILABLE_SOURCES wl = values sources).
  { by destruct (loadAvailableSources_outcome env (Extension.PICTURES_API_URL env)
                   (isLocalhost env) w0)
      as (l' & wl' & Hl' & Ha' & _); rewrite Hload in Hl'; injection Hl' as <- <-. }
  rewrite Hal in Hin.
  cbv zeta in H. change (value_of (sourceSelect w0)) with (value_of (sourceSelect w)) in H.
  rewrite Hshown in H. cbn [String.eqb Ascii.eqb Bool.eqb negb andb] in H.
  rewrite (bool_decide_true _ Hin) in H.
  destruct sources as [|x l]; [by apply not_elem_of_nil in Hin|].
  destruct H as [Hdrop Hstore].
  assert (Hin1 : JStr "bing" ∈ AVAILABLE_SOURCES w1) by (by rewrite Ha).
  assert (Hsel1 : selected_source w1 = Some (Text "bing")).
  { unfold selected_source. rewrite Hstore, (Hk SOURCE_KEY) by done. exact Hsel0. }
  assert (Hpin1 : bing_date w1 = Some (Text d)).
  { unfold bing_date. rewrite Hstore, (Hk BING_PICTURE_KEY) by done.
    subst w0. cbn. rewrite !lookup_delete_ne by done. by rewrite lookup_insert_eq. }
  assert (Hcache1 : localStorage w1 !! CACHE_DATE_KEY = None).
  { rewrite Hstore, (Hk CACHE_DATE_KEY) by done. subst w0. cbn. by rewrite lookup_delete_eq. }
  assert (Hflag1 : random_enabled (random_flag w1) = false).
  { unfold random_flag in *. rewrite Hstore, (Hk RANDOM_ON_NEW_TAB_KEY) by done.
    subst w0. cbn. by rewrite !lookup_delete_ne, lookup_insert_ne. }
  (* the choice of the source and the picker *)
  set (w2 := with_sourceSelect (set_value "bing") w1).
  pose proof (select_source_manual "bing" w1 Hsel1 ltac:(done) Hin1) as Hselect.
  fold w2 in Hselect.
  destruct (loadBingPictures_pinned env w2) as (w3 & Hbing & Hls3 & Ha3 & _).
  { change (bing_date w2) with (bing_date w1). rewrite Hpin1. simpl. by destruct d. }
  assert (Hpicker2 : bingPictureSelect w2 = Some sel).
  { change (bingPictureSelect w2) with (bingPictureSelect w1). by rewrite Hb. }
  (* no cached picture, so the picture is fetched *)
  assert (Hmiss : getCachedPicture env (JStr "bing") w3 = (Ok None, w3)).
  { unfold getCachedPicture, isCacheValid, bind, getItem, read, ret.
    rewrite Hls3. change (localStorage w2) with (localStorage w1). by rewrite Hcache1. }
  assert (Hpin3 : bing_date w3 = Some (Text d)).
  { unfold bing_date. rewrite Hls3. exact Hpin1. }
  assert (Hsel3 : selected_source w3 = Some (Text "bing")).
  { unfold selected_source. rewrite Hls3. exact Hsel1. }
  assert (Hfetch : Extension.fetchPicture env (JStr "bing") w3
                   = request_backend env Extension.normalizePictureData url (JStr "bing") w3).
  { unfold Extension.fetchPicture. unfold bind at 1.
    rewrite resolve_source_listed by (by rewrite ?Ha3). unfold bind.
    by rewrite (picture_url_pinned _ d w3 Hpin3 Hempty). }
  assert (Hkeep : ∀ w', selected_source w' = Some (Text "bing") →
                        bing_date w' = Some (Text d) →
                        last (requests w') = Some url →
                        ∀ message,
                          let w'' := (showError message w').2 in
                          bing_date w'' = Some (Text d) ∧
                          selected_source w'' = Some (Text "bing") ∧
                          last (requests w'') = Some url).
  { intros w' S1 S2 S3 message. rewrite showError_run. cbn.
    unfold bing_date, selected_source in *. cbn. by rewrite !lookup_insert_ne. }
  assert (Hload_picture :
    ∃ o w4, Extension.load_picture env false (JStr "bing") w2 = (o, w4) ∧
            selected_source w4 = Some (Text "bing") ∧
            bing_date w4 = Some (Text d) ∧
            last (requests w4) = Some url).
  { unfold Extension.load_picture. unfold bind at 1. unfold read at 1.
    rewrite Hpicker2. rewrite (proj2 (strict_eq_true _ _) eq_refl).
    unfold bind at 1. rewrite Hbing. unfold bind at 1. rewrite Hmiss.
    unfold bind at 1. unfold bind at 1. rewrite Hfetch.
    pose proof (request_backend_requests env Extension.normalizePictureData url
                  (JStr "bing") w3) as Hw.
    destruct (request_backend env Extension.normalizePictureData url (JStr "bing") w3)
      as [[data|e] w4] eqn:Hreq; simpl in Hw; subst w4.
    - apply request_backend_Ok in Hreq as [dd ->].
      unfold bind at 1.
      rewrite cachePicture_selects by reflexivity.
      unfold ret at 1. cbv beta iota.
      match goal with |- context [Extension.displayPicture ?r ?ww] =>
        pose proof (unchanged_displayPicture r ww) as Hshow;
        destruct (Extension.displayPicture r ww) as [o w5]
      end.
      cbv beta iota delta [id snd] in Hshow. subst w5.
      eexists _, _. split; [reflexivity|].
      unfold selected_source, bing_date in *. cbn.
      split; [by rewrite lookup_insert_eq|].
      split; [by rewrite !lookup_insert_ne|by rewrite last_snoc].
    - eexists _, _. split; [reflexivity|].
      split; [done|]. split; [done|]. cbn. by rewrite last_snoc. }
  destruct Hload_picture as (o & w4 & Hlp & S1 & S2 & S3).
  assert (Hfinal : ∃ wf, run = (Ok tt, wf) ∧
                         bing_date wf = Some (Text d) ∧
                         selected_source wf = Some (Text "bing") ∧
                         last (requests wf) = Some url).
  { rewrite Hinit. unfold Extension.init, try_catch, Extension.init_try.
    unfold bind at 1. rewrite Hu. unfold bind at 1. unfold read at 1.
    rewrite Ha. cbn [values fmap list_fmap]. cbv iota.
    unfold bind at 1. unfold getItem at 1. unfold read at 1. cbv zeta.
    fold (random_flag w1). rewrite Hflag1.
    unfold bind at 1. rewrite Hselect, Hlp.
    destruct o as [[]|e].
    - by exists w4.
    - eexists. split; [reflexivity|]. by apply Hkeep. }
  destruct Hfinal as (wf & -> & F1 & F2 & F3). done.
Qed.

(** X25. The change handler of the Bing date picker never throws, and it
    does nothing when the picker is missing or its placeholder is chosen.
    Choosing a date pins it: with random mode off, 'bing' the stored
    selection, shown in the drop-down and still enabled in the catalog, the
    init that the handler starts ends by asking the backend for exactly that
    date: the last request made is the one for the picture of the chosen
    date, and the date and the selection are still stored afterwards. *)
Theorem bingPictureSelect_change_requests_that_date (env : Env) (w : World) :
  let run := Extension.bingPictureSelect_change env w in
  run.1 = Ok tt ∧
  ((∀ sel, bingPictureSelect w = Some sel → value_of sel = "") → run.2 = w) ∧
  (∀ sel d status catalog,
     bingPictureSelect w = Some sel →
     value_of sel = d →
     d ≠ "" →
     random_enabled (random_flag w) = false →
     selected_source w = Some (Text "bing") →
     value_of (sourceSelect w) = "bing" →
     network env (Extension.PICTURES_API_URL env +:+ "/sources/")
       = Response status (BodyArr catalog) →
     ok status = true →
     JStr "bing" ∈ values (enabled_only catalog) →
     bing_date run.2 = Some (Text d) ∧
     selected_source run.2 = Some (Text "bing") ∧
     last (requests run.2)
     = Some (Extension.PICTURES_API_URL env +:+ "/date/" +:+ d +:+ "/bing/")).
Proof.
  intros run. split; [|split].
  - subst run. unfold Extension.bingPictureSelect_change, bind, read.
    destruct (bingPictureSelect w) as [sel|]; [|done].
    destruct (negb (String.eqb (value_of sel) "")); [|done].
    cbn. apply init_never_throws.
  - intros Hplaceholder. subst run.
    unfold Extension.bingPictureSelect_change, bind, read.
    destruct (bingPictureSelect w) as [sel|]; [|done].
    by rewrite (Hplaceholder sel eq_refl).
  - intros sel d status catalog Hpicker Hd Hne Hmanual Hsel Hshown Hnet Hok Hcat.
    by destruct (bingPictureSelect_change_pinned env w sel d status catalog
                   Hpicker Hd Hmanual Hsel Hshown Hnet Hok Hcat) as (_ & _ & H); apply H.
Qed.

Lemma bingPictureSelect_change_requests_that_date_witness :
  let catalog := [literal [("value", JStr "bing"); ("enabled", JBool true)]] in
  let env := Examples.env_with (λ url,
    if String.eqb url Examples.sources_url then Response 200 (BodyArr catalog)
    else NetworkFailure "Failed to fetch") in
  let picker := {| options := [""; "2024-01-13"]; selected := Some "2024-01-13" |} in
  let w := with_sourceSelect (λ _, {| options := ["bing"]; selected := Some "bing" |})
             (with_bingPictureSelect (λ _, picker)
                (Examples.with_store
                   (<[RANDOM_ON_NEW_TAB_KEY := Text "false"]>
                      (<[SOURCE_KEY := Text "bing"]> ∅))
                   (Examples.fresh []))) in
  let run := Extension.bingPictureSelect_change env w in
  bing_date run.2 = Some (Text "2024-01-13") ∧
  last (requests run.2)
  = Some "https://picture.example/api/pictures/date/2024-01-13/bing/".
Proof.
  intros catalog env picker w run.
  destruct (bingPictureSelect_change_requests_that_date env w) as (_ & _ & H).
  destruct (H picker "2024-01-13" 200 catalog) as (H1 & _ & H3);
    [reflexivity | reflexivity | discriminate | reflexivity | reflexivity | reflexivity
    | reflexivity | reflexivity | apply list_elem_of_here |].
  exact (conj H1 H3).
Defined.

(** X26. With random mode stored as off, choosing in the drop-down a source
    other than 'bing' that is in the working set and still enabled in the
    catalog saves it as the selection, and the init that follows does not
    answer from the picture cache: it ends by asking the backend for today's
    picture of that source, with the selection stored and shown. The handler
    never throws. *)
Theorem sourceSelect_change_requests_chosen_source
    (env : Env) (w : World) (c : string) (status : Z) (catalog : list obj) :
  random_flag w = Some (Text "false") →
  value_of (sourceSelect w) = c →
  c ≠ "" → c ≠ "bing" →
  JStr c ∈ AVAILABLE_SOURCES w →
  network env (Extension.PICTURES_API_URL env +:+ "/sources/")
    = Response status (BodyArr catalog) →
  ok status = true →
  JStr c ∈ values (enabled_only catalog) →
  let run := Extension.sourceSelect_change env w in
  run.1 = Ok tt ∧
  selected_source run.2 = Some (Text c) ∧
  value_of (sourceSelect run.2) = c ∧
  last (requests run.2)
  = Some (Extension.PICTURES_API_URL env +:+ "/today/" +:+ c +:+ "/").
Proof.
  intros Hflag Hshown Hne Hnb Hlisted Hnet Hok Hcat run.
  assert (Ht : truthy (JStr c) = true) by (simpl; by destruct c).
  assert (Hrun : run = Extension.sourceSelect_change env w) by reflexivity.
  clearbody run.
  unfold Extension.sourceSelect_change in Hrun. unfold bind at 1 in Hrun.
  unfold getItem at 1 in Hrun. unfold read at 1 in Hrun.
  fold (random_flag w) in Hrun. rewrite Hflag in Hrun. cbv zeta in Hrun.
  change (strict_eq (cell_value (Some (Text "false"))) (JStr "true")) with false in Hrun.
  cbv iota in Hrun.
  unfold bind at 1 in Hrun. unfold read at 1 in Hrun. rewrite Hshown in Hrun.
  unfold bind at 1 in Hrun. unfold available at 1 in Hrun. unfold read at 1 in Hrun.
  rewrite (bool_decide_true _ Hlisted) in Hrun. cbn [negb] in Hrun.
  assert (Hb : String.eqb c "bing" = false) by (by apply String.eqb_neq).
  rewrite Hb in Hrun.
  set (w0 := with_localStorage
               (λ ls, delete CACHE_DATE_KEY (delete CACHE_KEY (<[SOURCE_KEY := Text c]> ls)))
               (with_bingPictureSelect (set_value "") w)).
  assert (Hinit : run = Extension.init env w0).
  { subst run w0. unfold setSelectedSource, setItem, removeItem, bind, read, update, ret.
    destruct (bingPictureSelect w) eqn:Hp; cbn;
      unfold with_localStorage, with_bingPictureSelect; cbn; rewrite ?Hp; reflexivity. }
  clear Hrun.
  split; [subst run; apply init_never_throws|].
  set (url := Extension.PICTURES_API_URL env +:+ "/today/" +:+ c +:+ "/").
  (* the catalog load *)
  assert (Hsel0 : selected_source w0 = Some (Text c)).
  { subst w0. unfold selected_source. cbn. rewrite !lookup_delete_ne by done.
    by rewrite lookup_insert_eq. }
  pose proof (catalog_keeps_selection env _ (isLocalhost env) w0 c status catalog
                Hsel0 Hne Hnet Hok Hcat) as Hin.
  destruct (updateSourceSelector_run env (isLocalhost env) w0)
    as (sources & wl & w1 & Hload & Hu & Ha & Hbp & _ & _ & _ & Hk & H).
  unfold Extension.loadAvailableSources in Hload. rewrite Hload in Hin. simpl in Hin.
  assert (Hal : AVAILABLE_SOURCES wl = values sources).
  { by destruct (loadAvailableSources_outcome env (Extension.PICTURES_API_URL env)
                   (isLocalhost env) w0)
      as (l' & wl' & Hl' & Ha' & _); rewrite Hload in Hl'; injection Hl' as <- <-. }
  rewrite Hal in Hin.
  cbv zeta in H. change (value_of (sourceSelect w0)) with (value_of (sourceSelect w)) in H.
  rewrite Hshown in H.
  assert (Hn : negb (String.eqb c "") = true) by (by destruct c).
  rewrite Hn, (bool_decide_true _ Hin) in H. cbn [andb] in H.
  destruct sources as [|x l]; [by apply not_elem_of_nil in Hin|].
  destruct H as [Hdrop Hstore].
  assert (Hin1 : JStr c ∈ AVAILABLE_SOURCES w1) by (by rewrite Ha).
  assert (Hsel1 : selected_source w1 = Some (Text c)).
  { unfold selected_source. rewrite Hstore, (Hk SOURCE_KEY) by done. exact Hsel0. }
  assert (Hcache1 : localStorage w1 !! CACHE_DATE_KEY = None).
  { rewrite Hstore, (Hk CACHE_DATE_KEY) by done. subst w0. cbn. by rewrite lookup_delete_eq. }
  assert (Hflag1 : random_enabled (random_flag w1) = false).
  { unfold random_flag in *. rewrite Hstore, (Hk RANDOM_ON_NEW_TAB_KEY) by done.
    subst w0. cbn. rewrite !lookup_delete_ne, lookup_insert_ne by done. by rewrite Hflag. }
  assert (Hshown1 : value_of (set_value c (sourceSelect w1)) = c).
  { rewrite set_value_listed; [done|]. rewrite Hdrop. cbn [options].
    by apply (list_elem_of_fmap_2 ToString) in Hin. }
  (* the choice of the source *)
  set (w2 := with_sourceSelect (set_value c) w1).
  pose proof (select_source_manual c w1 Hsel1 Hne Hin1) as Hselect.
  fold w2 in Hselect.
  assert (Hmiss : getCachedPicture env (JStr c) w2 = (Ok None, w2)).
  { unfold getCachedPicture, isCacheValid, bind, getItem, read, ret.
    change (localStorage w2) with (localStorage w1). by rewrite Hcache1. }
  assert (Hfetch : Extension.fetchPicture env (JStr c) w2
                   = request_backend env Extension.normalizePictureData url (JStr c) w2).
  { unfold Extension.fetchPicture. unfold bind at 1.
    rewrite resolve_source_listed by done. unfold bind.
    rewrite picture_url_today; [done|]. congruence. }
  assert (Hload_picture :
    ∃ o w4, Extension.load_picture env false (JStr c) w2 = (o, w4) ∧
            selected_source w4 = Some (Text c) ∧
            sourceSelect w4 = sourceSelect w2 ∧
            last (requests w4) = Some url).
  { unfold Extension.load_picture. unfold bind at 1. unfold read at 1.
    assert (Hskip : (match bingPictureSelect w2 with
                     | Some _ => if strict_eq (JStr c) (JStr "bing")
                                 then Extension.loadBingPictures env false else ret tt
                     | None => ret tt
                     end) w2 = (Ok tt, w2)).
    { destruct (bingPictureSelect w2); [|done].
      assert (Hf : strict_eq (JStr c) (JStr "bing") = false)
        by (apply strict_eq_false; congruence).
      by rewrite Hf. }
    unfold bind at 1. rewrite Hskip. unfold bind at 1. rewrite Hmiss.
    unfold bind at 1. unfold bind at 1. rewrite Hfetch.
    pose proof (request_backend_requests env Extension.normalizePictureData url
                  (JStr c) w2) as Hw.
    destruct (request_backend env Extension.normalizePictureData url (JStr c) w2)
      as [[data|e] w4] eqn:Hreq; simpl in Hw; subst w4.
    - apply request_backend_Ok in Hreq as [dd ->].
      unfold bind at 1.
      rewrite cachePicture_selects by exact Ht.
      unfold ret at 1. cbv beta iota.
      match goal with |- context [Extension.displayPicture ?r ?ww] =>
        pose proof (unchanged_displayPicture r ww) as Hshow;
        destruct (Extension.displayPicture r ww) as [o w5]
      end.
      cbv beta iota delta [id snd] in Hshow. subst w5.
      eexists _, _. split; [reflexivity|].
      unfold selected_source. cbn.
      split; [by rewrite lookup_insert_eq|].
      split; [done|by rewrite last_snoc].
    - eexists _, _. split; [reflexivity|].
      split; [done|]. split; [done|]. cbn. by rewrite last_snoc. }
  destruct Hload_picture as (o & w4 & Hlp & S1 & S2 & S3).
  assert (Hfinal : ∃ wf, run = (Ok tt, wf) ∧
                         selected_source wf = Some (Text c) ∧
                         sourceSelect wf = sourceSelect w2 ∧
                         last (requests wf) = Some url).
  { rewrite Hinit. unfold Extension.init, try_catch, Extension.init_try.
    unfold bind at 1. rewrite Hu. unfold bind at 1. unfold read at 1.
    rewrite Ha. cbn [values fmap list_fmap]. cbv iota.
    unfold bind at 1. unfold getItem at 1. unfold read at 1. cbv zeta.
    fold (random_flag w1). rewrite Hflag1.
    unfold bind at 1. rewrite Hselect, Hlp.
    destruct o as [[]|e].
    - by exists w4.
    - eexists. split; [reflexivity|].
      assert (Hkeep : ∀ message,
                let w'' := (showError message w4).2 in
                selected_source w'' = Some (Text c) ∧
                sourceSelect w'' = sourceSelect w2 ∧
                last (requests w'') = Some url).
      { intros message. rewrite showError_run. cbn.
        unfold selected_source in *. cbn. by rewrite lookup_insert_ne. }
      apply Hkeep. }
  destruct Hfinal as (wf & -> & F1 & F2 & F3). cbn. by rewrite F2.
Qed.

Lemma sourceSelect_change_requests_chosen_source_witness :
  let catalog := [Examples.apod_entry; Examples.wikipedia_entry] in
  let env := Examples.env_with (λ url,
    if String.eqb url Examples.sources_url then Response 200 (BodyArr catalog)
    else Response 200 (BodyObj Examples.apod_picture)) in
  let w := with_sourceSelect
             (λ _, {| options := ["apod"; "wikipedia"]; selected := Some "wikipedia" |})
             (with_AVAILABLE_SOURCES [JStr "apod"; JStr "wikipedia"]
                (Examples.with_store
                   (<[RANDOM_ON_NEW_TAB_KEY := Text "false"]>
                      (<[SOURCE_KEY := Text "apod"]> ∅))
                   (Examples.fresh []))) in
  let run := Extension.sourceSelect_change env w in
  selected_source run.2 = Some (Text "wikipedia") ∧
  last (requests run.2) = Some Examples.today_wikipedia_url.
Proof.
  intros catalog env w run.
  destruct (sourceSelect_change_requests_chosen_source env w "wikipedia" 200 catalog)
    as (_ & H1 & _ & H2).
  - reflexivity.
  - reflexivity.
  - discriminate.
  - discriminate.
  - apply list_elem_of_further, list_elem_of_here.
  - reflexivity.
  - reflexivity.
  - apply list_elem_of_further, list_elem_of_here.
  - exact (conj H1 H2).
Defined.

(** ** What random mode leaves in the selected-source cell *)

Lemma select_source_random_pick (w w' : World) (source : jsval) :
  Extension.select_source true w = (Ok (Some source), w') →
  ∃ wr, Extension.getRandomSource w = (Ok source, wr) ∧
        w' = with_sourceSelect (set_value (ToString source)) wr.
Proof.
  unfold Extension.select_source. intros H.
  apply bind_Ok in H as (s & w1 & Hr & H).
  destruct (truthy s); simpl in H.
  - unfold bind, update, ret in H. injection H as <- <-. by exists w1.
  - apply bind_Ok in H as ([] & w2 & _ & H). discriminate.
Qed.

(** X27. In random mode an init of the extension that ends without showing
    an error leaves in [picture_source] the source that getRandomSource
    picked in that run, an enabled one. The choice itself writes nothing to
    that cell; cachePicture stores the source of the record it caches, and a
    cache hit requires the cell to hold the picked source already. *)
Theorem init_random_mode_stores_its_pick (env : Env) (w : World) :
  random_enabled (random_flag w) = true →
  let w' := (Extension.init env w).2 in
  errors w' = errors w →
  same selected_source (Extension.select_source true) ∧
  ∃ wa source wr,
    Extension.updateSourceSelector env (isLocalhost env) w = (Ok tt, wa) ∧
    Extension.getRandomSource wa = (Ok source, wr) ∧
    truthy source = true ∧
    source ∈ AVAILABLE_SOURCES w' ∧
    cell_value (selected_source w') = JStr (ToString source).
Proof.
  intros Hrandom w' Herr. split; [apply selected_source_select_source_random|].
  subst w'. unfold Extension.init, try_catch in *.
  pose proof (grows_init_try env w) as Hgrow.
  destruct (Extension.init_try env w) as [[[]|e] w1] eqn:Hrun; simpl in *.
  2:{ apply (f_equal length) in Herr. rewrite length_app in Herr. simpl in Herr. lia. }
  clear Hgrow. unfold Extension.init_try in Hrun.
  apply bind_Ok in Hrun as ([] & wa & Hu & Hrun).
  pose proof (same_run _ _ _ _ _ (errors_updateSourceSelector env _) Hu) as Hea.
  pose proof (same_run _ _ _ _ _ (random_flag_updateSourceSelector env _) Hu) as Hfa.
  apply bind_Ok in Hrun as (enabled & wb & Hb & Hrun). injection Hb as <- <-.
  destruct (AVAILABLE_SOURCES wa) as [|x l] eqn:Hav.
  { pose proof (showError_adds
      "No picture sources are currently enabled. Please enable sources in the admin panel." wa)
      as Hadd.
    rewrite Hrun in Hadd. simpl in Hadd. rewrite Herr, Hea in Hadd. lia. }
  apply bind_Ok in Hrun as (stored & wc & Hc & Hrun). injection Hc as <- <-.
  fold (random_flag wa) in Hrun. rewrite Hfa, Hrandom in Hrun. cbv zeta in Hrun.
  apply bind_Ok in Hrun as (chosen & wd & Hs & Hrun).
  pose proof Hs as Hpick.
  apply select_source_random in Hs.
  destruct chosen as [source|].
  - destruct Hs as (Ht & Hin & Hav' & Hed).
    apply select_source_random_pick in Hpick as (wr & Hpick & _).
    exists wa, source, wr. split; [done|]. split; [done|]. split; [done|]. split.
    + rewrite (same_run _ _ _ _ _ (AVAILABLE_SOURCES_load_picture env _ _) Hrun).
      by rewrite Hav'.
    + eapply load_picture_selects; [done| |exact Hrun]. by rewrite Hav'.
  - injection Hrun as <-. rewrite Herr, Hea in Hs. lia.
Qed.

Lemma init_random_mode_stores_its_pick_witness :
  let env := Examples.env_with (λ url,
    if String.eqb url Examples.sources_url
    then Response 200 (BodyArr [Examples.apod_entry; Examples.wikipedia_entry])
    else if String.eqb url Examples.today_apod_url
    then Response 200 (BodyObj Examples.apod_picture)
    else NetworkFailure "Failed to fetch") in
  let w := Examples.fresh [(1 # 4)%Q] in
  ∃ wa source wr,
    Extension.updateSourceSelector env (isLocalhost env) w = (Ok tt, wa) ∧
    Extension.getRandomSource wa = (Ok source, wr) ∧
    truthy source = true ∧
    source ∈ AVAILABLE_SOURCES (Extension.init env w).2 ∧
    cell_value (selected_source (Extension.init env w).2) = JStr (ToString source).
Proof.
  intros env w.
  destruct (init_random_mode_stores_its_pick env w) as [_ H];
    [reflexivity | vm_compute; reflexivity | exact H].
Defined.
